(** * Tilck kernel core: timekeeping, PCI enumeration and [select]

    A shallow embedding of three parts of the kernel and the properties
    proved about them:

    - [Clock]: the wall-clock readers ([get_timestamp],
      [real_time_get_timespec]) and the steady-state loop of the drift
      compensator [clock_drift_adj];
    - [Pci]: the legacy I/O-port configuration backend and the bus
      enumerator ([pci_discover_segment], [init_pci]);
    - [Select]: the [sys_select] system call;
    - [ClockThread], [ClockSys]: the boot alignment of the drift
      compensator, [init_system_time], the self-test of the drift
      correction and the time system calls ([sys_gettimeofday],
      [sys_clock_gettime], [sys_clock_getres]);
    - [PciMore], [PciNames]: what an enumeration probes and reports, and
      the look-up of vendor and class names;
    - [SelectMore]: the calls that a run of [sys_select] makes to the
      scheduler.

    C integers are modelled as [Z] with the wrap-around of their width
    written out ([u32], [s32], ...); division of signed operands is
    [Z.quot] (truncation towards zero), division of unsigned operands is
    [Z.div]. *)

From Stdlib Require Import ZArith List Bool Lia.
From stdpp Require Import base list list_numbers.
Import ListNotations.

Local Open Scope Z_scope.

(** ** Machine integers *)

Module Int.

(** Value of [x] after conversion to an unsigned integer of [w] bits. *)
Definition wrap_u (w x : Z) : Z := x mod 2 ^ w.

(** Value of [x] after conversion to a signed (two's complement) integer of
    [w] bits. *)
Definition wrap_s (w x : Z) : Z := (x + 2 ^ (w - 1)) mod 2 ^ w - 2 ^ (w - 1).

Definition u8 : Z -> Z := wrap_u 8.
Definition u16 : Z -> Z := wrap_u 16.
Definition u32 : Z -> Z := wrap_u 32.
Definition u64 : Z -> Z := wrap_u 64.
Definition s32 : Z -> Z := wrap_s 32.
Definition s64 : Z -> Z := wrap_s 64.

Definition INT_MAX : Z := 2147483647.
Definition UINT32_MAX : Z := 4294967295.

End Int.

(** ** Timekeeping and the drift compensator *)

Module Clock.
Import Int.

Definition BILLION : Z := 1000000000.

(** The tick knobs and the boot timestamp: the file-level variables
    [__time_ns] (u64), [__tick_duration] (u32), [__tick_adj_val] (int),
    [__tick_adj_ticks_rem] (int) and [boot_timestamp] (s64). *)
Record time_state := mk_time_state {
  __time_ns : Z;
  __tick_duration : Z;
  __tick_adj_val : Z;
  __tick_adj_ticks_rem : Z;
  boot_timestamp : Z
}.

Record timespec := mk_timespec { tv_sec : Z; tv_nsec : Z }.

Section Knobs.

(** The configuration macros [TIMER_HZ] and [TS_SCALE] are defined in
    headers; both are constants of type [int].  [time_t_bits] and
    [long_bits] are the widths of the types of [tv_sec] and [tv_nsec]. *)
Variable TIMER_HZ : Z.
Variable TS_SCALE : Z.
Variable time_t_bits : Z.
Variable long_bits : Z.

(** [get_sys_time]: [__time_ns] read with interrupts disabled. *)
Definition get_sys_time (st : time_state) : Z := __time_ns st.

(** [get_timestamp]: [boot_timestamp + (s64)(ts / TS_SCALE)]. *)
Definition get_timestamp (st : time_state) : Z :=
  let ts := get_sys_time st in
  s64 (boot_timestamp st + s64 (u64 (ts / TS_SCALE))).

(** [real_time_get_timespec]. *)
Definition real_time_get_timespec (st : time_state) : timespec :=
  let t := get_sys_time st in
  let sec :=
    wrap_s time_t_bits
      (wrap_s time_t_bits (boot_timestamp st)
       + wrap_s time_t_bits (u64 (t / TS_SCALE))) in
  let nsec :=
    if TS_SCALE <=? BILLION
    then u64 ((t mod TS_SCALE) * (BILLION ÷ TS_SCALE))
    else u64 ((t mod TS_SCALE) / (TS_SCALE ÷ BILLION)) in
  {| tv_sec := sec; tv_nsec := wrap_s long_bits nsec |}.

(** [monotonic_time_get_timespec]: same as the real-time clock. *)
Definition monotonic_time_get_timespec (st : time_state) : timespec :=
  real_time_get_timespec st.

(** The measured drift, [drift = (int)(sys_ts - hw_ts)], both timestamps
    being [s64]. *)
Definition measured_drift (sys_ts hw_ts : Z) : Z := s32 (s64 (sys_ts - hw_ts)).

(** One iteration of the [while (true)] loop that ends [clock_drift_adj],
    up to the [kernel_sleep]: [hw_ts] is the timestamp of the date read
    from the hardware clock ([datetime_to_timestamp(d)], external). *)
Definition clock_drift_adj_iter (hw_ts : Z) (st : time_state) : time_state :=
  let sys_ts := get_timestamp st in
  let drift := measured_drift sys_ts hw_ts in
  if drift =? 0 then st
  else
    let abs_drift := if 0 <? drift then drift else s32 (- drift) in
    let adj_val :=
      s32 (s32 (TS_SCALE ÷ TIMER_HZ) ÷ (if 0 <? drift then -10 else 10)) in
    let adj_ticks := s32 (s32 (abs_drift * TIMER_HZ) * 10) in
    {| __time_ns := __time_ns st;
       __tick_duration := __tick_duration st;
       __tick_adj_val := adj_val;
       __tick_adj_ticks_rem := adj_ticks;
       boot_timestamp := boot_timestamp st |}.

(** The steady-state loop over the successive readings of the hardware
    clock; [tick] is what the tick engine does to the state while the
    thread sleeps between two iterations. *)
Fixpoint clock_drift_adj_loop (tick : time_state -> time_state)
    (readings : list Z) (st : time_state) : time_state :=
  match readings with
  | [] => st
  | hw_ts :: rest =>
      clock_drift_adj_loop tick rest (tick (clock_drift_adj_iter hw_ts st))
  end.

(** The drift claim read literally: the drift is the difference of the two
    timestamps, and the installed pair is given by the two formulas on
    mathematical integers. *)
Definition drift_adjustment_as_stated (hw_ts : Z) (st : time_state) : Prop :=
  let drift := get_timestamp st - hw_ts in
  let st' := clock_drift_adj_iter hw_ts st in
  drift <> 0 ->
  __tick_adj_val st' =
    (if 0 <? drift then (TS_SCALE ÷ TIMER_HZ) ÷ (-10)
     else (TS_SCALE ÷ TIMER_HZ) ÷ 10)
  /\ __tick_adj_ticks_rem st' = Z.abs drift * TIMER_HZ * 10.

End Knobs.

End Clock.

(** ** PCI configuration access and bus enumeration *)

Module Pci.
Import Int.

Definition EINVAL : Z := 22.
Definition ENOENT : Z := 2.

Definition PCI_CONFIG_ADDRESS : Z := 0xcf8.
Definition PCI_CONFIG_DATA : Z := 0xcfc.

Definition PCI_CLASS_BRIDGE : Z := 0x06.
Definition PCI_SUBCLASS_PCI_BRIDGE : Z := 0x04.
Definition PCI_DEV_BASE_INFO : Z := 0x00.
Definition PCI_CLASS_INFO_OFF : Z := 0x08.
Definition PCI_HDR_TYPE_OFF : Z := 0x0e.

Definition PCI_HDR1_SECOND_BUS : Z := 0x19.
Definition PCI_HDR1_SUBORD_BUS : Z := 0x1a.

(** The three values stored in [pci_buses]. *)
Inductive bus_state := BUS_NOT_VISITED | BUS_TO_VISIT | BUS_VISITED.

Definition bus_state_eqb (a b : bus_state) : bool :=
  match a, b with
  | BUS_NOT_VISITED, BUS_NOT_VISITED
  | BUS_TO_VISIT, BUS_TO_VISIT
  | BUS_VISITED, BUS_VISITED => true
  | _, _ => false
  end.

(** The numeric value of a state ([#define]d as 0, 1, 2). *)
Definition bus_state_value (s : bus_state) : Z :=
  match s with
  | BUS_NOT_VISITED => 0
  | BUS_TO_VISIT => 1
  | BUS_VISITED => 2
  end.

Record pci_segment := mk_pci_segment {
  base_paddr : Z;
  segment : Z;
  start_bus : Z;
  end_bus : Z
}.

(** Modelled from the spec: [struct pci_device_loc] and [pci_make_loc] are
    declared in a header; a location is
    [(segment: u16, bus: u8, device: u5, function: u3)]. *)
Record pci_device_loc := mk_loc { seg : Z; bus : Z; dev : Z; func : Z }.

Definition pci_make_loc (s b d f : Z) : pci_device_loc :=
  {| seg := u16 s; bus := u8 b; dev := wrap_u 5 d; func := wrap_u 3 f |}.

Definition set_dev (loc : pci_device_loc) (d : Z) : pci_device_loc :=
  {| seg := seg loc; bus := bus loc; dev := wrap_u 5 d; func := func loc |}.

Definition set_func (loc : pci_device_loc) (f : Z) : pci_device_loc :=
  {| seg := seg loc; bus := bus loc; dev := dev loc; func := wrap_u 3 f |}.

(** Modelled from the spec: [struct pci_device_basic_info] is declared in a
    header.  It keeps the three raw words read from the configuration
    space: offset [0x00] is vendor:device (vendor in the low half), offset
    [0x08] is class:subclass:progif:revision (class in the top byte), and
    bit 7 of the header type at [0x0e] is the multi-function flag. *)
Record pci_device_basic_info := mk_nfo {
  __dev_vendr : Z;
  __class_info : Z;
  __header_type : Z
}.

Definition vendor_id (n : pci_device_basic_info) : Z :=
  Z.land (__dev_vendr n) 0xffff.
Definition device_id (n : pci_device_basic_info) : Z :=
  Z.land (Z.shiftr (__dev_vendr n) 16) 0xffff.
Definition rev_id (n : pci_device_basic_info) : Z :=
  Z.land (__class_info n) 0xff.
Definition progif_id (n : pci_device_basic_info) : Z :=
  Z.land (Z.shiftr (__class_info n) 8) 0xff.
Definition subclass_id (n : pci_device_basic_info) : Z :=
  Z.land (Z.shiftr (__class_info n) 16) 0xff.
Definition class_id (n : pci_device_basic_info) : Z :=
  Z.land (Z.shiftr (__class_info n) 24) 0xff.
Definition multi_func (n : pci_device_basic_info) : bool :=
  Z.testbit (__header_type n) 7.

(** A write to an I/O port: [outb], [outw] or [outl]. *)
Inductive port_write :=
| Outb (port v : Z)
| Outw (port v : Z)
| Outl (port v : Z).

(** What the enumerator does, in the order it does it (ghost log, newest
    event first): the call of [pci_mark_bus_as_visited] that opens the scan
    of a bus, a call of [pci_mark_bus_to_visit], a call of
    [pci_discover_device], and a line of [pci_dump_device_info]. *)
Inductive pci_event :=
| EvVisited (b : Z)
| EvMarked (b : Z)
| EvProbe (loc : pci_device_loc)
| EvDump (loc : pci_device_loc) (nfo : pci_device_basic_info).

(** The array [pci_buses] with the log. *)
Record pci_state := mk_pci_state {
  pci_buses : list bus_state;
  pci_log : list pci_event
}.

(** Why a run has no result. *)
Inductive fault :=
| Indeterminate   (* an object that was never written is read *)
| AssertFailed    (* an [ASSERT] does not hold *)
| NoExit          (* a loop whose exit condition is always true *)
| OutOfFuel.      (* the fuel given to the model is used up *)

Inductive res (A : Type) :=
| Ok (a : A)
| Fault (f : fault).
Arguments Ok {A} a.
Arguments Fault {A} f.

Definition bind {A B : Type} (m : res A) (k : A -> res B) : res B :=
  match m with
  | Ok a => k a
  | Fault f => Fault f
  end.

Notation "'do' x <- m ; k" := (bind m (fun x => k))
  (at level 10, x name, m at level 100, k at level 200).

(** A [for] loop over the values of [l] whose body cannot leave early. *)
Fixpoint for_each {A S : Type} (body : A -> S -> res S) (l : list A) (s : S)
    : res S :=
  match l with
  | [] => Ok s
  | a :: rest => do s' <- body a s ; for_each body rest s'
  end.

Definition log_event (e : pci_event) (st : pci_state) : pci_state :=
  {| pci_buses := pci_buses st; pci_log := e :: pci_log st |}.

Definition set_bus (b : Z) (v : bus_state) (st : pci_state) : pci_state :=
  {| pci_buses := <[Z.to_nat b := v]> (pci_buses st); pci_log := pci_log st |}.

(** [pci_buses[b]]; [b] is a [u8] and the array has 256 entries. *)
Definition get_bus (b : Z) (st : pci_state) : option bus_state :=
  pci_buses st !! Z.to_nat b.

Definition bus_is (b : Z) (v : bus_state) (st : pci_state) : bool :=
  match get_bus b st with
  | Some s => bus_state_eqb s v
  | None => false
  end.

(** [pci_mark_bus_to_visit]. *)
Definition pci_mark_bus_to_visit (b : Z) (st : pci_state) : pci_state :=
  let st := log_event (EvMarked b) st in
  if bus_is b BUS_NOT_VISITED st then set_bus b BUS_TO_VISIT st else st.

(** [pci_mark_bus_as_visited]. *)
Definition pci_mark_bus_as_visited (b : Z) (st : pci_state) : pci_state :=
  set_bus b BUS_VISITED (log_event (EvVisited b) st).

Section Hardware.

(** [port_in addr port width]: what an [inb]/[inw]/[inl] ([width] bits) on
    [port] returns once [addr] has been written to [PCI_CONFIG_ADDRESS]. *)
Variable port_in : Z -> Z -> Z -> Z.

Definition config_addr (loc : pci_device_loc) (off : Z) : Z :=
  let aoff := Z.land off (u32 (Z.lnot 3)) in
  Z.lor (Z.lor (Z.lor (Z.lor 0x80000000 (u32 (Z.shiftl (bus loc) 16)))
                      (u32 (Z.shiftl (dev loc) 11)))
               (u32 (Z.shiftl (func loc) 8)))
        aoff.

Definition data_port (off : Z) : Z := u16 (PCI_CONFIG_DATA + Z.land off 3).

(** [pci_ioport_config_read]: the status and, when a value was stored
    through [val], that value. *)
Definition pci_ioport_config_read (loc : pci_device_loc) (off width : Z)
    : Z * option Z :=
  let addr := config_addr loc off in
  if negb (seg loc =? 0) then (- EINVAL, None)
  else if (256 <=? off)
          || negb (Z.land off (u32 (Z.shiftr width 3 - 1)) =? 0)
  then (- EINVAL, None)
  else
    (* outl(PCI_CONFIG_ADDRESS, addr) *)
    if width =? 8 then (0, Some (u8 (port_in addr (data_port off) 8)))
    else if width =? 16 then (0, Some (u16 (port_in addr (data_port off) 16)))
    else if width =? 32 then (0, Some (u32 (port_in addr (data_port off) 32)))
    else (- EINVAL, None).

(** [pci_ioport_config_write]: the status and the port writes made. *)
Definition pci_ioport_config_write (loc : pci_device_loc) (off width val : Z)
    : Z * list port_write :=
  let addr := config_addr loc off in
  if negb (seg loc =? 0) then (- EINVAL, [])
  else if (256 <=? off)
          || negb (Z.land off (u32 (Z.shiftr width 3 - 1)) =? 0)
  then (- EINVAL, [])
  else
    let latch := Outl PCI_CONFIG_ADDRESS addr in
    if width =? 8 then (0, [latch; Outb (data_port off) (u8 val)])
    else if width =? 16 then (0, [latch; Outw (data_port off) (u16 val)])
    else if width =? 32 then (0, [latch; Outl (data_port off) (u32 val)])
    else (- EINVAL, [latch]).

(** [pci_mmio_config_read] and [pci_mmio_config_write]: success, nothing
    stored, nothing written. *)
Definition pci_mmio_config_read (loc : pci_device_loc) (off width : Z)
    : Z * option Z := (0, None).

Definition pci_mmio_config_write (loc : pci_device_loc) (off width val : Z)
    : Z * list port_write := (0, []).

(** The backend behind [__pci_config_read_func]. *)
Inductive pci_backend := IOPORT | MMIO.

Definition pci_config_read (b : pci_backend) (loc : pci_device_loc)
    (off width : Z) : Z * option Z :=
  match b with
  | IOPORT => pci_ioport_config_read loc off width
  | MMIO => pci_mmio_config_read loc off width
  end.

(** A read whose value the caller uses: [inl rc] when the status is not 0,
    [inr v] for the value stored; a success that stored nothing leaves the
    caller with an object that was never written. *)
Definition read_value (b : pci_backend) (loc : pci_device_loc)
    (off width : Z) : res (Z + Z) :=
  match pci_config_read b loc off width with
  | (rc, o) =>
      if negb (rc =? 0) then Ok (inl rc)
      else match o with
           | Some v => Ok (inr v)
           | None => Fault Indeterminate
           end
  end.

(** [pci_device_get_info]: [inl rc] for a failure, [inr nfo] for status 0. *)
Definition pci_device_get_info (b : pci_backend) (loc : pci_device_loc)
    : res (Z + pci_device_basic_info) :=
  do r1 <- read_value b loc PCI_DEV_BASE_INFO 32 ;
  match r1 with
  | inl rc => Ok (inl rc)
  | inr dv =>
      if (Z.land dv 0xffff =? 0xffff) || (Z.land dv 0xffff =? 0)
      then Ok (inl (- ENOENT))
      else
        do r2 <- read_value b loc PCI_CLASS_INFO_OFF 32 ;
        match r2 with
        | inl rc => Ok (inl rc)
        | inr ci =>
            do r3 <- read_value b loc PCI_HDR_TYPE_OFF 8 ;
            match r3 with
            | inl rc => Ok (inl rc)
            | inr tmp =>
                Ok (inr {| __dev_vendr := dv;
                           __class_info := ci;
                           __header_type := Z.land tmp 0xff |})
            end
        end
  end.

(** The loop [for (u32 i = secondary_bus; i <= subordinate_bus; i++)] of
    [pci_discover_device_func], [n] iterations from [i]. *)
Fixpoint mark_loop (n : nat) (i : Z) (st : pci_state) : pci_state :=
  match n with
  | O => st
  | S n' => mark_loop n' (i + 1) (pci_mark_bus_to_visit (u8 i) st)
  end.

Definition mark_range (secondary_bus subordinate_bus : Z) (st : pci_state)
    : res pci_state :=
  if subordinate_bus =? UINT32_MAX then Fault NoExit
  else Ok (mark_loop (Z.to_nat (subordinate_bus + 1 - secondary_bus))
                     secondary_bus st).

(** [pci_discover_device_func]; [dev_nfo] is [None] for a [NULL] pointer. *)
Definition pci_discover_device_func (b : pci_backend) (loc : pci_device_loc)
    (dev_nfo : option pci_device_basic_info) (st : pci_state)
    : res (bool * pci_state) :=
  do r <- (if negb (func loc =? 0) then pci_device_get_info b loc
        else match dev_nfo with
             | Some n => Ok (inr n)
             | None => Fault AssertFailed
             end) ;
  match r with
  | inl _ => Ok (false, st)
  | inr nfo =>
      let st := log_event (EvDump loc nfo) st in
      if (class_id nfo =? PCI_CLASS_BRIDGE)
         && (subclass_id nfo =? PCI_SUBCLASS_PCI_BRIDGE)
      then
        do r1 <- read_value b loc PCI_HDR1_SECOND_BUS 8 ;
        match r1 with
        | inl _ => Ok (false, st)
        | inr secondary_bus =>
            do r2 <- read_value b loc PCI_HDR1_SUBORD_BUS 8 ;
            match r2 with
            | inl _ => Ok (false, st)
            | inr subordinate_bus =>
                do st' <- mark_range secondary_bus subordinate_bus st ;
                Ok (true, st')
            end
        end
      else Ok (true, st)
  end.

(** [pci_discover_device]. *)
Definition pci_discover_device (b : pci_backend) (loc : pci_device_loc)
    (st : pci_state) : res (bool * pci_state) :=
  if negb (func loc =? 0) then Fault AssertFailed
  else
    let st := log_event (EvProbe loc) st in
    do r <- pci_device_get_info b loc ;
    match r with
    | inl _ => Ok (false, st)
    | inr nfo =>
        do r0 <- pci_discover_device_func b loc (Some nfo) st ;
        match r0 with
        | (false, st) => Ok (false, st)
        | (true, st) =>
            if multi_func nfo
            then
              do st' <- for_each
                       (fun f s =>
                          do r <- pci_discover_device_func b (set_func loc f)
                                 None s ;
                          Ok (snd r))
                       (seqZ 1 7) st ;
              Ok (true, st')
            else Ok (true, st)
        end
    end.

(** [pci_discover_bus]; [sg] is [None] for a [NULL] segment. *)
Definition pci_discover_bus (b : pci_backend) (sg : option pci_segment)
    (bs : Z) (st : pci_state) : res pci_state :=
  let seg_num := match sg with Some s => segment s | None => 0 end in
  let loc := pci_make_loc seg_num bs 0 0 in
  let st := pci_mark_bus_as_visited bs st in
  for_each
    (fun d s => do r <- pci_discover_device b (set_dev loc d) s ; Ok (snd r))
    (seqZ 0 32) st.

(** The loop over the host controllers of a multi-function root, which
    stops at the first function that gives no information. *)
Fixpoint discover_controllers (b : pci_backend) (sg : option pci_segment)
    (funcs : list Z) (st : pci_state) : res pci_state :=
  match funcs with
  | [] => Ok st
  | f :: rest =>
      do r <- pci_device_get_info b (pci_make_loc 0 0 0 f) ;
      match r with
      | inl _ => Ok st
      | inr _ =>
          do st' <- pci_discover_bus b sg (u8 f) st ;
          discover_controllers b sg rest st'
      end
  end.

(** The body of the loop [for (u32 bus = 1; bus < 256; bus++)] of the final
    loop, on [visit_count] and the state. *)
Definition sweep_step (b : pci_backend) (sg : option pci_segment) (bs : Z)
    (acc : Z * pci_state) : res (Z * pci_state) :=
  let (visit_count, s) := acc in
  if bus_is bs BUS_TO_VISIT s
  then do s' <- pci_discover_bus b sg (u8 bs) s ;
       Ok (s32 (visit_count + 1), s')
  else Ok acc.

(** One pass of that loop: [visit_count] and the state. *)
Definition sweep_pass (b : pci_backend) (sg : option pci_segment)
    (st : pci_state) : res (Z * pci_state) :=
  for_each (sweep_step b sg) (seqZ 1 255) (0, st).

(** The [do ... while (visit_count > 0)] loop, at most [fuel] passes. *)
Fixpoint sweep (fuel : nat) (b : pci_backend) (sg : option pci_segment)
    (st : pci_state) : res pci_state :=
  match fuel with
  | O => Fault OutOfFuel
  | S fuel' =>
      do r <- sweep_pass b sg st ;
      if 0 <? fst r then sweep fuel' b sg (snd r) else Ok (snd r)
  end.

(** [pci_discover_segment]. *)
Definition pci_discover_segment (fuel : nat) (b : pci_backend)
    (sg : option pci_segment) (st : pci_state) : res pci_state :=
  do r <- pci_device_get_info b (pci_make_loc 0 0 0 0) ;
  match r with
  | inl _ => Ok st
  | inr nfo =>
      do st1 <- (if negb (multi_func nfo)
              then pci_discover_bus b sg 0 st
              else discover_controllers b sg (seqZ 0 8) st) ;
      sweep fuel b sg st1
  end.

(** [init_pci]; [pcie_segments] is the table that [init_pci_ecam] built
    from the ACPI table MCFG (empty when there is none). *)
Definition init_pci (fuel : nat) (pcie_segments : list pci_segment)
    (st : pci_state) : res pci_state :=
  match pcie_segments with
  | [] => pci_discover_segment fuel IOPORT None st
  | _ :: _ =>
      for_each (fun sg s => pci_discover_segment fuel MMIO (Some sg) s)
               pcie_segments st
  end.

End Hardware.

(** A machine with a root device at 00:00.0 and a PCI-to-PCI bridge at
    00:02.0 with secondary bus 1 and subordinate bus 3; no other device
    answers.  [bridge_cfg] is the configuration space, one 32-bit register
    at a time, and [bridge_hw] what the data port returns. *)
Definition bridge_cfg (b d f reg : Z) : Z :=
  if (b =? 0) && (d =? 0) && (f =? 0) then
    if reg =? 0x00 then 0x12378086
    else if reg =? 0x08 then 0x06000001
    else 0
  else if (b =? 0) && (d =? 2) && (f =? 0) then
    if reg =? 0x00 then 0x24488086
    else if reg =? 0x08 then 0x06040001
    else if reg =? 0x0c then 0x00010000
    else if reg =? 0x18 then 0x00030100
    else 0
  else 0xffffffff.

Definition bridge_hw (addr port width : Z) : Z :=
  let b := Z.land (Z.shiftr addr 16) 0xff in
  let d := Z.land (Z.shiftr addr 11) 0x1f in
  let f := Z.land (Z.shiftr addr 8) 0x7 in
  let reg := Z.land addr 0xfc in
  Z.shiftr (bridge_cfg b d f reg) (8 * (port - PCI_CONFIG_DATA)).

(** A machine with a single host controller at 00:00.0, without functions
    1 to 7. *)
Definition single_cfg (b d f reg : Z) : Z :=
  if (b =? 0) && (d =? 0) && (f =? 0) then
    if reg =? 0x00 then 0x12378086
    else if reg =? 0x08 then 0x06000001
    else 0
  else 0xffffffff.

Definition single_hw (addr port width : Z) : Z :=
  let b := Z.land (Z.shiftr addr 16) 0xff in
  let d := Z.land (Z.shiftr addr 11) 0x1f in
  let f := Z.land (Z.shiftr addr 8) 0x7 in
  let reg := Z.land addr 0xfc in
  Z.shiftr (single_cfg b d f reg) (8 * (port - PCI_CONFIG_DATA)).

(** [pci_buses] as the loader leaves it: a zeroed static array. *)
Definition pci_boot_state : pci_state :=
  {| pci_buses := replicate 256 BUS_NOT_VISITED; pci_log := [] |}.

(** What an event of the log does to [pci_buses], and what a whole log
    (newest event first) does. *)
Definition apply_event (e : pci_event) (l : list bus_state) : list bus_state :=
  match e with
  | EvVisited b => <[Z.to_nat b := BUS_VISITED]> l
  | EvMarked b =>
      match l !! Z.to_nat b with
      | Some BUS_NOT_VISITED => <[Z.to_nat b := BUS_TO_VISIT]> l
      | _ => l
      end
  | _ => l
  end.

Fixpoint replay (log : list pci_event) (l : list bus_state) : list bus_state :=
  match log with
  | [] => l
  | e :: older => apply_event e (replay older l)
  end.

(** A bus number: an index of [pci_buses]. *)
Definition bus_number (b : Z) : Prop := 0 <= b < 256.

(** The number of entries of [pci_buses] in state [BUS_VISITED]. *)
Fixpoint visited_count (l : list bus_state) : nat :=
  match l with
  | [] => O
  | s :: rest =>
      ((if bus_state_eqb s BUS_VISITED then 1 else 0) + visited_count rest)%nat
  end.

(** In a log (newest event first), every call of [pci_discover_device] on a
    bus comes after the call of [pci_mark_bus_as_visited] for that bus. *)
Definition visited_before_probe (log : list pci_event) : Prop :=
  forall newer older loc,
    log = newer ++ EvProbe loc :: older -> In (EvVisited (bus loc)) older.

(** [st'] comes from [st] by the events [new] (newest first): they were
    added to the log, and [pci_buses] changed as they say. *)
Definition traced (st st' : pci_state) (new : list pci_event) : Prop :=
  pci_log st' = new ++ pci_log st
  /\ pci_buses st' = replay new (pci_buses st).

(** The events of the scan of bus [b], after its first one: no other scan
    starts, the buses marked are bus numbers, the devices probed are on
    [b]. *)
Definition body_event (b : Z) (e : pci_event) : Prop :=
  match e with
  | EvVisited _ => False
  | EvMarked m => bus_number m
  | EvProbe loc => bus loc = b
  | EvDump _ _ => True
  end.

(** The events of the scan of bus [b]. *)
Definition bus_block (b : Z) (new : list pci_event) : Prop :=
  exists body, new = body ++ [EvVisited b] /\ Forall (body_event b) body.

(** The buses whose scan was started, and the buses that were passed to
    [pci_mark_bus_to_visit], in a log. *)
Definition scanned (log : list pci_event) : list Z :=
  flat_map (fun e => match e with EvVisited b => [b] | _ => [] end) log.

Definition marked (log : list pci_event) : list Z :=
  flat_map (fun e => match e with EvMarked b => [b] | _ => [] end) log.

(** The locations of the devices reported, newest first. *)
Definition reported (log : list pci_event) : list pci_device_loc :=
  flat_map (fun e => match e with EvDump loc _ => [loc] | _ => [] end) log.

(** What holds of a state [st] reached from [st0] while a segment is
    discovered, [new] being the events since [st0]: no bus was scanned
    twice, the buses scanned and marked are bus numbers, and a device is
    probed only on a bus whose scan has started. *)
Definition seg_inv (st0 st : pci_state) (new : list pci_event) : Prop :=
  traced st0 st new
  /\ List.NoDup (scanned new)
  /\ Forall bus_number (scanned new)
  /\ Forall bus_number (marked new)
  /\ visited_before_probe new.

End Pci.

(** ** The [select] system call *)

Module Select.
Import Int.

Definition EBADF : Z := 9.
Definition ENOMEM : Z := 12.
Definition EFAULT : Z := 14.
Definition EINVAL : Z := 22.

Definition fd_set : Type := Z.
Definition FD_ISSET (i : Z) (s : fd_set) : bool := Z.testbit s i.
Definition FD_CLR (i : Z) (s : fd_set) : fd_set := Z.clearbit s i.

Record timeval := mk_timeval { tv_sec : Z; tv_usec : Z }.

(** The three kinds of readiness: the indices 0, 1, 2 of the arrays
    [sets], [u_sets], [gcf] and [grf]. *)
Inductive rwe := RD | WR | EX.

Definition kinds : list rwe := [RD; WR; EX].

(** An array of three elements indexed by [rwe]. *)
Record arr3 (A : Type) := mk_arr3 { a_rd : A; a_wr : A; a_ex : A }.
Arguments mk_arr3 {A} _ _ _.
Arguments a_rd {A} _.
Arguments a_wr {A} _.
Arguments a_ex {A} _.

Definition get3 {A : Type} (k : rwe) (a : arr3 A) : A :=
  match k with RD => a_rd a | WR => a_wr a | EX => a_ex a end.

Definition set3 {A : Type} (k : rwe) (v : A) (a : arr3 A) : arr3 A :=
  match k with
  | RD => mk_arr3 v (a_wr a) (a_ex a)
  | WR => mk_arr3 (a_rd a) v (a_ex a)
  | EX => mk_arr3 (a_rd a) (a_wr a) v
  end.

(** Modelled from the spec: the VFS is external.  A handle answers, for
    each kind, [get_rwe_cond] (the condition variable to wait on, if any:
    [gcf]) and [ready?] ([grf]). *)
Record fs_handle := mk_handle {
  h_cond : rwe -> option nat;
  h_ready : rwe -> bool
}.

(** [get_fs_handle]: the handle table of the current process, at one
    moment. *)
Definition handle_table : Type := Z -> option fs_handle.

(** A pointer received from user space: [NULL], or an object that
    [copy_from_user] can read and [copy_to_user] can write or not. *)
Inductive user_ptr (A : Type) :=
| UNull
| UPtr (readable writable : bool) (content : A).
Arguments UNull {A}.
Arguments UPtr {A} _ _ _.

Definition is_null {A : Type} (p : user_ptr A) : bool :=
  match p with UNull => true | UPtr _ _ _ => false end.

(** [copy_from_user]: [None] for a fault. *)
Definition copy_from_user {A : Type} (p : user_ptr A) : option A :=
  match p with
  | UPtr true _ v => Some v
  | _ => None
  end.

(** [copy_to_user]: the memory after the copy, [None] for a fault. *)
Definition copy_to_user {A : Type} (p : user_ptr A) (v : A)
    : option (user_ptr A) :=
  match p with
  | UPtr r true _ => Some (UPtr r true v)
  | _ => None
  end.

Record select_ctx := mk_ctx {
  nfds : Z;
  sets : arr3 (option fd_set);
  u_sets : arr3 (user_ptr fd_set);
  tv : option timeval;
  user_tv : user_ptr timeval;
  cond_cnt : Z;
  timeout_ticks : Z
}.

Definition with_sets (s : arr3 (option fd_set)) (c : select_ctx) : select_ctx :=
  mk_ctx (nfds c) s (u_sets c) (tv c) (user_tv c) (cond_cnt c)
         (timeout_ticks c).
Definition with_u_sets (s : arr3 (user_ptr fd_set)) (c : select_ctx)
    : select_ctx :=
  mk_ctx (nfds c) (sets c) s (tv c) (user_tv c) (cond_cnt c)
         (timeout_ticks c).
Definition with_tv (t : option timeval) (c : select_ctx) : select_ctx :=
  mk_ctx (nfds c) (sets c) (u_sets c) t (user_tv c) (cond_cnt c)
         (timeout_ticks c).
Definition with_user_tv (t : user_ptr timeval) (c : select_ctx) : select_ctx :=
  mk_ctx (nfds c) (sets c) (u_sets c) (tv c) t (cond_cnt c)
         (timeout_ticks c).
Definition with_cond_cnt (n : Z) (c : select_ctx) : select_ctx :=
  mk_ctx (nfds c) (sets c) (u_sets c) (tv c) (user_tv c) n (timeout_ticks c).
Definition with_timeout_ticks (n : Z) (c : select_ctx) : select_ctx :=
  mk_ctx (nfds c) (sets c) (u_sets c) (tv c) (user_tv c) (cond_cnt c) n.

(** The calls into the scheduler and the allocator, in order (ghost log,
    oldest first). *)
Inductive sched_event :=
| EvAllocWaiter (count : Z)
| EvFreeWaiter
| EvSetWakeupTimer (ticks : Z)
| EvCancelWakeupTimer
| EvSleepOnWaiter
| EvKernelSleep (ticks : Z).

(** What the task finds when [kernel_sleep_on_waiter] returns: the handle
    table then, whether the wakeup timer fired ([curr->wobj.type]), and
    what [task_cancel_wakeup_timer] would return. *)
Record wakeup := mk_wakeup {
  wk_handles : handle_table;
  wk_timer : bool;
  wk_rem : Z
}.

(** The rest of the kernel, as one call sees it: whether
    [allocate_mobj_waiter] succeeds, the successive returns of
    [kernel_sleep_on_waiter] (none left: the task is never woken again),
    and the handle table after a [kernel_sleep]. *)
Record sched := mk_sched {
  alloc_ok : bool;
  wakeups : list wakeup;
  after_sleep : handle_table
}.

Section Kernel.

(** [TIMER_HZ] and [MAX_HANDLES] are configuration macros. *)
Variable TIMER_HZ : Z.
Variable MAX_HANDLES : Z.

(** The loop of [select_count_cond_per_set], [n] iterations from [i]: the
    status and the new [cond_cnt]. *)
Fixpoint count_cond_loop (tbl : handle_table) (k : rwe) (set : fd_set)
    (n : nat) (i : Z) (cnt : Z) : Z * Z :=
  match n with
  | O => (0, cnt)
  | S n' =>
      if negb (FD_ISSET i set) then count_cond_loop tbl k set n' (i + 1) cnt
      else
        match tbl i with
        | None => (- EBADF, cnt)
        | Some h =>
            count_cond_loop tbl k set n' (i + 1)
              (match h_cond h k with
               | Some _ => u32 (cnt + 1)
               | None => cnt
               end)
        end
  end.

(** [select_count_cond_per_set]. *)
Definition select_count_cond_per_set (tbl : handle_table) (c : select_ctx)
    (set : option fd_set) (k : rwe) : Z * select_ctx :=
  match set with
  | None => (0, c)
  | Some s =>
      let (rc, cnt) :=
        count_cond_loop tbl k s (Z.to_nat (nfds c)) 0 (cond_cnt c) in
      (rc, with_cond_cnt cnt c)
  end.

(** The loop of [select_set_kcond]: the status ([None] when the [ASSERT]
    fails) and the conditions bound so far, slot 0 first. *)
Fixpoint set_kcond_loop (tbl : handle_table) (k : rwe) (set : fd_set)
    (count : Z) (n : nat) (i : Z) (w : list nat) : option (Z * list nat) :=
  match n with
  | O => Some (0, w)
  | S n' =>
      if negb (FD_ISSET i set) then set_kcond_loop tbl k set count n' (i + 1) w
      else
        match tbl i with
        | None => Some (- EBADF, w)
        | Some h =>
            if negb (Z.of_nat (length w) <? count) then None
            else
              set_kcond_loop tbl k set count n' (i + 1)
                (match h_cond h k with
                 | Some cv => w ++ [cv]
                 | None => w
                 end)
        end
  end.

(** [select_set_kcond]; [count] is [w->count] and the length of [w] is
    [*idx]. *)
Definition select_set_kcond (tbl : handle_table) (nfds : Z) (count : Z)
    (w : list nat) (set : option fd_set) (k : rwe) : option (Z * list nat) :=
  match set with
  | None => Some (0, w)
  | Some s => set_kcond_loop tbl k s count (Z.to_nat nfds) 0 w
  end.

(** The loop of [select_set_ready]: [tot] and the set. *)
Fixpoint set_ready_loop (tbl : handle_table) (k : rwe) (n : nat) (i : Z)
    (set : fd_set) (tot : Z) : Z * fd_set :=
  match n with
  | O => (tot, set)
  | S n' =>
      if negb (FD_ISSET i set) then set_ready_loop tbl k n' (i + 1) set tot
      else
        match tbl i with
        | Some h =>
            if h_ready h k
            then set_ready_loop tbl k n' (i + 1) set (s32 (tot + 1))
            else set_ready_loop tbl k n' (i + 1) (FD_CLR i set) tot
        | None => set_ready_loop tbl k n' (i + 1) (FD_CLR i set) tot
        end
  end.

(** [select_set_ready]. *)
Definition select_set_ready (tbl : handle_table) (nfds : Z)
    (set : option fd_set) (k : rwe) : Z * option fd_set :=
  match set with
  | None => (0, None)
  | Some s =>
      let (tot, s') := set_ready_loop tbl k (Z.to_nat nfds) 0 s 0 in
      (tot, Some s')
  end.

(** The loop of [count_ready_streams_per_set]. *)
Fixpoint count_ready_loop (tbl : handle_table) (k : rwe) (set : fd_set)
    (n : nat) (j : Z) (count : Z) : Z :=
  match n with
  | O => count
  | S n' =>
      if negb (FD_ISSET j set) then count_ready_loop tbl k set n' (j + 1) count
      else
        count_ready_loop tbl k set n' (j + 1)
          (match tbl j with
           | Some h => if h_ready h k then u32 (count + 1) else count
           | None => count
           end)
  end.

(** [count_ready_streams_per_set]. *)
Definition count_ready_streams_per_set (tbl : handle_table) (nfds : Z)
    (set : option fd_set) (k : rwe) : Z :=
  match set with
  | None => 0
  | Some s => count_ready_loop tbl k s (Z.to_nat nfds) 0 0
  end.

(** [count_ready_streams]. *)
Definition count_ready_streams (tbl : handle_table) (nfds : Z)
    (sets : arr3 (option fd_set)) : Z :=
  fold_left
    (fun count k =>
       u32 (count + count_ready_streams_per_set tbl nfds (get3 k sets) k))
    kinds 0.

(** How the wait of [select_wait_on_cond] ends. *)
Inductive wait_end :=
| WaitReturn (rc : Z) (c : select_ctx) (tbl : handle_table)
| WaitForever
| WaitPanic.

(** The [while (true)] loop of [select_wait_on_cond], one iteration for
    each return of [kernel_sleep_on_waiter]. *)
Fixpoint wait_loop (c : select_ctx) (ws : list wakeup)
    : list sched_event * wait_end :=
  match ws with
  | [] => ([EvSleepOnWaiter], WaitForever)
  | w :: rest =>
      match tv c with
      | Some _ =>
          if wk_timer w then
            ([EvSleepOnWaiter],
             WaitReturn 0 (with_tv (Some (mk_timeval 0 0)) c) (wk_handles w))
          else if count_ready_streams (wk_handles w) (nfds c) (sets c) =? 0
          then let (ev, r) := wait_loop c rest in (EvSleepOnWaiter :: ev, r)
          else
            let rem := wk_rem w in
            let t :=
              mk_timeval (rem / u32 TIMER_HZ)
                (u32 ((rem mod u32 TIMER_HZ) * u32 (1000000 ÷ TIMER_HZ))) in
            ([EvSleepOnWaiter; EvCancelWakeupTimer],
             WaitReturn 0 (with_tv (Some t) c) (wk_handles w))
      | None =>
          if count_ready_streams (wk_handles w) (nfds c) (sets c) =? 0
          then let (ev, r) := wait_loop c rest in (EvSleepOnWaiter :: ev, r)
          else ([EvSleepOnWaiter], WaitReturn 0 c (wk_handles w))
      end
  end.

(** The three calls of [select_set_kcond] in [select_wait_on_cond]. *)
Fixpoint set_kconds (tbl : handle_table) (c : select_ctx) (ks : list rwe)
    (w : list nat) : option (Z * list nat) :=
  match ks with
  | [] => Some (0, w)
  | k :: rest =>
      match select_set_kcond tbl (nfds c) (cond_cnt c) w (get3 k (sets c)) k with
      | None => None
      | Some (rc, w') =>
          if negb (rc =? 0) then Some (rc, w') else set_kconds tbl c rest w'
      end
  end.

(** [free_mobj_waiter] at the label [out], reached when the loop is left. *)
Definition free_after (r : wait_end) : list sched_event :=
  match r with
  | WaitReturn _ _ _ => [EvFreeWaiter]
  | _ => []
  end.

(** [select_wait_on_cond]. *)
Definition select_wait_on_cond (tbl : handle_table) (env : sched)
    (c : select_ctx) : list sched_event * wait_end :=
  if negb (alloc_ok env)
  then ([EvAllocWaiter (cond_cnt c)], WaitReturn (- ENOMEM) c tbl)
  else
    match set_kconds tbl c kinds [] with
    | None => ([EvAllocWaiter (cond_cnt c)], WaitPanic)
    | Some (rc, _) =>
        if negb (rc =? 0)
        then ([EvAllocWaiter (cond_cnt c); EvFreeWaiter], WaitReturn rc c tbl)
        else
          match tv c with
          | Some _ =>
              if negb (0 <? timeout_ticks c)
              then ([EvAllocWaiter (cond_cnt c)], WaitPanic)
              else
                let (ev, r) := wait_loop c (wakeups env) in
                (EvAllocWaiter (cond_cnt c)
                   :: EvSetWakeupTimer (timeout_ticks c) :: ev
                   ++ free_after r, r)
          | None =>
              let (ev, r) := wait_loop c (wakeups env) in
              (EvAllocWaiter (cond_cnt c) :: ev ++ free_after r, r)
          end
    end.

(** [select_read_user_sets]: the status and the kernel copies. *)
Fixpoint read_user_sets_loop (ks : list rwe) (sets : arr3 (option fd_set))
    (u_sets : arr3 (user_ptr fd_set)) : Z * arr3 (option fd_set) :=
  match ks with
  | [] => (0, sets)
  | k :: rest =>
      if is_null (get3 k u_sets) then read_user_sets_loop rest sets u_sets
      else
        match copy_from_user (get3 k u_sets) with
        | None => (- EFAULT, sets)
        | Some s => read_user_sets_loop rest (set3 k (Some s) sets) u_sets
        end
  end.

Definition select_read_user_sets (sets : arr3 (option fd_set))
    (u_sets : arr3 (user_ptr fd_set)) : Z * arr3 (option fd_set) :=
  read_user_sets_loop kinds sets u_sets.

(** The conversion of a [timeval] to ticks in [select_read_user_tv]. *)
Definition timeval_to_ticks (t : timeval) : Z :=
  let tmp := 0 in
  let tmp := u64 (tmp + u64 (u64 (tv_sec t) * u64 TIMER_HZ)) in
  let tmp := u64 (tmp + u64 (tv_usec t) / (1000000 / u64 TIMER_HZ)) in
  u32 (Z.min tmp UINT32_MAX).

(** [select_read_user_tv]: the status, [*tv_ref] and [*timeout]. *)
Definition select_read_user_tv (user_tv : user_ptr timeval) (timeout : Z)
    : Z * option timeval * Z :=
  if is_null user_tv then (0, None, timeout)
  else
    match copy_from_user user_tv with
    | None => (- EFAULT, None, timeout)
    | Some t => (0, Some t, timeval_to_ticks t)
    end.

(** The loop of [select_compute_cond_cnt]. *)
Fixpoint compute_cond_cnt_loop (tbl : handle_table) (ks : list rwe)
    (c : select_ctx) : Z * select_ctx :=
  match ks with
  | [] => (0, c)
  | k :: rest =>
      let (rc, c') := select_count_cond_per_set tbl c (get3 k (sets c)) k in
      if negb (rc =? 0) then (rc, c') else compute_cond_cnt_loop tbl rest c'
  end.

(** [select_compute_cond_cnt]. *)
Definition select_compute_cond_cnt (tbl : handle_table) (c : select_ctx)
    : Z * select_ctx :=
  match tv c with
  | Some _ =>
      if 0 <? timeout_ticks c then compute_cond_cnt_loop tbl kinds c
      else (0, c)
  | None => compute_cond_cnt_loop tbl kinds c
  end.

(** The loop of [select_write_user_sets]: the status (0 unless a copy
    fails), [total_ready_count] and the context.  ([sets[i]] is not [NULL]
    exactly when [u_sets[i]] is not: [select_read_user_sets] fills the one
    from the other.) *)
Fixpoint write_user_sets_loop (tbl : handle_table) (ks : list rwe)
    (c : select_ctx) (total_ready_count : Z) : Z * Z * select_ctx :=
  match ks with
  | [] => (0, total_ready_count, c)
  | k :: rest =>
      let (n, s) := select_set_ready tbl (nfds c) (get3 k (sets c)) k in
      let total := s32 (total_ready_count + n) in
      let c := with_sets (set3 k s (sets c)) c in
      if is_null (get3 k (u_sets c)) then write_user_sets_loop tbl rest c total
      else
        match s with
        | None => write_user_sets_loop tbl rest c total
        | Some s' =>
            match copy_to_user (get3 k (u_sets c)) s' with
            | None => (- EFAULT, total, c)
            | Some p =>
                write_user_sets_loop tbl rest
                  (with_u_sets (set3 k p (u_sets c)) c) total
            end
        end
  end.

(** [select_write_user_sets]: the value returned and the context, whose
    [u_sets] and [user_tv] are the user memory after the call. *)
Definition select_write_user_sets (tbl : handle_table) (c : select_ctx)
    : Z * select_ctx :=
  match write_user_sets_loop tbl kinds c 0 with
  | (rc, total, c') =>
      if negb (rc =? 0) then (rc, c')
      else
        match tv c' with
        | Some t =>
            match copy_to_user (user_tv c') t with
            | None => (- EFAULT, c')
            | Some p => (total, with_user_tv p c')
            end
        | None => (total, c')
        end
  end.

(** How a call of [sys_select] ends: it returns [rc] and leaves the user
    memory [out_sets], [out_tv]; or the task sleeps and is never woken
    again; or an [ASSERT] fails. *)
Inductive outcome :=
| Returned (rc : Z) (out_sets : arr3 (user_ptr fd_set))
           (out_tv : user_ptr timeval)
| Blocked
| Panic.

(** A run of [sys_select]: how it ends, the calls into the scheduler, and,
    when the report phase was reached, the handle table and the context
    that [select_write_user_sets] was called with. *)
Record run := mk_run {
  r_outcome : outcome;
  r_events : list sched_event;
  r_report : option (handle_table * select_ctx)
}.

Definition returns (rc : Z) (c : select_ctx) (ev : list sched_event) : run :=
  mk_run (Returned rc (u_sets c) (user_tv c)) ev None.

(** The report phase that ends [sys_select]. *)
Definition report (tbl : handle_table) (c : select_ctx)
    (ev : list sched_event) : run :=
  let (rc, c') := select_write_user_sets tbl c in
  mk_run (Returned rc (u_sets c') (user_tv c')) ev (Some (tbl, c)).

(** [sys_select]; [tbl] is the handle table when the call is made. *)
Definition sys_select (tbl : handle_table) (env : sched) (user_nfds : Z)
    (user_rfds user_wfds user_efds : user_ptr fd_set)
    (user_tv : user_ptr timeval) : run :=
  let ctx :=
    mk_ctx (u32 user_nfds) (mk_arr3 None None None)
           (mk_arr3 user_rfds user_wfds user_efds) None user_tv 0 0 in
  if (user_nfds <? 0) || (MAX_HANDLES <? user_nfds)
  then returns (- EINVAL) ctx []
  else
    let (rc, s) := select_read_user_sets (sets ctx) (u_sets ctx) in
    let ctx := with_sets s ctx in
    if negb (rc =? 0) then returns rc ctx []
    else
      match select_read_user_tv user_tv (timeout_ticks ctx) with
      | (rc, t, ticks) =>
          let ctx := with_timeout_ticks ticks (with_tv t ctx) in
          if negb (rc =? 0) then returns rc ctx []
          else
            let (rc, ctx) := select_compute_cond_cnt tbl ctx in
            if negb (rc =? 0) then returns rc ctx []
            else if 0 <? cond_cnt ctx then
              match select_wait_on_cond tbl env ctx with
              | (ev, WaitReturn rc ctx' tbl') =>
                  if negb (rc =? 0) then returns rc ctx' ev
                  else report tbl' ctx' ev
              | (ev, WaitForever) => mk_run Blocked ev None
              | (ev, WaitPanic) => mk_run Panic ev None
              end
            else if 0 <? timeout_ticks ctx then
              report (after_sleep env) ctx [EvKernelSleep (timeout_ticks ctx)]
            else report tbl ctx []
      end.

End Kernel.

(** The number of [j] among [i], [i + 1], ..., [i + n - 1] with [p j]. *)
Fixpoint count_from (p : Z -> bool) (n : nat) (i : Z) : Z :=
  match n with
  | O => 0
  | S n' => (if p i then 1 else 0) + count_from p n' (i + 1)
  end.


(** Whether descriptor [fd] has a handle that is ready for [k]. *)
Definition ready_at (tbl : handle_table) (k : rwe) (fd : Z) : bool :=
  match tbl fd with
  | Some h => h_ready h k
  | None => false
  end.



(** A user pointer that [copy_from_user] accepts, or [NULL]. *)
Definition readable {A : Type} (p : user_ptr A) : Prop :=
  match p with
  | UNull => True
  | UPtr r _ _ => r = true
  end.

(** A user pointer that [copy_to_user] accepts, or [NULL]. *)
Definition writable {A : Type} (p : user_ptr A) : Prop :=
  match p with
  | UNull => True
  | UPtr _ w _ => w = true
  end.

(** The set that a user pointer holds ([0] for [NULL]). *)
Definition set_of (p : user_ptr fd_set) : fd_set :=
  match p with
  | UNull => 0
  | UPtr _ _ s => s
  end.

(** [sets[i]] is the kernel copy of what [u_sets[i]] points to. *)
Definition copied (u : user_ptr fd_set) (s : option fd_set) : Prop :=
  match u, s with
  | UNull, None => True
  | UPtr true _ v, Some v' => v = v'
  | _, _ => False
  end.

(** The count and the set that [select_set_ready] leaves for the set that
    a user pointer holds. *)
Definition ready_count (tbl : handle_table) (n : Z) (k : rwe)
    (u : user_ptr fd_set) : Z :=
  match u with
  | UNull => 0
  | UPtr _ _ v => fst (set_ready_loop tbl k (Z.to_nat n) 0 v 0)
  end.

Definition ready_set (tbl : handle_table) (n : Z) (k : rwe)
    (u : user_ptr fd_set) : user_ptr fd_set :=
  match u with
  | UNull => UNull
  | UPtr r _ v => UPtr r true (snd (set_ready_loop tbl k (Z.to_nat n) 0 v 0))
  end.

(** The total that the loop of [select_write_user_sets] accumulates. *)
Definition sum_counts (tbl : handle_table) (n : Z)
    (u : arr3 (user_ptr fd_set)) (ks : list rwe) (tot : Z) : Z :=
  fold_left (fun a k => s32 (a + ready_count tbl n k (get3 k u))) ks tot.

(** What a phase leaves untouched in the context. *)
Definition same_request (c c' : select_ctx) : Prop :=
  nfds c' = nfds c /\ sets c' = sets c /\ u_sets c' = u_sets c
  /\ user_tv c' = user_tv c.


(** *** Sample handles and tables *)

(** A handle with a condition for each kind, never ready, and one that is
    always ready. *)
Definition h_idle : fs_handle := mk_handle (fun _ => Some 1%nat) (fun _ => false).
Definition h_ready_now : fs_handle := mk_handle (fun _ => Some 2%nat) (fun _ => true).

Definition no_handles : handle_table := fun _ => None.
Definition two_handles : handle_table :=
  fun fd => if fd =? 3 then Some h_idle
            else if fd =? 4 then Some h_ready_now else None.

Definition quiet (tbl : handle_table) : sched := mk_sched true [] tbl.

(** Descriptor 4 alone, without data and with data. *)
Definition idle_4 : handle_table :=
  fun fd => if fd =? 4 then Some h_idle else None.
Definition data_on_4 : handle_table :=
  fun fd => if fd =? 4 then Some h_ready_now else None.

(** The task is woken once, by the condition of descriptor 4, with [rem]
    ticks left on its wakeup timer. *)
Definition woken_by_4 (rem : Z) : sched :=
  mk_sched true [mk_wakeup data_on_4 false rem] idle_4.

(** Three statements of the specification on [sys_select], read to the
    letter. *)
Section Literal.

Variable TIMER_HZ : Z.
Variable MAX_HANDLES : Z.
Variable tbl : handle_table.
Variable env : sched.
Variable user_nfds : Z.
Variables user_rfds user_wfds user_efds : user_ptr fd_set.
Variable user_tv : user_ptr timeval.






End Literal.

(** The timeout in ticks is the minimum of the exact sum and
    [UINT32_MAX], for every [timeval]. *)
Definition timeout_as_stated (TIMER_HZ : Z) (t : timeval) : Prop :=
  timeval_to_ticks TIMER_HZ t =
    Z.min (tv_sec t * TIMER_HZ + tv_usec t / (1000000 / TIMER_HZ)) UINT32_MAX.

End Select.

(** ** The drift compensator's boot alignment, [init_system_time] and the
    self-test of the drift correction *)

Module ClockThread.
Import Int Clock.

Definition set_tick_duration (d : Z) (st : time_state) : time_state :=
  {| __time_ns := __time_ns st;
     __tick_duration := d;
     __tick_adj_val := __tick_adj_val st;
     __tick_adj_ticks_rem := __tick_adj_ticks_rem st;
     boot_timestamp := boot_timestamp st |}.

(** Modelled from the spec: [round_up_at64] is an inline helper of a header
    that is not part of these sources; the specification names it
    [round_up_to_multiple]: the least multiple of [a] that is not below [n],
    computed on [u64]. *)
Definition round_up_at64 (n a : Z) : Z := u64 (u64 (u64 (n + a - 1) / a) * a).

Section Knobs.

Variable TIMER_HZ : Z.
Variable TS_SCALE : Z.

(** The block of [clock_drift_adj] that runs with interrupts disabled when
    the hardware clock has just changed second: the initial offset is
    spread over the next ticks.  [None]: the division by [__tick_adj_val]
    is a division by zero. *)
Definition clock_drift_adj_align (st : time_state) : option time_state :=
  let hw_time_ns := round_up_at64 (__time_ns st) (u64 TS_SCALE) in
  if __time_ns st <? hw_time_ns then
    let abs_drift := s32 (u64 (hw_time_ns - __time_ns st)) in
    let adj_val := s32 (s32 (TS_SCALE ÷ TIMER_HZ) ÷ 10) in
    if adj_val =? 0 then None
    else
      Some {| __time_ns := __time_ns st;
              __tick_duration := __tick_duration st;
              __tick_adj_val := adj_val;
              __tick_adj_ticks_rem := s32 (abs_drift ÷ adj_val);
              boot_timestamp := boot_timestamp st |}
  else Some st.

(** The check made 20 seconds later: [false] is the [panic]. *)
Definition clock_drift_adj_check (hw_ts : Z) (st : time_state) : bool :=
  measured_drift (get_timestamp TS_SCALE st) hw_ts =? 0.

(** [init_system_time]; [hw_ts] is [datetime_to_timestamp(d)] for the date
    read from the hardware clock, [None] is the [panic]. *)
Definition init_system_time (hw_ts : Z) (st : time_state)
    : option time_state :=
  let boot := s64 hw_ts in
  if boot <? 0 then None
  else
    Some {| __time_ns := 0;
            __tick_duration := __tick_duration st;
            __tick_adj_val := __tick_adj_val st;
            __tick_adj_ticks_rem := __tick_adj_ticks_rem st;
            boot_timestamp := boot |}.

(** [selftest_time_manual]: the value of [art_drift_p] once
    [clock_drift_adj_loop_delay] has been looked at. *)
Definition art_drift_p (delay : Z) : Z :=
  if u32 (60 * TIMER_HZ) <? delay then 0 else 5.

(** The body of its loop, for the value [t] of the counter, up to the
    [kernel_sleep]. *)
Definition selftest_body (art orig t : Z) (st : time_state) : time_state :=
  if negb (art =? 0) && (t =? 0)
  then set_tick_duration (u32 (u32 (orig * u32 (100 + art)) / 100)) st
  else if negb (art =? 0) && ((t =? 60) || (t =? 180))
  then set_tick_duration orig st
  else if negb (art =? 0) && (t =? 120)
  then set_tick_duration (u32 (u32 (orig * u32 (100 - art)) / 100)) st
  else st.

(** [n] iterations of the loop from [t]; [tick] is what the rest of the
    kernel does to the state during the [kernel_sleep] of one iteration. *)
Fixpoint selftest_loop (tick : time_state -> time_state) (art orig : Z)
    (n : nat) (t : Z) (st : time_state) : time_state :=
  match n with
  | O => st
  | S n' =>
      selftest_loop tick art orig n' (t + 1)
        (tick (selftest_body art orig t st))
  end.

(** [selftest_time_manual], stopped ([se_is_stop_requested]) after [n]
    iterations. *)
Definition selftest_time_manual (tick : time_state -> time_state)
    (delay : Z) (n : nat) (st : time_state) : time_state :=
  let art := art_drift_p delay in
  let orig :=
    if negb (art =? 0) && (__tick_adj_ticks_rem st =? 0)
    then __tick_duration st else 0 in
  if negb (art =? 0) && (orig =? 0) then st
  else
    let st := selftest_loop tick art orig n 0 st in
    if negb (art =? 0) then set_tick_duration orig st else st.

End Knobs.

End ClockThread.

(** ** The time system calls *)

Module ClockSys.
Import Int.

Definition EFAULT : Z := 14.
Definition EINVAL : Z := 22.

(** The clock ids of the [switch] statements: the seven ids with a [case]
    label and any other value. *)
Inductive clockid_t :=
| CLOCK_REALTIME
| CLOCK_REALTIME_COARSE
| CLOCK_MONOTONIC
| CLOCK_MONOTONIC_COARSE
| CLOCK_MONOTONIC_RAW
| CLOCK_PROCESS_CPUTIME_ID
| CLOCK_THREAD_CPUTIME_ID
| CLOCK_OTHER (id : Z).

Record timezone := mk_timezone { tz_minuteswest : Z; tz_dsttime : Z }.

Section Knobs.

(** [ticks_bits] is the width of the unsigned type of [total_ticks] in
    [struct task]; the other knobs are those of [Clock]. *)
Variable TIMER_HZ : Z.
Variable TS_SCALE : Z.
Variable time_t_bits : Z.
Variable long_bits : Z.
Variable ticks_bits : Z.

(** [task_cpu_get_timespec]; [total_ticks] is [ti->total_ticks] for the
    current task. *)
Definition task_cpu_get_timespec (total_ticks : Z) (st : Clock.time_state)
    : Clock.timespec :=
  let tot :=
    u64 (wrap_u (Z.max ticks_bits 32)
           (total_ticks * Clock.__tick_duration st)) in
  let sec := wrap_s time_t_bits (u64 (tot / TS_SCALE)) in
  let nsec :=
    if TS_SCALE <=? Clock.BILLION
    then u64 ((tot mod TS_SCALE) * (Clock.BILLION ÷ TS_SCALE))
    else u64 ((tot mod TS_SCALE) / (TS_SCALE ÷ Clock.BILLION)) in
  {| Clock.tv_sec := sec; Clock.tv_nsec := wrap_s long_bits nsec |}.

(** [sys_gettimeofday]: the status and the user memory after the call. *)
Definition sys_gettimeofday (st : Clock.time_state)
    (user_tv : Select.user_ptr Select.timeval)
    (user_tz : Select.user_ptr timezone)
    : Z * Select.user_ptr Select.timeval * Select.user_ptr timezone :=
  let tz := mk_timezone 0 0 in
  let tp := Clock.real_time_get_timespec TS_SCALE time_t_bits long_bits st in
  let tv :=
    Select.mk_timeval (Clock.tv_sec tp)
      (wrap_s long_bits (Clock.tv_nsec tp ÷ 1000)) in
  match (if Select.is_null user_tv then Some user_tv
         else Select.copy_to_user user_tv tv) with
  | None => (- EFAULT, user_tv, user_tz)
  | Some user_tv' =>
      match (if Select.is_null user_tz then Some user_tz
             else Select.copy_to_user user_tz tz) with
      | None => (- EFAULT, user_tv', user_tz)
      | Some user_tz' => (0, user_tv', user_tz')
      end
  end.

(** [sys_clock_gettime]: the status and the user memory after the call. *)
Definition sys_clock_gettime (total_ticks : Z) (st : Clock.time_state)
    (clk_id : clockid_t) (user_tp : Select.user_ptr Clock.timespec)
    : Z * Select.user_ptr Clock.timespec :=
  if Select.is_null user_tp then (- EINVAL, user_tp)
  else
    let tp :=
      match clk_id with
      | CLOCK_REALTIME | CLOCK_REALTIME_COARSE =>
          Some (Clock.real_time_get_timespec TS_SCALE time_t_bits long_bits st)
      | CLOCK_MONOTONIC | CLOCK_MONOTONIC_COARSE | CLOCK_MONOTONIC_RAW =>
          Some (Clock.monotonic_time_get_timespec TS_SCALE time_t_bits
                  long_bits st)
      | CLOCK_PROCESS_CPUTIME_ID | CLOCK_THREAD_CPUTIME_ID =>
          Some (task_cpu_get_timespec total_ticks st)
      | CLOCK_OTHER _ => None
      end in
    match tp with
    | None => (- EINVAL, user_tp)
    | Some tp =>
        match Select.copy_to_user user_tp tp with
        | None => (- EFAULT, user_tp)
        | Some p => (0, p)
        end
    end.

(** The ids with a [case] label. *)
Definition supported (clk_id : clockid_t) : bool :=
  match clk_id with CLOCK_OTHER _ => false | _ => true end.

(** The time that [sys_clock_gettime] reports for a supported id: the three
    monotonic ids give the wall-clock time of [CLOCK_REALTIME]. *)
Definition clock_value (total_ticks : Z) (st : Clock.time_state)
    (clk_id : clockid_t) : Clock.timespec :=
  match clk_id with
  | CLOCK_PROCESS_CPUTIME_ID | CLOCK_THREAD_CPUTIME_ID =>
      task_cpu_get_timespec total_ticks st
  | _ => Clock.real_time_get_timespec TS_SCALE time_t_bits long_bits st
  end.

(** [sys_clock_getres]. *)
Definition sys_clock_getres (clk_id : clockid_t)
    (user_res : Select.user_ptr Clock.timespec)
    : Z * Select.user_ptr Clock.timespec :=
  match clk_id with
  | CLOCK_OTHER _ => (- EINVAL, user_res)
  | _ =>
      let tp :=
        {| Clock.tv_sec := 0;
           Clock.tv_nsec := wrap_s long_bits (s32 (Clock.BILLION ÷ TIMER_HZ)) |} in
      match Select.copy_to_user user_res tp with
      | None => (- EFAULT, user_res)
      | Some p => (0, p)
      end
  end.

End Knobs.

End ClockSys.

(** ** Port accesses, presence of a function and the name tables *)

Module PciMore.
Import Int Pci.

(** The write to the data port for a value of [width] bits. *)
Definition data_write (width port v : Z) : port_write :=
  if width =? 8 then Outb port (u8 v)
  else if width =? 16 then Outw port (u16 v)
  else Outl port (u32 v).

(** The I/O ports (one per byte) that a write covers. *)
Definition ports_of (w : port_write) : list Z :=
  match w with
  | Outb p _ => [p]
  | Outw p _ => [p; p + 1]
  | Outl p _ => [p; p + 1; p + 2; p + 3]
  end.

(** The devices probed, newest first. *)
Definition probed (log : list pci_event) : list pci_device_loc :=
  flat_map (fun e => match e with EvProbe loc => [loc] | _ => [] end) log.

(** What a step of the enumeration adds to the log: it starts at most the
    scans [sc], probes the devices [pr] and reports the functions [rp], in
    this order. *)
Definition emits (st st' : pci_state) (sc : list Z)
    (pr rp : list pci_device_loc) : Prop :=
  exists new,
    pci_log st' = new ++ pci_log st
    /\ rev (scanned new) = sc
    /\ rev (probed new) = pr
    /\ rev (reported new) = rp.

Section Hardware.

Variable port_in : Z -> Z -> Z -> Z.

(** The vendor id that the hardware answers for a location, through the
    I/O ports. *)
Definition hw_vendor (loc : pci_device_loc) : Z :=
  Z.land (u32 (port_in (config_addr loc PCI_DEV_BASE_INFO)
                 (data_port PCI_DEV_BASE_INFO) 32)) 0xffff.

(** A function answers: [pci_device_get_info] succeeds. *)
Definition present (loc : pci_device_loc) : bool :=
  match pci_device_get_info port_in IOPORT loc with
  | Ok (inr _) => true
  | _ => false
  end.

(** The functions of the device at [loc] (function 0) that the enumerator
    is to report: function 0 when it answers, and with it the functions
    1 to 7 that answer when its header says multi-function. *)
Definition device_functions (loc : pci_device_loc) : list pci_device_loc :=
  match pci_device_get_info port_in IOPORT loc with
  | Ok (inr nfo) =>
      loc :: (if multi_func nfo
              then List.filter present (map (set_func loc) (seqZ 1 7))
              else [])
  | _ => []
  end.

(** The 32 devices of a bus, and the functions of the bus that the
    enumerator is to report. *)
Definition bus_devices (seg_num b : Z) : list pci_device_loc :=
  map (set_dev (pci_make_loc seg_num b 0 0)) (seqZ 0 32).

Definition bus_functions (seg_num b : Z) : list pci_device_loc :=
  flat_map device_functions (bus_devices seg_num b).

(** The segment number that [pci_discover_bus] puts in its locations. *)
Definition seg_num_of (sg : option pci_segment) : Z :=
  match sg with Some s => segment s | None => 0 end.

(** What has been emitted since [st0] is, for some sequence of scans, the
    probes and the reports of those scans. *)
Definition scans_reported (sg : option pci_segment) (st0 st : pci_state)
    : Prop :=
  exists sc,
    emits st0 st sc
      (flat_map (bus_devices (seg_num_of sg)) sc)
      (flat_map (bus_functions (seg_num_of sg)) sc).

End Hardware.

End PciMore.

(** ** The tables of vendor and class names *)

Module PciNames.

Section Names.

(** The strings of the tables; a [const char *] is [None] when it is
    [NULL]. *)
Variable name : Type.

(** [struct pci_vendor] and an element of [pci_device_classes_list], as the
    code uses them. *)
Record pci_vendor := mk_vendor {
  vendor_id : Z;
  vendor_name : option name
}.

Record pci_device_class := mk_class {
  class_id : Z;
  subclass_id : Z;
  progif_id : Z;
  class_name : option name;
  subclass_name : option name;
  progif_name : option name
}.

(** [pci_find_vendor_name] on the table [pci_vendors_list]. *)
Fixpoint pci_find_vendor_name (pci_vendors_list : list pci_vendor) (id : Z)
    : option name :=
  match pci_vendors_list with
  | [] => None
  | v :: rest =>
      if vendor_id v =? id then vendor_name v
      else pci_find_vendor_name rest id
  end.

(** The three loops of [pci_find_device_class_name] share the index [i]:
    each one goes on from the element at which the one before stopped.
    The elements from index [i] on stand for [i]; [[]] is [i] at
    [ARRAY_SIZE]. *)

(** The first loop: up to the first element of class [c]. *)
Fixpoint seek_class (rows : list pci_device_class) (c : Z)
    : list pci_device_class :=
  match rows with
  | [] => []
  | r :: rest => if class_id r =? c then rows else seek_class rest c
  end.

(** The second loop: as long as the class is [c], up to the first element
    of subclass [s]; [None] when it ends without a [subclass_name]. *)
Fixpoint seek_subclass (rows : list pci_device_class) (c s : Z)
    : option (list pci_device_class) :=
  match rows with
  | [] => None
  | r :: rest =>
      if negb (class_id r =? c) then None
      else if subclass_id r =? s then Some rows
      else seek_subclass rest c s
  end.

(** The third loop: as long as the subclass is [s], up to the first
    element of programming interface [p]. *)
Fixpoint seek_progif (rows : list pci_device_class) (s p : Z)
    : option (list pci_device_class) :=
  match rows with
  | [] => None
  | r :: rest =>
      if negb (subclass_id r =? s) then None
      else if progif_id r =? p then Some rows
      else seek_progif rest s p
  end.

Definition with_names (dc : pci_device_class) (cn sn pn : option name)
    : pci_device_class :=
  mk_class (class_id dc) (subclass_id dc) (progif_id dc) cn sn pn.

(** [pci_find_device_class_name] on the table [pci_device_classes_list]. *)
Definition pci_find_device_class_name
    (pci_device_classes_list : list pci_device_class)
    (dev_class : pci_device_class) : pci_device_class :=
  let dc := with_names dev_class None None None in
  match seek_class pci_device_classes_list (class_id dc) with
  | [] => dc
  | (r1 :: _) as rows1 =>
      let dc := with_names dc (class_name r1) None None in
      match class_name dc with
      | None => dc
      | Some _ =>
          match seek_subclass rows1 (class_id dc) (subclass_id dc) with
          | Some ((r2 :: _) as rows2) =>
              let dc :=
                with_names dc (class_name dc) (subclass_name r2) None in
              match subclass_name dc with
              | None => dc
              | Some _ =>
                  match seek_progif rows2 (subclass_id dc) (progif_id dc) with
                  | Some (r3 :: _) =>
                      with_names dc (class_name dc) (subclass_name dc)
                        (progif_name r3)
                  | _ => dc
                  end
              end
          | _ => dc
          end
      end
  end.

(** The table is in class-major order: the elements of a class are next
    to each other, and so are, within a class, those of a subclass. *)
Definition grouped {K : Type} (key : pci_device_class -> K)
    (rows : list pci_device_class) : Prop :=
  forall l1 a l2 b l3,
    rows = l1 ++ a :: l2 ++ b :: l3 ->
    key a = key b ->
    Forall (fun x => key x = key a) l2.

Definition class_major (rows : list pci_device_class) : Prop :=
  grouped class_id rows
  /\ grouped (fun r => (class_id r, subclass_id r)) rows.

(** The names are those of the ids: two elements with the same class have
    the same class name, and so on. *)
Definition canonical (rows : list pci_device_class) : Prop :=
  forall a b,
    In a rows -> In b rows ->
    class_id a = class_id b ->
    class_name a = class_name b
    /\ (subclass_id a = subclass_id b ->
        subclass_name a = subclass_name b
        /\ (progif_id a = progif_id b -> progif_name a = progif_name b)).

End Names.

Arguments mk_vendor {name} _ _.
Arguments vendor_id {name} _.
Arguments vendor_name {name} _.
Arguments mk_class {name} _ _ _ _ _ _.
Arguments class_id {name} _.
Arguments subclass_id {name} _.
Arguments progif_id {name} _.
Arguments class_name {name} _.
Arguments subclass_name {name} _.
Arguments progif_name {name} _.
Arguments pci_find_vendor_name {name} _ _.
Arguments seek_class {name} _ _.
Arguments seek_subclass {name} _ _ _.
Arguments seek_progif {name} _ _ _.
Arguments with_names {name} _ _ _ _.
Arguments pci_find_device_class_name {name} _ _.
Arguments grouped {name K} _ _.
Arguments class_major {name} _.
Arguments canonical {name} _.

(** A small table: a class with one subclass and two programming
    interfaces, followed by a class with the same subclass id; the names
    are numbers. *)
Definition sample_classes : list (pci_device_class Z) :=
  [ mk_class 1 0 0 (Some 10) (Some 100) (Some 1000);
    mk_class 1 0 1 (Some 10) (Some 100) (Some 1001);
    mk_class 2 0 5 (Some 20) (Some 200) (Some 2005) ].

End PciNames.

(** ** Counting the calls of a run of [sys_select] *)

Module SelectMore.
Import Int Select.

Definition is_alloc (e : sched_event) : bool :=
  match e with EvAllocWaiter _ => true | _ => false end.
Definition is_free (e : sched_event) : bool :=
  match e with EvFreeWaiter => true | _ => false end.
Definition is_set_timer (e : sched_event) : bool :=
  match e with EvSetWakeupTimer _ => true | _ => false end.
Definition is_cancel_timer (e : sched_event) : bool :=
  match e with EvCancelWakeupTimer => true | _ => false end.

(** The number of events of a log that [p] accepts. *)
Definition calls (p : sched_event -> bool) (ev : list sched_event) : nat :=
  length (List.filter p ev).

(** Descriptor [fd] has a handle with a condition for [k]. *)
Definition cond_at (tbl : handle_table) (k : rwe) (fd : Z) : bool :=
  match tbl fd with
  | Some h => match h_cond h k with Some _ => true | None => false end
  | None => false
  end.


(** The number of conditions that the descriptors selected in [set] from
    [i] on have; those of the set of kind [k] of a context; those of the
    sets of the kinds [ks]. *)
Definition conds_from (tbl : handle_table) (k : rwe) (set : fd_set)
    (n : nat) (i : Z) : Z :=
  count_from (fun j => FD_ISSET j set && cond_at tbl k j) n i.

Definition conds_of (tbl : handle_table) (c : select_ctx) (k : rwe) : Z :=
  match get3 k (sets c) with
  | None => 0
  | Some s => conds_from tbl k s (Z.to_nat (nfds c)) 0
  end.

Definition conds_total (tbl : handle_table) (c : select_ctx)
    (ks : list rwe) : Z :=
  fold_right (fun k a => conds_of tbl c k + a) 0 ks.

(** A selected descriptor below [nfds] that has no handle. *)
Definition bad_fd (tbl : handle_table) (c : select_ctx) (k : rwe) (fd : Z)
    : Prop :=
  exists s,
    get3 k (sets c) = Some s /\ 0 <= fd < nfds c
    /\ FD_ISSET fd s = true /\ tbl fd = None.

Section Kernel.

Variable TIMER_HZ : Z.

(** The part of [sys_select] that follows the copies from user space. *)
Definition select_after_copy (tbl : handle_table) (env : sched)
    (ctx : select_ctx) : run :=
  let (rc, ctx) := select_compute_cond_cnt tbl ctx in
  if negb (rc =? 0) then returns rc ctx []
  else if 0 <? cond_cnt ctx then
    match select_wait_on_cond TIMER_HZ tbl env ctx with
    | (ev, WaitReturn rc ctx' tbl') =>
        if negb (rc =? 0) then returns rc ctx' ev
        else report tbl' ctx' ev
    | (ev, WaitForever) => mk_run Blocked ev None
    | (ev, WaitPanic) => mk_run Panic ev None
    end
  else if 0 <? timeout_ticks ctx then
    report (after_sleep env) ctx [EvKernelSleep (timeout_ticks ctx)]
  else report tbl ctx [].

(** The [timeval] that [select_wait_on_cond] makes of the ticks left on
    the wakeup timer. *)
Definition remaining_time (rem : Z) : timeval :=
  mk_timeval (rem / u32 TIMER_HZ)
    (u32 ((rem mod u32 TIMER_HZ) * u32 (1000000 ÷ TIMER_HZ))).

(** How [sys_select] goes on when [select_wait_on_cond] has ended. *)
Definition after_wait (w : list sched_event * wait_end) : run :=
  match w with
  | (ev, WaitReturn rc ctx' tbl') =>
      if negb (rc =? 0) then returns rc ctx' ev else report tbl' ctx' ev
  | (ev, WaitForever) => mk_run Blocked ev None
  | (ev, WaitPanic) => mk_run Panic ev None
  end.

End Kernel.

(** A handle without any condition, always ready; descriptor 3 with a
    condition and descriptor 4 without. *)
Definition h_plain : fs_handle := mk_handle (fun _ => None) (fun _ => true).

Definition cond_then_plain : handle_table :=
  fun fd => if fd =? 3 then Some h_idle
            else if fd =? 4 then Some h_plain else None.

End SelectMore.

(** * Properties *)

(** ** Facts on machine integers *)

Module IntFacts.
Import Int.

Lemma wrap_u_small w x : 0 <= w -> 0 <= x < 2 ^ w -> wrap_u w x = x.
Proof. intros _ Hx. unfold wrap_u. apply Z.mod_small. exact Hx. Qed.

Lemma wrap_u_range w x : 0 <= w -> 0 <= wrap_u w x < 2 ^ w.
Proof.
  intros Hw. unfold wrap_u. apply Z.mod_pos_bound.
  apply Z.pow_pos_nonneg; lia.
Qed.

Lemma wrap_s_small w x :
  0 < w -> - 2 ^ (w - 1) <= x < 2 ^ (w - 1) -> wrap_s w x = x.
Proof.
  intros Hw Hx. unfold wrap_s.
  assert (Hp : 2 ^ w = 2 * 2 ^ (w - 1)).
  { replace w with (Z.succ (w - 1)) at 1 by lia.
    rewrite Z.pow_succ_r by lia. reflexivity. }
  rewrite Z.mod_small by lia. lia.
Qed.

Lemma u32_small x : 0 <= x < 4294967296 -> u32 x = x.
Proof. intros H. apply wrap_u_small; [lia | exact H]. Qed.

Lemma u64_small x : 0 <= x < 18446744073709551616 -> u64 x = x.
Proof. intros H. apply wrap_u_small; [lia | exact H]. Qed.

Lemma s32_small x : - 2147483648 <= x <= 2147483647 -> s32 x = x.
Proof. intros H. apply wrap_s_small; [lia | simpl; lia]. Qed.

Lemma s64_small x :
  - 9223372036854775808 <= x <= 9223372036854775807 -> s64 x = x.
Proof. intros H. apply wrap_s_small; [lia | simpl; lia]. Qed.

Lemma quot_div_pos a b : 0 <= a -> 0 < b -> a ÷ b = a / b.
Proof. intros Ha Hb. apply Z.quot_div_nonneg; lia. Qed.

Lemma pow2_le_mono a b : 0 <= a <= b -> 2 ^ a <= 2 ^ b.
Proof. intros H. apply Z.pow_le_mono_r; lia. Qed.

End IntFacts.

(** ** Timekeeping *)

Module ClockSpec.
Import Int IntFacts Clock.

Section Knobs.

Variable TIMER_HZ : Z.
Variable TS_SCALE : Z.

(** [TIMER_HZ] is positive, a tick lasts at least ten units, and
    [STATIC_ASSERT(TS_SCALE <= BILLION)]. *)
Hypothesis TIMER_HZ_pos : 0 < TIMER_HZ.
Hypothesis tick_units : 10 * TIMER_HZ <= TS_SCALE.
Hypothesis TS_SCALE_max : TS_SCALE <= BILLION.

Lemma tick_len_range : 10 <= TS_SCALE ÷ TIMER_HZ <= BILLION.
Proof.
  rewrite quot_div_pos by lia. split.
  - apply Z.div_le_lower_bound; lia.
  - transitivity TS_SCALE; [| lia].
    apply Z.div_le_upper_bound; [lia |]. nia.
Qed.

Lemma measured_drift_exact d hw_ts :
  - INT_MAX <= d - hw_ts <= INT_MAX ->
  measured_drift d hw_ts = d - hw_ts.
Proof.
  unfold measured_drift, INT_MAX. intros H.
  rewrite s64_small by lia. apply s32_small. lia.
Qed.

(** C1 (as amended).  In one iteration of the steady-state loop, when the
    drift [sys_ts - hw_ts] is not zero and [|drift| * TIMER_HZ * 10] is at
    most [INT_MAX], the installed [__tick_adj_val] is
    [(TS_SCALE / TIMER_HZ) / (-10)] for a positive drift and
    [(TS_SCALE / TIMER_HZ) / 10] for a negative one, its sign is the
    opposite of the drift's, and the installed [__tick_adj_ticks_rem] is
    [|drift| * TIMER_HZ * 10]. *)
Theorem clock_drift_adj_installs (hw_ts drift : Z) (st : time_state) :
  drift = get_timestamp TS_SCALE st - hw_ts ->
  drift <> 0 ->
  Z.abs drift * TIMER_HZ * 10 <= INT_MAX ->
  __tick_adj_val (clock_drift_adj_iter TIMER_HZ TS_SCALE hw_ts st) =
    (if 0 <? drift then (TS_SCALE ÷ TIMER_HZ) ÷ (-10)
     else (TS_SCALE ÷ TIMER_HZ) ÷ 10)
  /\ (0 < drift ->
      __tick_adj_val (clock_drift_adj_iter TIMER_HZ TS_SCALE hw_ts st) < 0)
  /\ (drift < 0 ->
      0 < __tick_adj_val (clock_drift_adj_iter TIMER_HZ TS_SCALE hw_ts st))
  /\ __tick_adj_ticks_rem (clock_drift_adj_iter TIMER_HZ TS_SCALE hw_ts st)
     = Z.abs drift * TIMER_HZ * 10.
Proof.
  intros Hdrift Hnz Hfit. unfold clock_drift_adj_iter.
  assert (Habs : Z.abs drift * 10 <= INT_MAX).
  { pose proof (Z.abs_nonneg drift). nia. }
  assert (Hd : - INT_MAX <= drift <= INT_MAX) by (unfold INT_MAX in *; lia).
  assert (Hm : measured_drift (get_timestamp TS_SCALE st) hw_ts = drift)
    by (rewrite Hdrift in Hd |- *; apply measured_drift_exact; exact Hd).
  rewrite Hm.
  destruct (Z.eqb_spec drift 0) as [? | _]; [contradiction |].
  cbn [__tick_adj_val __tick_adj_ticks_rem].
  pose proof tick_len_range as Hq. unfold BILLION in Hq.
  rewrite (s32_small (TS_SCALE ÷ TIMER_HZ)) by lia.
  assert (Hq10 : 1 <= (TS_SCALE ÷ TIMER_HZ) ÷ 10 <= BILLION).
  { rewrite (quot_div_pos _ 10) by lia. unfold BILLION. split.
    - apply Z.div_le_lower_bound; lia.
    - apply Z.div_le_upper_bound; lia. }
  unfold BILLION in Hq10. unfold INT_MAX in *.
  destruct (Z.ltb_spec 0 drift) as [Hpos | Hneg].
  - change (-10) with (Z.opp 10).
    rewrite Z.quot_opp_r by lia.
    rewrite s32_small by lia.
    rewrite Z.abs_eq in * by lia.
    rewrite (s32_small (drift * TIMER_HZ)) by nia.
    rewrite s32_small by nia. repeat split; lia.
  - rewrite (s32_small ((TS_SCALE ÷ TIMER_HZ) ÷ 10)) by lia.
    rewrite Z.abs_neq in * by lia.
    rewrite (s32_small (- drift)) by lia.
    rewrite (s32_small (- drift * TIMER_HZ)) by nia.
    rewrite s32_small by nia. repeat split; lia.
Qed.

End Knobs.

(** A drift of one second at 100 Hz (scenario "forced drift"): the pair
    installed is [(-1000000, 1000)]. *)
Lemma clock_drift_adj_installs_witness :
  __tick_adj_val
    (clock_drift_adj_iter 100 1000000000 0 (mk_time_state 0 10000000 0 0 1))
  = (1000000000 ÷ 100) ÷ (-10)
  /\ (0 < 1 ->
      __tick_adj_val
        (clock_drift_adj_iter 100 1000000000 0
           (mk_time_state 0 10000000 0 0 1)) < 0)
  /\ (1 < 0 ->
      0 < __tick_adj_val
            (clock_drift_adj_iter 100 1000000000 0
               (mk_time_state 0 10000000 0 0 1)))
  /\ __tick_adj_ticks_rem
       (clock_drift_adj_iter 100 1000000000 0 (mk_time_state 0 10000000 0 0 1))
     = Z.abs 1 * 100 * 10.
Proof.
  apply (clock_drift_adj_installs 100 1000000000 ltac:(lia) ltac:(lia)
           ltac:(unfold Clock.BILLION; lia) 0 1
           (mk_time_state 0 10000000 0 0 1));
    vm_compute; congruence.
Defined.

(** The literal reading fails when the product leaves the range of [int]:
    with [TIMER_HZ = 100] and a drift of 2147484 seconds the installed
    tick count is [-2147483296], not [2147484000]. *)
Lemma clock_drift_adj_overflow :
  ~ drift_adjustment_as_stated 100 1000000000 0
      (mk_time_state 0 10000000 0 0 2147484).
Proof.
  unfold drift_adjustment_as_stated. intros H.
  assert (Hnz : get_timestamp 1000000000 (mk_time_state 0 10000000 0 0 2147484) - 0 <> 0)
    by (vm_compute; congruence).
  destruct (H Hnz) as [_ Hticks]. vm_compute in Hticks. discriminate.
Qed.

Section Readers.

Variable TS_SCALE : Z.
Variable time_t_bits : Z.
Variable long_bits : Z.


End Readers.


End ClockSpec.

(** ** The [select] system call *)

Module SelectSpec.
Import Int IntFacts Select.

Lemma count_from_ext (p q : Z -> bool) (n : nat) :
  forall i,
    (forall j, i <= j < i + Z.of_nat n -> p j = q j) ->
    count_from p n i = count_from q n i.
Proof.
  induction n as [| n IH]; intros i H; [reflexivity |].
  cbn [count_from]. rewrite (H i) by lia.
  rewrite (IH (i + 1)); [reflexivity |].
  intros j Hj. apply H. lia.
Qed.

Lemma count_from_range (p : Z -> bool) (n : nat) :
  forall i, 0 <= count_from p n i <= Z.of_nat n.
Proof.
  induction n as [| n IH]; intros i; cbn [count_from]; [lia |].
  specialize (IH (i + 1)). destruct (p i); lia.
Qed.

Section Loops.

Variable tbl : handle_table.
Variable k : rwe.

(** After the loop of [select_set_ready], a bit in the range scanned is
    set when it was set before and the descriptor is ready; the other
    bits are as before. *)
Lemma set_ready_loop_bits (n : nat) :
  forall i set tot j,
    0 <= i ->
    Z.testbit (snd (set_ready_loop tbl k n i set tot)) j =
      Z.testbit set j
      && (if (i <=? j) && (j <? i + Z.of_nat n) then ready_at tbl k j
          else true).
Proof.
  induction n as [| n IH]; intros i set tot j Hi.
  - cbn [set_ready_loop snd].
    destruct (Z.leb_spec i j), (Z.ltb_spec j (i + Z.of_nat 0));
      cbn [andb]; try lia; now rewrite andb_true_r.
  - cbn [set_ready_loop]. unfold FD_ISSET, FD_CLR.
    assert (Hstep :
      forall b : bool,
        j <> i ->
        (if (i + 1 <=? j) && (j <? i + 1 + Z.of_nat n) then b else true) =
        (if (i <=? j) && (j <? i + Z.of_nat (S n)) then b else true)).
    { intros b Hne.
      destruct (Z.leb_spec (i + 1) j), (Z.ltb_spec j (i + 1 + Z.of_nat n)),
        (Z.leb_spec i j), (Z.ltb_spec j (i + Z.of_nat (S n)));
        cbn [andb]; try reflexivity; lia. }
    assert (Hin : (i <=? i) && (i <? i + Z.of_nat (S n)) = true).
    { destruct (Z.leb_spec i i), (Z.ltb_spec i (i + Z.of_nat (S n)));
        cbn [andb]; try reflexivity; lia. }
    assert (Hout : (i + 1 <=? i) && (i <? i + 1 + Z.of_nat n) = false).
    { destruct (Z.leb_spec (i + 1) i); cbn [andb]; [lia | reflexivity]. }
    destruct (Z.eq_dec j i) as [-> | Hne].
    + destruct (Z.testbit set i) eqn:Hbit; cbn [negb].
      * unfold ready_at. destruct (tbl i) as [h |] eqn:Hh.
        -- destruct (h_ready h k) eqn:Hr; rewrite IH by lia;
             rewrite ?Z.clearbit_eqb, ?Z.eqb_refl, ?Hbit, ?Hin, ?Hout;
             reflexivity.
        -- rewrite IH by lia.
           rewrite ?Z.clearbit_eqb, ?Z.eqb_refl, ?Hbit, ?Hin, ?Hout.
           reflexivity.
      * rewrite IH by lia. rewrite Hbit. reflexivity.
    + assert (Hclr : Z.testbit (Z.clearbit set i) j = Z.testbit set j).
      { rewrite Z.clearbit_eqb.
        destruct (Z.eqb_spec i j); [congruence |]. apply andb_true_r. }
      destruct (Z.testbit set i) eqn:Hbit; cbn [negb].
      * destruct (tbl i) as [h |] eqn:Hh.
        -- destruct (h_ready h k) eqn:Hr; rewrite IH by lia;
             rewrite ?Hclr, (Hstep _ Hne); reflexivity.
        -- rewrite IH by lia. rewrite Hclr, (Hstep _ Hne). reflexivity.
      * rewrite IH by lia. rewrite (Hstep _ Hne). reflexivity.
Qed.

(** The count of the loop of [select_set_ready]: the descriptors in the
    range scanned whose bit is set and that are ready. *)
Lemma set_ready_loop_tot (n : nat) :
  forall i set tot,
    0 <= i -> 0 <= tot -> tot + Z.of_nat n <= INT_MAX ->
    fst (set_ready_loop tbl k n i set tot) =
      tot + count_from (fun j => FD_ISSET j set && ready_at tbl k j) n i.
Proof.
  unfold INT_MAX.
  induction n as [| n IH]; intros i set tot Hi Htot Hmax.
  - cbn [set_ready_loop fst count_from]. lia.
  - cbn [set_ready_loop count_from]. unfold ready_at at 1.
    destruct (FD_ISSET i set) eqn:Hbit; cbn [negb andb].
    + destruct (tbl i) as [h |] eqn:Hh.
      * destruct (h_ready h k) eqn:Hr.
        -- rewrite IH by (rewrite ?s32_small; lia).
           rewrite s32_small by lia. lia.
        -- rewrite IH by lia.
           rewrite (count_from_ext _ (fun j => FD_ISSET j set && ready_at tbl k j));
             [lia |].
           intros j Hj. unfold FD_ISSET, FD_CLR. rewrite Z.clearbit_eqb.
           destruct (Z.eqb_spec i j); [lia |]. now rewrite andb_true_r.
      * rewrite IH by lia.
        rewrite (count_from_ext _ (fun j => FD_ISSET j set && ready_at tbl k j));
          [lia |].
        intros j Hj. unfold FD_ISSET, FD_CLR. rewrite Z.clearbit_eqb.
        destruct (Z.eqb_spec i j); [lia |]. now rewrite andb_true_r.
    + rewrite IH by lia. lia.
Qed.

(** The loop of [select_count_cond_per_set] answers 0 or [-EBADF]. *)
Lemma count_cond_loop_status (set : fd_set) (n : nat) :
  forall i cnt,
    fst (count_cond_loop tbl k set n i cnt) = 0
    \/ fst (count_cond_loop tbl k set n i cnt) = - EBADF.
Proof.
  induction n as [| n IH]; intros i cnt; cbn [count_cond_loop].
  - left. reflexivity.
  - destruct (negb (FD_ISSET i set)); [apply IH |].
    destruct (tbl i) as [h |]; [apply IH | right; reflexivity].
Qed.


End Loops.

Lemma select_set_ready_eq tbl n set k :
  select_set_ready tbl n set k =
    (match set with
     | None => 0
     | Some s => fst (set_ready_loop tbl k (Z.to_nat n) 0 s 0)
     end,
     match set with
     | None => None
     | Some s => Some (snd (set_ready_loop tbl k (Z.to_nat n) 0 s 0))
     end).
Proof.
  destruct set as [s |]; cbn [select_set_ready]; [| reflexivity].
  destruct (set_ready_loop tbl k (Z.to_nat n) 0 s 0). reflexivity.
Qed.

Lemma ready_count_eq tbl n k u :
  0 <= n <= INT_MAX ->
  ready_count tbl n k u =
    count_from (fun j => FD_ISSET j (set_of u) && ready_at tbl k j)
      (Z.to_nat n) 0.
Proof.
  intros Hn. destruct u as [| r w v]; cbn [ready_count set_of].
  - rewrite (count_from_ext _ (fun _ => false)).
    + generalize 0 at 2. induction (Z.to_nat n) as [| m IH]; intros i;
        cbn [count_from]; [reflexivity | rewrite <- IH; reflexivity].
    + intros j _. unfold FD_ISSET. rewrite Z.testbit_0_l. reflexivity.
  - rewrite set_ready_loop_tot by lia. lia.
Qed.

Lemma ready_count_range tbl n k u :
  0 <= n <= INT_MAX -> 0 <= ready_count tbl n k u <= n.
Proof.
  intros Hn. rewrite ready_count_eq by exact Hn.
  pose proof (count_from_range
    (fun j => FD_ISSET j (set_of u) && ready_at tbl k j) (Z.to_nat n) 0). lia.
Qed.



Lemma get3_set3_eq {A : Type} (k : rwe) (v : A) (a : arr3 A) :
  get3 k (set3 k v a) = v.
Proof. destruct k; reflexivity. Qed.

Lemma get3_set3_ne {A : Type} (k k' : rwe) (v : A) (a : arr3 A) :
  k <> k' -> get3 k' (set3 k v a) = get3 k' a.
Proof. destruct k, k'; intros H; try reflexivity; contradiction. Qed.

Lemma sum_counts_ext tbl n u u' (ks : list rwe) :
  forall tot,
    (forall k, In k ks -> get3 k u = get3 k u') ->
    sum_counts tbl n u ks tot = sum_counts tbl n u' ks tot.
Proof.
  unfold sum_counts.
  induction ks as [| k rest IH]; intros tot H; [reflexivity |].
  cbn [fold_left]. rewrite (H k) by (left; reflexivity).
  apply IH. intros k' Hin. apply H. right. exact Hin.
Qed.

(** The loop of [select_write_user_sets] over the kinds [ks], on a context
    whose kernel sets are the copies of the user sets. *)
Lemma write_user_sets_loop_ok tbl (ks : list rwe) :
  forall c tot rc tot' c',
    List.NoDup ks ->
    (forall k, In k ks -> copied (get3 k (u_sets c)) (get3 k (sets c))) ->
    write_user_sets_loop tbl ks c tot = (rc, tot', c') ->
    (rc = - EFAULT
     /\ exists k, In k ks /\ ~ writable (get3 k (u_sets c)))
    \/ (rc = 0
        /\ nfds c' = nfds c /\ tv c' = tv c /\ user_tv c' = user_tv c
        /\ tot' = sum_counts tbl (nfds c) (u_sets c) ks tot
        /\ (forall k, In k ks ->
              get3 k (u_sets c') =
                ready_set tbl (nfds c) k (get3 k (u_sets c)))
        /\ (forall k, ~ In k ks ->
              get3 k (u_sets c') = get3 k (u_sets c))).
Proof.
  induction ks as [| k rest IH]; intros c tot rc tot' c' Hnd Hcop Hw.
  - cbn [write_user_sets_loop] in Hw. injection Hw as <- <- <-.
    right. repeat split; try reflexivity. intros k [].
  - apply NoDup_cons_iff in Hnd as [Hk Hnd].
    pose proof (Hcop k (or_introl eq_refl)) as Hck.
    cbn [write_user_sets_loop] in Hw.
    rewrite select_set_ready_eq in Hw.
    assert (Hne : forall k', In k' rest -> k <> k')
      by (intros k' Hin ->; contradiction).
    destruct (get3 k (u_sets c)) as [| r w v] eqn:Hu;
      destruct (get3 k (sets c)) as [v' |] eqn:Hs;
      cbn [copied] in Hck; try contradiction.
    + (* a NULL set *)
      cbn [with_sets u_sets get3] in Hw. rewrite Hu in Hw.
      cbn [is_null] in Hw.
      apply IH in Hw; [| exact Hnd |].
      * destruct Hw as [(Hw & k' & Hk' & Hnw)
                       | (Hrc & Hn & Ht & Hut & Htot & Hin & Hout)];
          [left; split; [exact Hw |]; exists k';
           split; [right; exact Hk' | exact Hnw]
          | right].
        cbn [with_u_sets with_sets nfds tv user_tv u_sets] in *.
        repeat split; try assumption.
        -- rewrite Htot. unfold sum_counts at 2. cbn [fold_left].
           rewrite Hu. cbn [ready_count]. reflexivity.
        -- intros k' [<- | Hk'].
           ++ rewrite Hout by exact Hk. rewrite Hu. reflexivity.
           ++ apply Hin. exact Hk'.
        -- intros k' Hk'. apply Hout. intros ?; apply Hk'; now right.
      * intros k' Hk'. cbn [with_sets u_sets sets].
        rewrite get3_set3_ne by (apply Hne; exact Hk').
        apply Hcop. right. exact Hk'.
    + (* a set that is present *)
      destruct r; [| contradiction]. subst v'.
      cbn [with_sets u_sets get3] in Hw. rewrite Hu in Hw.
      cbn [is_null copy_to_user] in Hw.
      destruct w;
        [| injection Hw as <- <- <-; left; split; [reflexivity |];
           exists k; split; [left; reflexivity |];
           rewrite Hu; cbn [writable]; discriminate].
      apply IH in Hw; [| exact Hnd |].
      * destruct Hw as [(Hw & k' & Hk' & Hnw)
                       | (Hrc & Hn & Ht & Hut & Htot & Hin & Hout)];
          [left; split; [exact Hw |]; exists k';
           split; [right; exact Hk' |];
           cbn [with_u_sets with_sets u_sets] in Hnw;
           rewrite get3_set3_ne in Hnw by (apply Hne; exact Hk');
           exact Hnw
          | right].
        cbn [with_u_sets with_sets nfds tv user_tv u_sets] in *.
        repeat split; try assumption.
        -- rewrite Htot. unfold sum_counts at 2. cbn [fold_left].
           rewrite Hu. cbn [ready_count].
           apply sum_counts_ext. intros k' Hk'.
           apply get3_set3_ne. apply Hne. exact Hk'.
        -- intros k' [<- | Hk'].
           ++ rewrite Hout by exact Hk. rewrite get3_set3_eq, Hu.
              reflexivity.
           ++ rewrite Hin by exact Hk'.
              rewrite get3_set3_ne by (apply Hne; exact Hk'). reflexivity.
        -- intros k' Hk'. rewrite Hout by (intros ?; apply Hk'; now right).
           apply get3_set3_ne. intros ->. apply Hk'. now left.
      * intros k' Hk'. cbn [with_u_sets with_sets u_sets sets].
        rewrite !get3_set3_ne by (apply Hne; exact Hk').
        apply Hcop. right. exact Hk'.
    + destruct r; contradiction.
Qed.

Lemma NoDup_kinds : List.NoDup kinds.
Proof.
  unfold kinds. repeat constructor; cbn; intuition discriminate.
Qed.

Lemma In_kinds (k : rwe) : In k kinds.
Proof. destruct k; cbn; auto. Qed.


(** [select_read_user_sets] fails with [-EFAULT] or leaves in [sets] the
    copies of the user sets. *)
Lemma read_user_sets_loop_ok u (ks : list rwe) :
  forall sets rc s,
    List.NoDup ks ->
    read_user_sets_loop ks sets u = (rc, s) ->
    rc = - EFAULT
    \/ (rc = 0
        /\ (forall k, In k ks ->
              match get3 k u with
              | UNull => get3 k s = get3 k sets
              | UPtr r _ v => r = true /\ get3 k s = Some v
              end)
        /\ (forall k, ~ In k ks -> get3 k s = get3 k sets)).
Proof.
  induction ks as [| k rest IH]; intros sets rc s Hnd Hr.
  - cbn in Hr. injection Hr as <- <-. right.
    split; [reflexivity |]. split; [intros k [] | reflexivity].
  - apply NoDup_cons_iff in Hnd as [Hk Hnd].
    cbn [read_user_sets_loop] in Hr.
    assert (Hne : forall k', In k' rest -> k <> k')
      by (intros k' Hin ->; contradiction).
    destruct (get3 k u) as [| r w v] eqn:Hu; cbn [is_null copy_from_user] in Hr.
    + apply IH in Hr; [| exact Hnd].
      destruct Hr as [Hr | (Hrc & Hin & Hout)]; [left; exact Hr | right].
      split; [exact Hrc |]. split.
      * intros k' [<- | Hk'].
        -- rewrite Hu. apply Hout. exact Hk.
        -- apply Hin. exact Hk'.
      * intros k' Hk'. apply Hout. intros ?. apply Hk'. now right.
    + destruct r; [| injection Hr as <- <-; left; reflexivity].
      apply IH in Hr; [| exact Hnd].
      destruct Hr as [Hr | (Hrc & Hin & Hout)]; [left; exact Hr | right].
      split; [exact Hrc |]. split.
      * intros k' [<- | Hk'].
        -- rewrite Hu. split; [reflexivity |].
           rewrite Hout by exact Hk. apply get3_set3_eq.
        -- specialize (Hin k' Hk').
           destruct (get3 k' u); [| exact Hin].
           rewrite Hin. apply get3_set3_ne. apply Hne. exact Hk'.
      * intros k' Hk'. rewrite Hout by (intros ?; apply Hk'; now right).
        apply get3_set3_ne. intros ->. apply Hk'. now left.
Qed.

Lemma read_user_sets_ok u rc s :
  select_read_user_sets (mk_arr3 None None None) u = (rc, s) ->
  rc = - EFAULT \/ (rc = 0 /\ forall k, copied (get3 k u) (get3 k s)).
Proof.
  intros Hr. apply read_user_sets_loop_ok in Hr; [| apply NoDup_kinds].
  destruct Hr as [Hr | (Hrc & Hin & _)]; [left; exact Hr | right].
  split; [exact Hrc |]. intros k. specialize (Hin k (In_kinds k)).
  unfold copied. destruct (get3 k u) as [| r w v].
  - rewrite Hin. destruct k; exact I.
  - destruct Hin as [-> ->]. reflexivity.
Qed.

Lemma same_request_refl c : same_request c c.
Proof. repeat split. Qed.

Lemma same_request_trans c1 c2 c3 :
  same_request c1 c2 -> same_request c2 c3 -> same_request c1 c3.
Proof.
  intros (A1 & A2 & A3 & A4) (B1 & B2 & B3 & B4).
  repeat split; congruence.
Qed.

Lemma compute_cond_cnt_loop_ok tbl (ks : list rwe) :
  forall c rc c',
    compute_cond_cnt_loop tbl ks c = (rc, c') ->
    (rc = 0 \/ rc = - EBADF)
    /\ same_request c c' /\ tv c' = tv c
    /\ timeout_ticks c' = timeout_ticks c.
Proof.
  induction ks as [| k rest IH]; intros c rc c' H.
  - cbn in H. injection H as <- <-. split; [now left |].
    split; [apply same_request_refl | split; reflexivity].
  - cbn [compute_cond_cnt_loop] in H.
    unfold select_count_cond_per_set in H.
    destruct (get3 k (sets c)) as [s |] eqn:Hs.
    + pose proof (count_cond_loop_status tbl k s (Z.to_nat (nfds c)) 0
                    (cond_cnt c)) as Hst.
      destruct (count_cond_loop tbl k s (Z.to_nat (nfds c)) 0 (cond_cnt c))
        as [rc0 cnt]. cbn [fst] in Hst.
      destruct Hst as [-> | ->].
      * cbn [Z.eqb negb] in H. apply IH in H.
        destruct H as (Hrc & Hsame & Htv & Htt). split; [exact Hrc |].
        split; [| split; [exact Htv | exact Htt]].
        eapply same_request_trans; [| exact Hsame]. repeat split.
      * cbn in H. injection H as <- <-. split; [now right |].
        split; [repeat split | split; reflexivity].
    + cbn [Z.eqb negb] in H. apply IH in H. exact H.
Qed.

Lemma compute_cond_cnt_ok tbl c rc c' :
  select_compute_cond_cnt tbl c = (rc, c') ->
  (rc = 0 \/ rc = - EBADF)
  /\ same_request c c' /\ tv c' = tv c
  /\ timeout_ticks c' = timeout_ticks c.
Proof.
  unfold select_compute_cond_cnt. intros H.
  assert (Hid : (rc, c') = (0, c) ->
            (rc = 0 \/ rc = - EBADF)
            /\ same_request c c' /\ tv c' = tv c
            /\ timeout_ticks c' = timeout_ticks c).
  { intros E. injection E as -> ->. split; [now left |].
    split; [apply same_request_refl | split; reflexivity]. }
  destruct (tv c) as [t |] eqn:Ht.
  - destruct (0 <? timeout_ticks c).
    + apply compute_cond_cnt_loop_ok in H. rewrite Ht in H. exact H.
    + apply Hid. symmetry. exact H.
  - apply compute_cond_cnt_loop_ok in H. rewrite Ht in H. exact H.
Qed.

Section Kernel.

Variable TIMER_HZ : Z.
Variable MAX_HANDLES : Z.


Lemma set_kcond_loop_status tbl k set count (n : nat) :
  forall i w rc w',
    set_kcond_loop tbl k set count n i w = Some (rc, w') ->
    rc = 0 \/ rc = - EBADF.
Proof.
  induction n as [| n IH]; intros i w rc w' H; cbn [set_kcond_loop] in H.
  - injection H as <- <-. now left.
  - destruct (negb (FD_ISSET i set)); [eapply IH; exact H |].
    destruct (tbl i) as [h |]; [| injection H as <- <-; now right].
    destruct (negb (Z.of_nat (length w) <? count)); [discriminate |].
    eapply IH. exact H.
Qed.

Lemma set_kconds_status tbl c (ks : list rwe) :
  forall w rc w',
    set_kconds tbl c ks w = Some (rc, w') -> rc = 0 \/ rc = - EBADF.
Proof.
  induction ks as [| k rest IH]; intros w rc w' H; cbn [set_kconds] in H.
  - injection H as <- <-. now left.
  - unfold select_set_kcond in H.
    destruct (get3 k (sets c)) as [s |].
    + destruct (set_kcond_loop tbl k s (cond_cnt c) (Z.to_nat (nfds c)) 0 w)
        as [[rc0 w0] |] eqn:Hl; [| discriminate].
      apply set_kcond_loop_status in Hl. destruct Hl as [-> | ->].
      * cbn [Z.eqb negb] in H. eapply IH. exact H.
      * cbn in H. injection H as <- <-. now right.
    + cbn [Z.eqb negb] in H. eapply IH. exact H.
Qed.


Lemma returns_outcome rc c ev :
  returns rc c ev = mk_run (Returned rc (u_sets c) (user_tv c)) ev None.
Proof. reflexivity. Qed.

Lemma report_eq tbl c ev :
  report tbl c ev =
    mk_run (Returned (fst (select_write_user_sets tbl c))
              (u_sets (snd (select_write_user_sets tbl c)))
              (user_tv (snd (select_write_user_sets tbl c))))
           ev (Some (tbl, c)).
Proof.
  unfold report. destruct (select_write_user_sets tbl c). reflexivity.
Qed.





(** C6 (as amended).  For a [timeval] whose two fields are not negative,
    the timeout in ticks is
    [min (tv_sec * TIMER_HZ + tv_usec / (1000000 / TIMER_HZ)) UINT32_MAX],
    the sum being the exact one as long as it is below [2 ^ 64]. *)
Theorem timeout_ticks_exact (t : timeval) :
  0 < TIMER_HZ <= 1000000 ->
  0 <= tv_sec t < 2 ^ 63 ->
  0 <= tv_usec t < 2 ^ 63 ->
  tv_sec t * TIMER_HZ + tv_usec t / (1000000 / TIMER_HZ) < 2 ^ 64 ->
  let ticks :=
    Z.min (tv_sec t * TIMER_HZ + tv_usec t / (1000000 / TIMER_HZ))
          UINT32_MAX in
  timeval_to_ticks TIMER_HZ t = ticks
  /\ forall w old,
       select_read_user_tv TIMER_HZ (UPtr true w t) old = (0, Some t, ticks).
Proof.
  intros HHZ Hsec Husec Hsum ticks. subst ticks.
  assert (Hticks :
    timeval_to_ticks TIMER_HZ t =
      Z.min (tv_sec t * TIMER_HZ + tv_usec t / (1000000 / TIMER_HZ))
            UINT32_MAX).
  { unfold timeval_to_ticks, UINT32_MAX.
    assert (H63 : 2 ^ 63 = 9223372036854775808) by reflexivity.
    assert (H64 : 2 ^ 64 = 18446744073709551616) by reflexivity.
    assert (Hd : 1 <= 1000000 / TIMER_HZ)
      by (apply Z.div_le_lower_bound; lia).
    assert (Hq : 0 <= tv_usec t / (1000000 / TIMER_HZ))
      by (apply Z.div_pos; lia).
    assert (Hm : 0 <= tv_sec t * TIMER_HZ) by nia.
    rewrite (u64_small TIMER_HZ) by lia.
    rewrite (u64_small (tv_sec t)) by lia.
    rewrite (u64_small (tv_usec t)) by lia.
    rewrite (u64_small (tv_sec t * TIMER_HZ)) by lia.
    rewrite Z.add_0_l.
    rewrite (u64_small (tv_sec t * TIMER_HZ)) by lia.
    rewrite u64_small by lia.
    apply u32_small. lia. }
  split; [exact Hticks |].
  intros w old. cbn [select_read_user_tv is_null copy_from_user].
  rewrite Hticks. reflexivity.
Qed.

Lemma read_user_sets_loop_readable u (ks : list rwe) :
  forall sets,
    (forall k, In k ks -> readable (get3 k u)) ->
    fst (read_user_sets_loop ks sets u) = 0.
Proof.
  induction ks as [| k rest IH]; intros sets H; [reflexivity |].
  cbn [read_user_sets_loop].
  pose proof (H k (or_introl eq_refl)) as Hk. unfold readable in Hk.
  destruct (get3 k u) as [| r w v]; cbn [is_null copy_from_user].
  - apply IH. intros k' Hk'. apply H. right. exact Hk'.
  - subst r. apply IH. intros k' Hk'. apply H. right. exact Hk'.
Qed.




End Kernel.

(** *** Concrete calls *)




(** A poll: [select(4, {3}, NULL, NULL, {0, 0})] where descriptor 3 has no
    data returns 0 with bit 3 cleared, and calls nothing that could block. *)
Example select_poll_no_data :
  let r := sys_select 100 16 two_handles (quiet two_handles) 4
             (UPtr true true 8) UNull UNull
             (UPtr true true (mk_timeval 0 0)) in
  r_outcome r = Returned 0 (mk_arr3 (UPtr true true 0) UNull UNull)
                  (UPtr true true (mk_timeval 0 0))
  /\ r_events r = [].
Proof. split; reflexivity. Qed.

(** A sleep: [select(0, NULL, NULL, NULL, {1, 500000})] at 100 Hz sleeps
    150 ticks through [kernel_sleep] and returns 0; the timeval is written
    back as it was read. *)
Example select_sleep_only :
  let r := sys_select 100 16 no_handles (quiet no_handles) 0
             UNull UNull UNull (UPtr true true (mk_timeval 1 500000)) in
  r_outcome r = Returned 0 (mk_arr3 UNull UNull UNull)
                  (UPtr true true (mk_timeval 1 500000))
  /\ r_events r = [EvKernelSleep 150].
Proof. split; reflexivity. Qed.

(** A wakeup: [select(5, {4}, NULL, NULL, {10, 0})] at 100 Hz, data
    arriving on descriptor 4 with 800 ticks left: 1 is returned, bit 4 is
    set and the timeval reports 8 s. *)
Example select_wakeup_on_data :
  let r := sys_select 100 16 idle_4 (woken_by_4 800) 5
             (UPtr true true 16) UNull UNull
             (UPtr true true (mk_timeval 10 0)) in
  r_outcome r = Returned 1 (mk_arr3 (UPtr true true 16) UNull UNull)
                  (UPtr true true (mk_timeval 8 0))
  /\ r_events r = [EvAllocWaiter 1; EvSetWakeupTimer 1000; EvSleepOnWaiter;
                   EvCancelWakeupTimer; EvFreeWaiter].
Proof. split; reflexivity. Qed.



(** A timeout of 1.5 seconds at 100 Hz is 150 ticks. *)
Lemma timeout_ticks_exact_witness :
  timeval_to_ticks 100 (mk_timeval 1 500000) = 150
  /\ forall w old,
       select_read_user_tv 100 (UPtr true w (mk_timeval 1 500000)) old
       = (0, Some (mk_timeval 1 500000), 150).
Proof.
  apply (timeout_ticks_exact 100 (mk_timeval 1 500000));
    vm_compute; intuition congruence.
Defined.

(** The literal reading fails for a negative field: at 100 Hz the
    [timeval] (-1, 0) gives [UINT32_MAX] ticks, not
    [min (-100) UINT32_MAX]. *)
Lemma timeout_ticks_negative :
  ~ timeout_as_stated 100 (mk_timeval (-1) 0).
Proof. unfold timeout_as_stated. vm_compute. discriminate. Qed.

End SelectSpec.

(** ** PCI *)

Module PciSpec.
Import Int IntFacts Pci.

Lemma bus_state_eqb_eq (a b : bus_state) : bus_state_eqb a b = true <-> a = b.
Proof. destruct a, b; cbn; split; intros H; try reflexivity; discriminate. Qed.

Lemma scanned_app (l1 l2 : list pci_event) :
  scanned (l1 ++ l2) = scanned l1 ++ scanned l2.
Proof. unfold scanned. apply flat_map_app. Qed.

Lemma marked_app (l1 l2 : list pci_event) :
  marked (l1 ++ l2) = marked l1 ++ marked l2.
Proof. unfold marked. apply flat_map_app. Qed.

Lemma replay_app (n2 n1 : list pci_event) (l : list bus_state) :
  replay (n2 ++ n1) l = replay n2 (replay n1 l).
Proof.
  induction n2 as [| e n2 IH]; [reflexivity |].
  cbn [app replay]. rewrite IH. reflexivity.
Qed.

Lemma apply_event_length (e : pci_event) (l : list bus_state) :
  length (apply_event e l) = length l.
Proof.
  destruct e as [b | b | loc | loc nfo]; cbn [apply_event];
    try reflexivity; [apply length_insert |].
  destruct (l !! Z.to_nat b) as [[] |]; try reflexivity.
  apply length_insert.
Qed.

Lemma replay_length (log : list pci_event) (l : list bus_state) :
  length (replay log l) = length l.
Proof.
  induction log as [| e log IH]; [reflexivity |].
  cbn [replay]. rewrite apply_event_length. exact IH.
Qed.

(** An event never moves an entry backwards. *)
Lemma apply_event_advances (e : pci_event) (l : list bus_state) (i : nat)
    (s : bus_state) :
  l !! i = Some s ->
  exists s', apply_event e l !! i = Some s'
             /\ bus_state_value s <= bus_state_value s'.
Proof.
  intros Hs.
  assert (Hi : (i < length l)%nat) by (eapply lookup_lt_Some; exact Hs).
  assert (Hsame : exists s', l !! i = Some s'
                             /\ bus_state_value s <= bus_state_value s')
    by (exists s; split; [exact Hs | lia]).
  destruct e as [b | b | loc | loc nfo]; cbn [apply_event]; try exact Hsame.
  - destruct (Nat.eq_dec (Z.to_nat b) i) as [<- | Hne].
    + rewrite list_lookup_insert_eq by exact Hi.
      exists BUS_VISITED. split; [reflexivity |]. destruct s; cbn; lia.
    + rewrite list_lookup_insert_ne by exact Hne. exact Hsame.
  - destruct (l !! Z.to_nat b) as [[] |] eqn:Hb; try exact Hsame.
    destruct (Nat.eq_dec (Z.to_nat b) i) as [<- | Hne].
    + rewrite list_lookup_insert_eq by exact Hi.
      exists BUS_TO_VISIT. split; [reflexivity |].
      rewrite Hb in Hs. injection Hs as <-. cbn. lia.
    + rewrite list_lookup_insert_ne by exact Hne. exact Hsame.
Qed.

Lemma replay_advances (log : list pci_event) (l : list bus_state) (i : nat)
    (s : bus_state) :
  l !! i = Some s ->
  exists s', replay log l !! i = Some s'
             /\ bus_state_value s <= bus_state_value s'.
Proof.
  intros Hs. induction log as [| e log IH].
  - exists s. split; [exact Hs | lia].
  - destruct IH as (s1 & H1 & Hle). cbn [replay].
    destruct (apply_event_advances e _ _ _ H1) as (s2 & H2 & Hle2).
    exists s2. split; [exact H2 | lia].
Qed.

Lemma replay_keeps_visited (log : list pci_event) (l : list bus_state)
    (i : nat) :
  l !! i = Some BUS_VISITED -> replay log l !! i = Some BUS_VISITED.
Proof.
  intros H. destruct (replay_advances log _ _ _ H) as (s' & Hs' & Hle).
  rewrite Hs'. destruct s'; cbn in Hle; try lia. reflexivity.
Qed.

(** A bus whose scan is in the log is [BUS_VISITED] after the log. *)
Lemma replay_scanned (log : list pci_event) (l : list bus_state) (b : Z) :
  In b (scanned log) ->
  (Z.to_nat b < length l)%nat ->
  replay log l !! Z.to_nat b = Some BUS_VISITED.
Proof.
  intros Hin Hb. induction log as [| e log IH]; [destruct Hin |].
  cbn [replay].
  assert (Hkeep : replay log l !! Z.to_nat b = Some BUS_VISITED ->
                  apply_event e (replay log l) !! Z.to_nat b
                  = Some BUS_VISITED).
  { intros H. destruct (apply_event_advances e _ _ _ H) as (s' & Hs' & Hle).
    rewrite Hs'. destruct s'; cbn in Hle; try lia. reflexivity. }
  destruct e as [b' | b' | loc | loc nfo]; cbn [scanned flat_map app] in Hin;
    try (apply Hkeep, IH, Hin).
  destruct Hin as [<- | Hin]; [| apply Hkeep, IH, Hin].
  cbn [apply_event]. apply list_lookup_insert_eq.
  rewrite replay_length. exact Hb.
Qed.



Lemma traced_refl (st : pci_state) : traced st st [].
Proof. split; reflexivity. Qed.

Lemma traced_trans (st st1 st2 : pci_state) (n1 n2 : list pci_event) :
  traced st st1 n1 -> traced st1 st2 n2 -> traced st st2 (n2 ++ n1).
Proof.
  intros [L1 B1] [L2 B2]. split.
  - rewrite L2, L1. apply app_assoc.
  - rewrite B2, B1. symmetry. apply replay_app.
Qed.

Lemma traced_probe (loc : pci_device_loc) (st : pci_state) :
  traced st (log_event (EvProbe loc) st) [EvProbe loc].
Proof. split; reflexivity. Qed.

Lemma traced_dump (loc : pci_device_loc) (nfo : pci_device_basic_info)
    (st : pci_state) :
  traced st (log_event (EvDump loc nfo) st) [EvDump loc nfo].
Proof. split; reflexivity. Qed.

Lemma traced_mark (b : Z) (st : pci_state) :
  traced st (pci_mark_bus_to_visit b st) [EvMarked b].
Proof.
  unfold pci_mark_bus_to_visit, bus_is, get_bus.
  cbn [log_event pci_buses].
  destruct (pci_buses st !! Z.to_nat b) as [[] |] eqn:Hb;
    cbn [bus_state_eqb]; split; cbn [set_bus log_event pci_log pci_buses
      replay apply_event app]; rewrite ?Hb; reflexivity.
Qed.

Lemma traced_visit (b : Z) (st : pci_state) :
  traced st (pci_mark_bus_as_visited b st) [EvVisited b].
Proof. split; reflexivity. Qed.

(** [pci_mark_bus_to_visit] changes [pci_buses] only at an entry that is
    [BUS_NOT_VISITED], which becomes [BUS_TO_VISIT]. *)
Lemma mark_bus_to_visit_buses (b : Z) (st : pci_state) :
  pci_buses (pci_mark_bus_to_visit b st) =
    match get_bus b st with
    | Some BUS_NOT_VISITED => <[Z.to_nat b := BUS_TO_VISIT]> (pci_buses st)
    | _ => pci_buses st
    end.
Proof.
  destruct (traced_mark b st) as [_ ->]. reflexivity.
Qed.

Lemma u8_bus_number (x : Z) : bus_number (u8 x).
Proof.
  unfold bus_number, u8. pose proof (wrap_u_range 8 x ltac:(lia)) as H.
  change (2 ^ 8) with 256 in H. exact H.
Qed.

Lemma mark_loop_traced (b : Z) (n : nat) :
  forall i st,
    exists new,
      traced st (mark_loop n i st) new /\ Forall (body_event b) new.
Proof.
  induction n as [| n IH]; intros i st; cbn [mark_loop].
  - exists []. split; [apply traced_refl | constructor].
  - destruct (IH (i + 1) (pci_mark_bus_to_visit (u8 i) st)) as (new & Ht & Hf).
    exists (new ++ [EvMarked (u8 i)]). split.
    + eapply traced_trans; [apply traced_mark | exact Ht].
    + apply Forall_app. split; [exact Hf |].
      constructor; [apply u8_bus_number | constructor].
Qed.

(** A loop whose body always ends and only adds events that satisfy [P]
    always ends and only adds such events. *)
Lemma for_each_traced {A : Type} (P : pci_event -> Prop)
    (body : A -> pci_state -> res pci_state) (l : list A) :
  (forall a st,
     In a l ->
     exists st' new, body a st = Ok st' /\ traced st st' new /\ Forall P new) ->
  forall st,
    exists st' new,
      for_each body l st = Ok st' /\ traced st st' new /\ Forall P new.
Proof.
  induction l as [| a l IH]; intros Hbody st; cbn [for_each].
  - exists st, []. split; [reflexivity |].
    split; [apply traced_refl | constructor].
  - destruct (Hbody a st (or_introl eq_refl)) as (st1 & n1 & E1 & T1 & F1).
    rewrite E1. cbn [bind].
    destruct (IH (fun a' st' Hin => Hbody a' st' (or_intror Hin)) st1)
      as (st2 & n2 & E2 & T2 & F2).
    exists st2, (n2 ++ n1). split; [exact E2 |].
    split; [eapply traced_trans; eassumption |].
    apply Forall_app. split; assumption.
Qed.

Lemma visited_count_le_length (l : list bus_state) :
  (visited_count l <= length l)%nat.
Proof.
  induction l as [| s l IH]; cbn [visited_count length]; [lia |].
  destruct (bus_state_eqb s BUS_VISITED); lia.
Qed.

Lemma visited_count_mono (l : list bus_state) :
  forall l',
    length l = length l' ->
    (forall i, l !! i = Some BUS_VISITED -> l' !! i = Some BUS_VISITED) ->
    (visited_count l <= visited_count l')%nat.
Proof.
  induction l as [| s l IH]; intros [| s' l'] Hlen Hkeep;
    cbn [visited_count length] in *; try lia.
  assert (IH' : (visited_count l <= visited_count l')%nat).
  { apply IH; [lia |]. intros i Hi. apply (Hkeep (S i)). exact Hi. }
  destruct s.
  - destruct s'; cbn [bus_state_eqb]; lia.
  - destruct s'; cbn [bus_state_eqb]; lia.
  - specialize (Hkeep O eq_refl). cbn in Hkeep. injection Hkeep as ->.
    cbn [bus_state_eqb]. lia.
Qed.

Lemma visited_count_strict (l : list bus_state) :
  forall l' j,
    length l = length l' ->
    (forall i, l !! i = Some BUS_VISITED -> l' !! i = Some BUS_VISITED) ->
    l !! j <> Some BUS_VISITED ->
    l' !! j = Some BUS_VISITED ->
    (visited_count l < visited_count l')%nat.
Proof.
  induction l as [| s l IH]; intros [| s' l'] j Hlen Hkeep Hj Hj';
    cbn [length] in Hlen; try lia; [destruct j; discriminate |].
  assert (Htail : forall i, l !! i = Some BUS_VISITED ->
                            l' !! i = Some BUS_VISITED).
  { intros i Hi. apply (Hkeep (S i)). exact Hi. }
  cbn [visited_count].
  destruct j as [| j].
  - cbn in Hj, Hj'. injection Hj' as ->. cbn [bus_state_eqb].
    pose proof (visited_count_mono l l' ltac:(lia) Htail).
    destruct s; cbn [bus_state_eqb]; try lia. exfalso. apply Hj. reflexivity.
  - pose proof (IH l' j ltac:(lia) Htail Hj Hj') as Hlt.
    destruct s; try (destruct s'; cbn [bus_state_eqb]; lia).
    specialize (Hkeep O eq_refl). cbn in Hkeep. injection Hkeep as ->.
    cbn [bus_state_eqb]. lia.
Qed.

Lemma visited_count_pos (l : list bus_state) (j : nat) :
  l !! j = Some BUS_VISITED -> (1 <= visited_count l)%nat.
Proof.
  revert j. induction l as [| s l IH]; intros [| j] H; try discriminate.
  - cbn in H. injection H as ->. cbn. lia.
  - cbn [visited_count]. specialize (IH j H). lia.
Qed.

Lemma scanned_body (b : Z) (body : list pci_event) :
  Forall (body_event b) body -> scanned body = [].
Proof.
  induction 1 as [| e body He _ IH]; [reflexivity |].
  destruct e; cbn [scanned flat_map body_event] in *;
    try contradiction; exact IH.
Qed.

Lemma marked_body (b : Z) (body : list pci_event) :
  Forall (body_event b) body -> Forall bus_number (marked body).
Proof.
  induction 1 as [| e body He _ IH]; [constructor |].
  destruct e; cbn [marked flat_map body_event app] in *; try exact IH.
  constructor; assumption.
Qed.

Lemma bus_block_scanned (b : Z) (new : list pci_event) :
  bus_block b new -> scanned new = [b].
Proof.
  intros (body & -> & Hf). rewrite scanned_app, (scanned_body b) by exact Hf.
  reflexivity.
Qed.

Lemma bus_block_marked (b : Z) (new : list pci_event) :
  bus_block b new -> Forall bus_number (marked new).
Proof.
  intros (body & -> & Hf). rewrite marked_app. apply Forall_app.
  split; [eapply marked_body; exact Hf | constructor].
Qed.

Lemma bus_block_probes (b : Z) (new : list pci_event) :
  bus_block b new -> visited_before_probe new.
Proof.
  intros (body & -> & Hf) newer older loc E.
  destruct (exists_last (l := EvProbe loc :: older) ltac:(discriminate))
    as (front & y & Hfy).
  rewrite Hfy, app_assoc in E. apply app_inj_tail in E as [Hbody <-].
  destruct front as [| e front].
  - cbn in Hfy. injection Hfy as Hfy _. discriminate.
  - cbn in Hfy. injection Hfy as <- ->.
    assert (Hloc : body_event b (EvProbe loc)).
    { rewrite List.Forall_forall in Hf. apply Hf. rewrite Hbody.
      apply in_or_app. right. left. reflexivity. }
    cbn in Hloc. rewrite Hloc. apply in_or_app. right. left. reflexivity.
Qed.

Lemma visited_before_probe_app (n2 n1 : list pci_event) :
  visited_before_probe n2 -> visited_before_probe n1 ->
  visited_before_probe (n2 ++ n1).
Proof.
  induction n2 as [| e n2 IH]; intros H2 H1; [exact H1 |].
  intros newer older loc E. destruct newer as [| e' newer].
  - cbn in E. injection E as -> <-.
    apply in_or_app. left. apply (H2 [] n2 loc). reflexivity.
  - cbn in E. injection E as <- E.
    apply (IH) in E; [exact E | | exact H1].
    intros nw old l' E'. apply (H2 (e :: nw) old l'). rewrite E'. reflexivity.
Qed.

Lemma seg_inv_refl (st : pci_state) : seg_inv st st [].
Proof.
  split; [apply traced_refl |]. cbn.
  split; [constructor |]. split; [constructor |]. split; [constructor |].
  intros [| e newer] older loc E; discriminate.
Qed.

(** The scan of a bus that was not scanned yet keeps the invariant. *)
Lemma seg_inv_scan (st0 st st' : pci_state) (new nb : list pci_event) (b : Z) :
  seg_inv st0 st new ->
  bus_number b ->
  ~ In b (scanned new) ->
  traced st st' nb ->
  bus_block b nb ->
  seg_inv st0 st' (nb ++ new).
Proof.
  intros (T & Hnd & Hs & Hm & Hp) Hb Hnew T' Hblock.
  split; [eapply traced_trans; eassumption |].
  rewrite scanned_app, marked_app, (bus_block_scanned b nb Hblock).
  split; [constructor; assumption |].
  split; [constructor; assumption |].
  split; [apply Forall_app; split; [eapply bus_block_marked; eassumption | exact Hm] |].
  apply visited_before_probe_app; [eapply bus_block_probes; eassumption | exact Hp].
Qed.

(** Under the invariant, a bus that was scanned is [BUS_VISITED]. *)
Lemma seg_inv_scanned_visited (st0 st : pci_state) (new : list pci_event)
    (b : Z) :
  seg_inv st0 st new ->
  length (pci_buses st0) = 256%nat ->
  In b (scanned new) ->
  get_bus b st = Some BUS_VISITED.
Proof.
  intros ((_ & Hbuses) & _ & Hs & _) Hlen Hin. unfold get_bus.
  rewrite Hbuses. apply replay_scanned; [exact Hin |].
  rewrite List.Forall_forall in Hs. specialize (Hs b Hin).
  unfold bus_number in Hs. lia.
Qed.

Lemma traced_visited_count (st st' : pci_state) (new : list pci_event) :
  traced st st' new ->
  (visited_count (pci_buses st) <= visited_count (pci_buses st'))%nat.
Proof.
  intros (_ & ->). apply visited_count_mono.
  - symmetry. apply replay_length.
  - intros i. apply replay_keeps_visited.
Qed.

Section Legacy.

Variable port_in : Z -> Z -> Z -> Z.

(** The I/O-port backend always stores a value when it succeeds, and a
    value read with width 8 is below 256. *)
Lemma read_value_ioport (loc : pci_device_loc) (off width : Z) :
  exists r,
    read_value port_in IOPORT loc off width = Ok r
    /\ (width = 8 -> forall v, r = inr v -> 0 <= v < 256).
Proof.
  unfold read_value, pci_config_read, pci_ioport_config_read.
  destruct (negb (seg loc =? 0));
    [exists (inl (- EINVAL)); split; [reflexivity | discriminate] |].
  destruct ((256 <=? off)
            || negb (Z.land off (u32 (Z.shiftr width 3 - 1)) =? 0));
    [exists (inl (- EINVAL)); split; [reflexivity | discriminate] |].
  destruct (Z.eqb_spec width 8) as [-> | H8].
  - eexists. split; [reflexivity |]. intros _ v E. injection E as <-.
    apply u8_bus_number.
  - destruct (width =? 16);
      [eexists; split; [reflexivity | intros; contradiction] |].
    destruct (width =? 32);
      [eexists; split; [reflexivity | intros; contradiction] |].
    exists (inl (- EINVAL)). split; [reflexivity | discriminate].
Qed.

Lemma get_info_ioport (loc : pci_device_loc) :
  exists r, pci_device_get_info port_in IOPORT loc = Ok r.
Proof.
  unfold pci_device_get_info.
  destruct (read_value_ioport loc PCI_DEV_BASE_INFO 32) as (r1 & -> & _).
  cbn [bind]. destruct r1 as [rc | dv]; [eexists; reflexivity |].
  destruct ((Z.land dv 65535 =? 65535) || (Z.land dv 65535 =? 0));
    [eexists; reflexivity |].
  destruct (read_value_ioport loc PCI_CLASS_INFO_OFF 32) as (r2 & -> & _).
  cbn [bind]. destruct r2 as [rc | ci]; [eexists; reflexivity |].
  destruct (read_value_ioport loc PCI_HDR_TYPE_OFF 8) as (r3 & -> & _).
  cbn [bind]. destruct r3 as [rc | tmp]; eexists; reflexivity.
Qed.

(** [pci_discover_device_func] on the I/O-port backend ends; it starts no
    scan and marks bus numbers only. *)
Lemma discover_device_func_ioport (b : Z) (loc : pci_device_loc)
    (dev_nfo : option pci_device_basic_info) (st : pci_state) :
  (func loc = 0 -> dev_nfo <> None) ->
  exists r st' new,
    pci_discover_device_func port_in IOPORT loc dev_nfo st = Ok (r, st')
    /\ traced st st' new /\ Forall (body_event b) new.
Proof.
  intros Hnfo. unfold pci_discover_device_func.
  assert (Hr : exists r,
    (if negb (func loc =? 0) then pci_device_get_info port_in IOPORT loc
     else match dev_nfo with
          | Some n => Ok (inr n)
          | None => Fault AssertFailed
          end) = Ok r).
  { destruct (Z.eqb_spec (func loc) 0) as [H0 | H0]; cbn [negb].
    - destruct dev_nfo as [n |]; [eexists; reflexivity |].
      exfalso. apply (Hnfo H0). reflexivity.
    - apply get_info_ioport. }
  destruct Hr as (r & ->). cbn [bind].
  destruct r as [rc | nfo].
  { exists false, st, []. split; [reflexivity |].
    split; [apply traced_refl | constructor]. }
  assert (Hdump : Forall (body_event b) [EvDump loc nfo])
    by (constructor; [exact I | constructor]).
  destruct ((class_id nfo =? PCI_CLASS_BRIDGE)
            && (subclass_id nfo =? PCI_SUBCLASS_PCI_BRIDGE)).
  2:{ eexists true, _, _. split; [reflexivity |].
      split; [apply traced_dump | exact Hdump]. }
  destruct (read_value_ioport loc PCI_HDR1_SECOND_BUS 8) as (r1 & -> & _).
  cbn [bind]. destruct r1 as [rc | secondary_bus].
  { eexists false, _, _. split; [reflexivity |].
    split; [apply traced_dump | exact Hdump]. }
  destruct (read_value_ioport loc PCI_HDR1_SUBORD_BUS 8) as (r2 & -> & H8).
  cbn [bind]. destruct r2 as [rc | subordinate_bus].
  { eexists false, _, _. split; [reflexivity |].
    split; [apply traced_dump | exact Hdump]. }
  specialize (H8 eq_refl _ eq_refl).
  unfold mark_range.
  destruct (Z.eqb_spec subordinate_bus UINT32_MAX) as [E | _];
    [unfold UINT32_MAX in E; lia |].
  cbn [bind].
  destruct (mark_loop_traced b
              (Z.to_nat (subordinate_bus + 1 - secondary_bus)) secondary_bus
              (log_event (EvDump loc nfo) st)) as (new & Ht & Hf).
  eexists true, _, _. split; [reflexivity |]. split.
  - eapply traced_trans; [apply traced_dump | exact Ht].
  - apply Forall_app. split; [exact Hf | exact Hdump].
Qed.

(** [pci_discover_device] on the I/O-port backend ends; it starts no scan,
    marks bus numbers only and probes the bus of [loc] only. *)
Lemma discover_device_ioport (loc : pci_device_loc) (st : pci_state) :
  func loc = 0 ->
  exists r st' new,
    pci_discover_device port_in IOPORT loc st = Ok (r, st')
    /\ traced st st' new /\ Forall (body_event (bus loc)) new.
Proof.
  intros Hf. unfold pci_discover_device. rewrite Hf. cbn [Z.eqb negb].
  assert (Hprobe : Forall (body_event (bus loc)) [EvProbe loc])
    by (constructor; [reflexivity | constructor]).
  destruct (get_info_ioport loc) as (r & ->). cbn [bind].
  destruct r as [rc | nfo].
  { eexists false, _, _. split; [reflexivity |].
    split; [apply traced_probe | exact Hprobe]. }
  destruct (discover_device_func_ioport (bus loc) loc (Some nfo)
              (log_event (EvProbe loc) st) ltac:(discriminate))
    as (r0 & st1 & n1 & -> & T1 & F1).
  cbn [bind].
  assert (T1' : traced st st1 (n1 ++ [EvProbe loc]))
    by (eapply traced_trans; [apply traced_probe | exact T1]).
  assert (F1' : Forall (body_event (bus loc)) (n1 ++ [EvProbe loc]))
    by (apply Forall_app; split; assumption).
  destruct r0;
    [| exists false, st1, (n1 ++ [EvProbe loc]);
       split; [reflexivity |]; split; assumption].
  destruct (multi_func nfo).
  2:{ exists true, st1, (n1 ++ [EvProbe loc]).
      split; [reflexivity |]. split; assumption. }
  destruct (for_each_traced (body_event (bus loc))
              (fun f s =>
                 do r <- pci_discover_device_func port_in IOPORT
                           (set_func loc f) None s ; Ok (snd r))
              (seqZ 1 7)) with (st := st1) as (st2 & n2 & -> & T2 & F2).
  { intros f s Hin.
    destruct (discover_device_func_ioport (bus loc) (set_func loc f) None s)
      as (r & s' & n & -> & T & F).
    - cbn [set_func func]. intros H0. exfalso.
      apply list_elem_of_In, elem_of_seqZ in Hin.
      unfold wrap_u in H0. change (2 ^ 3) with 8 in H0.
      rewrite Z.mod_small in H0 by lia. lia.
    - cbn [bind snd]. exists s', n. split; [reflexivity |]. split; assumption. }
  cbn [bind]. eexists true, _, _. split; [reflexivity |]. split.
  - eapply traced_trans; eassumption.
  - apply Forall_app. split; assumption.
Qed.

(** [pci_discover_bus] on the I/O-port backend ends, and what it adds to
    the log is the scan of that bus. *)
Lemma discover_bus_ioport (sg : option pci_segment) (b : Z) (st : pci_state) :
  bus_number b ->
  exists st' new,
    pci_discover_bus port_in IOPORT sg b st = Ok st'
    /\ traced st st' new /\ bus_block b new.
Proof.
  intros Hb. unfold pci_discover_bus.
  set (seg_num := match sg with Some s => segment s | None => 0 end).
  assert (Hbus : bus (pci_make_loc seg_num b 0 0) = b).
  { cbn [pci_make_loc bus]. unfold u8, wrap_u. change (2 ^ 8) with 256.
    unfold bus_number in Hb. apply Z.mod_small. lia. }
  destruct (for_each_traced (body_event b)
              (fun d s =>
                 do r <- pci_discover_device port_in IOPORT
                           (set_dev (pci_make_loc seg_num b 0 0) d) s ;
                 Ok (snd r))
              (seqZ 0 32)) with (st := pci_mark_bus_as_visited b st)
    as (st2 & n2 & E2 & T2 & F2).
  { intros d s _.
    destruct (discover_device_ioport
                (set_dev (pci_make_loc seg_num b 0 0) d) s)
      as (r & s' & n & -> & T & F); [reflexivity |].
    cbn [bind snd]. exists s', n. split; [reflexivity |].
    split; [exact T |]. cbn [set_dev bus] in F. fold (bus (pci_make_loc seg_num b 0 0)) in F.
    rewrite Hbus in F. exact F. }
  exists st2, (n2 ++ [EvVisited b]). split; [exact E2 |]. split.
  - eapply traced_trans; [apply traced_visit | exact T2].
  - exists n2. split; [reflexivity | exact F2].
Qed.

Lemma u8_of_bus_number (b : Z) : bus_number b -> u8 b = b.
Proof.
  unfold bus_number, u8, wrap_u. change (2 ^ 8) with 256.
  intros H. apply Z.mod_small. exact H.
Qed.

(** The scan of a bus that was not scanned yet ends and keeps the
    invariant. *)
Lemma scan_step (sg : option pci_segment) (b : Z)
    (st0 st : pci_state) (new : list pci_event) :
  seg_inv st0 st new ->
  bus_number b ->
  ~ In b (scanned new) ->
  exists st' nb,
    pci_discover_bus port_in IOPORT sg b st = Ok st'
    /\ traced st st' nb /\ bus_block b nb
    /\ seg_inv st0 st' (nb ++ new).
Proof.
  intros Hinv Hb Hnew.
  destruct (discover_bus_ioport sg b st Hb) as (st' & nb & E & T & B).
  exists st', nb. split; [exact E |]. split; [exact T |]. split; [exact B |].
  eapply seg_inv_scan; eassumption.
Qed.

(** The loop over the host controllers. *)
Lemma discover_controllers_ioport (sg : option pci_segment)
    (st0 : pci_state) (funcs : list Z) :
  forall st new,
    seg_inv st0 st new ->
    Forall bus_number funcs ->
    List.NoDup funcs ->
    (forall f, In f funcs -> ~ In f (scanned new)) ->
    exists st' ext,
      discover_controllers port_in IOPORT sg funcs st = Ok st'
      /\ seg_inv st0 st' (ext ++ new).
Proof.
  induction funcs as [| f rest IH]; intros st new Hinv Hf Hnd Hnew;
    cbn [discover_controllers].
  - exists st, []. split; [reflexivity | exact Hinv].
  - apply Forall_cons in Hf as [Hfb Hrest].
    apply NoDup_cons_iff in Hnd as [Hfr Hnd].
    destruct (get_info_ioport (pci_make_loc 0 0 0 f)) as (r & ->).
    cbn [bind]. destruct r as [rc | nfo].
    { exists st, []. split; [reflexivity | exact Hinv]. }
    rewrite (u8_of_bus_number f Hfb).
    destruct (scan_step sg f st0 st new Hinv Hfb (Hnew f (or_introl eq_refl)))
      as (st1 & nb & -> & T & B & Hinv1).
    cbn [bind].
    destruct (IH st1 (nb ++ new) Hinv1 Hrest Hnd) as (st' & ext & E & Hinv').
    { intros f' Hin. rewrite scanned_app, (bus_block_scanned f nb B).
      cbn [app]. intros [<- | Hin']; [contradiction |].
      apply (Hnew f' (or_intror Hin)). exact Hin'. }
    exists st', (ext ++ nb). split; [exact E |].
    rewrite <- app_assoc. exact Hinv'.
Qed.

(** One pass of the final loop, from [visit_count = cnt]. *)
Lemma sweep_loop_ioport (sg : option pci_segment) (st0 : pci_state)
    (bs : list Z) :
  forall cnt st new,
    seg_inv st0 st new ->
    length (pci_buses st0) = 256%nat ->
    Forall bus_number bs ->
    0 <= cnt -> cnt + Z.of_nat (length bs) <= INT_MAX ->
    exists cnt' st' ext,
      for_each (sweep_step port_in IOPORT sg) bs (cnt, st) = Ok (cnt', st')
      /\ seg_inv st0 st' (ext ++ new)
      /\ cnt <= cnt'
      /\ (cnt' = cnt ->
          st' = st /\ ext = []
          /\ forall b, In b bs -> bus_is b BUS_TO_VISIT st = false)
      /\ (cnt < cnt' ->
          (visited_count (pci_buses st) < visited_count (pci_buses st'))%nat).
Proof.
  induction bs as [| b rest IH]; intros cnt st new Hinv Hlen Hbs Hcnt Hmax.
  - exists cnt, st, []. split; [reflexivity |]. split; [exact Hinv |].
    split; [lia |]. split; [| lia].
    intros _. split; [reflexivity |]. split; [reflexivity |]. intros b [].
  - apply Forall_cons in Hbs as [Hb Hrest].
    cbn [length] in Hmax. cbn [for_each sweep_step].
    destruct (bus_is b BUS_TO_VISIT st) eqn:Hto.
    + assert (Hget : get_bus b st = Some BUS_TO_VISIT).
      { unfold bus_is in Hto. destruct (get_bus b st) as [s |];
          [| discriminate]. apply bus_state_eqb_eq in Hto. congruence. }
      assert (Hnew : ~ In b (scanned new)).
      { intros Hin.
        rewrite (seg_inv_scanned_visited st0 st new b Hinv Hlen Hin) in Hget.
        discriminate. }
      rewrite (u8_of_bus_number b Hb).
      destruct (scan_step sg b st0 st new Hinv Hb Hnew)
        as (st1 & nb & -> & T & B & Hinv1).
      cbn [bind]. unfold INT_MAX in Hmax. rewrite s32_small by lia.
      destruct (IH (cnt + 1) st1 (nb ++ new) Hinv1 Hlen Hrest ltac:(lia)
                  ltac:(unfold INT_MAX; lia))
        as (cnt' & st' & ext & E & Hinv' & Hle & Heq & Hlt).
      assert (Hstep :
        (visited_count (pci_buses st) < visited_count (pci_buses st1))%nat).
      { destruct T as [_ Hb1].
        apply (visited_count_strict _ _ (Z.to_nat b)).
        - rewrite Hb1. symmetry. apply replay_length.
        - intros i Hi. rewrite Hb1. apply replay_keeps_visited. exact Hi.
        - unfold get_bus in Hget. rewrite Hget. discriminate.
        - rewrite Hb1. apply replay_scanned.
          + rewrite (bus_block_scanned b nb B). left. reflexivity.
          + destruct Hinv as ((_ & Hb0) & _). rewrite Hb0, replay_length, Hlen.
            unfold bus_number in Hb. lia. }
      exists cnt', st', (ext ++ nb). split; [exact E |].
      split; [rewrite <- app_assoc; exact Hinv' |].
      split; [lia |]. split; [lia |].
      intros _. destruct (Z.eq_dec cnt' (cnt + 1)) as [Hc | Hc].
      * destruct (Heq Hc) as (-> & _). exact Hstep.
      * specialize (Hlt ltac:(lia)). lia.
    + destruct (IH cnt st new Hinv Hlen Hrest Hcnt ltac:(lia))
        as (cnt' & st' & ext & E & Hinv' & Hle & Heq & Hlt).
      exists cnt', st', ext. split; [exact E |]. split; [exact Hinv' |].
      split; [exact Hle |]. split; [| exact Hlt].
      intros Hc. destruct (Heq Hc) as (-> & -> & Hnone).
      split; [reflexivity |]. split; [reflexivity |].
      intros b' [<- | Hin]; [exact Hto | apply Hnone; exact Hin].
Qed.

Lemma seqZ_bus_numbers : Forall bus_number (seqZ 1 255).
Proof.
  apply List.Forall_forall. intros b Hb.
  apply list_elem_of_In, elem_of_seqZ in Hb. unfold bus_number. lia.
Qed.

(** The final loop ends within as many passes as there are entries that
    are not [BUS_VISITED], plus one; no bus from 1 to 255 is left in
    [BUS_TO_VISIT]. *)
Lemma sweep_ioport (sg : option pci_segment) (st0 : pci_state) (n : nat) :
  forall st new,
    seg_inv st0 st new ->
    length (pci_buses st0) = 256%nat ->
    (256 - visited_count (pci_buses st) <= n)%nat ->
    exists st' ext,
      (forall fuel, (n < fuel)%nat -> sweep port_in fuel IOPORT sg st = Ok st')
      /\ seg_inv st0 st' (ext ++ new)
      /\ forall b, 1 <= b < 256 -> bus_is b BUS_TO_VISIT st' = false.
Proof.
  induction n as [| n IH]; intros st new Hinv Hlen Hm;
    destruct (sweep_loop_ioport sg st0 (seqZ 1 255) 0 st new Hinv Hlen
                seqZ_bus_numbers ltac:(lia) ltac:(vm_compute; discriminate))
      as (cnt' & st1 & ext & E & Hinv1 & Hle & Heq & Hlt);
    assert (Hlen1 : length (pci_buses st1) = 256%nat)
      by (destruct Hinv1 as ((_ & ->) & _); rewrite replay_length; exact Hlen);
    pose proof (visited_count_le_length (pci_buses st1)) as Hvc;
    (destruct (Z.eq_dec cnt' 0) as [Hc | Hc];
     [ destruct (Heq Hc) as (-> & -> & Hnone);
       exists st, []; split;
       [ intros [| fuel] Hfuel; [lia |]; cbn [sweep]; unfold sweep_pass;
         rewrite E; cbn [bind fst snd]; subst cnt'; reflexivity
       | split; [exact Hinv |];
         intros b Hb; apply Hnone, list_elem_of_In, elem_of_seqZ; lia ]
     | specialize (Hlt ltac:(lia)) ]).
  - lia.
  - destruct (IH st1 (ext ++ new) Hinv1 Hlen ltac:(lia))
      as (st' & ext' & Hrun & Hinv' & Hdone).
    exists st', (ext' ++ ext). split; [| split].
    + intros [| fuel] Hfuel; [lia |]. cbn [sweep]. unfold sweep_pass.
      rewrite E. cbn [bind fst snd].
      destruct (Z.ltb_spec 0 cnt'); [| lia]. apply Hrun. lia.
    + rewrite <- app_assoc. exact Hinv'.
    + exact Hdone.
Qed.

(** [pci_discover_segment] on the I/O-port backend ends, whatever the
    hardware answers, with 256 passes of fuel or more.  Either the root
    device gives no information and nothing is done, or bus 0 is scanned
    and no bus from 1 to 255 is left in [BUS_TO_VISIT]. *)
Lemma discover_segment_ioport (sg : option pci_segment) (st : pci_state) :
  length (pci_buses st) = 256%nat ->
  exists st' new,
    (forall fuel,
       (256 <= fuel)%nat ->
       pci_discover_segment port_in fuel IOPORT sg st = Ok st')
    /\ seg_inv st st' new
    /\ ((new = [] /\ st' = st)
        \/ (In 0 (scanned new)
            /\ forall b, 1 <= b < 256 -> bus_is b BUS_TO_VISIT st' = false)).
Proof.
  intros Hlen. unfold pci_discover_segment.
  destruct (pci_device_get_info port_in IOPORT (pci_make_loc 0 0 0 0))
    as [[rc | nfo] | f] eqn:Hroot.
  - exists st, []. split; [intros; reflexivity |].
    split; [apply seg_inv_refl | left; split; reflexivity].
  - cbn [bind].
    assert (Hb0 : bus_number 0) by (unfold bus_number; lia).
    assert (Hfirst : exists st1 new1,
      (if negb (multi_func nfo)
       then pci_discover_bus port_in IOPORT sg 0 st
       else discover_controllers port_in IOPORT sg (seqZ 0 8) st) = Ok st1
      /\ seg_inv st st1 new1 /\ In 0 (scanned new1)).
    { destruct (scan_step sg 0 st st [] (seg_inv_refl st) Hb0 ltac:(intros []))
        as (st1 & nb & E & T & B & Hinv1).
      rewrite app_nil_r in Hinv1.
      assert (Hin0 : In 0 (scanned nb))
        by (rewrite (bus_block_scanned 0 nb B); left; reflexivity).
      destruct (multi_func nfo); cbn [negb].
      - change (seqZ 0 8) with (0 :: seqZ 1 7).
        cbn [discover_controllers]. rewrite Hroot. cbn [bind].
        change (u8 0) with 0. rewrite E. cbn [bind].
        destruct (discover_controllers_ioport sg st (seqZ 1 7) st1 nb Hinv1)
          as (st2 & ext & E2 & Hinv2).
        + apply List.Forall_forall. intros b Hb.
          apply list_elem_of_In, elem_of_seqZ in Hb. unfold bus_number. lia.
        + apply NoDup_ListNoDup, NoDup_seqZ.
        + intros f Hf. rewrite (bus_block_scanned 0 nb B).
          apply list_elem_of_In, elem_of_seqZ in Hf.
          intros [<- | []]. lia.
        + exists st2, (ext ++ nb). split; [exact E2 |].
          split; [exact Hinv2 |]. rewrite scanned_app. apply in_or_app.
          right. exact Hin0.
      - exists st1, nb. split; [exact E |]. split; assumption. }
    destruct Hfirst as (st1 & new1 & -> & Hinv1 & Hin0). cbn [bind].
    assert (Hv0 : get_bus 0 st1 = Some BUS_VISITED)
      by (eapply seg_inv_scanned_visited; eassumption).
    pose proof (visited_count_pos _ _ Hv0) as Hpos.
    destruct (sweep_ioport sg st 255 st1 new1 Hinv1 Hlen ltac:(lia))
      as (st' & ext & Hrun & Hinv' & Hdone).
    exists st', (ext ++ new1). split; [intros fuel Hf; apply Hrun; lia |].
    split; [exact Hinv' |]. right. split; [| exact Hdone].
    rewrite scanned_app. apply in_or_app. right. exact Hin0.
  - destruct (get_info_ioport (pci_make_loc 0 0 0 0)) as (r & Hr).
    rewrite Hr in Hroot. discriminate.
Qed.

(** C8.  [pci_ioport_config_read] and [pci_ioport_config_write] return
    [-EINVAL] exactly when the segment of the location is not 0, or the
    offset is 256 or more, or the offset is not a multiple of [width / 8],
    or the width is not 8, 16 or 32; for every other input they return
    0. *)
Theorem ioport_config_status (loc : pci_device_loc) (off width val : Z) :
  let bad :=
    seg loc <> 0 \/ 256 <= off \/ off mod (width / 8) <> 0
    \/ ~ (width = 8 \/ width = 16 \/ width = 32) in
  (fst (pci_ioport_config_read port_in loc off width) = - EINVAL <-> bad)
  /\ (fst (pci_ioport_config_read port_in loc off width) = 0 <-> ~ bad)
  /\ (fst (pci_ioport_config_write loc off width val) = - EINVAL
      <-> bad)
  /\ (fst (pci_ioport_config_write loc off width val) = 0 <-> ~ bad).
Proof.
  intros bad.
  assert (Hw : fst (pci_ioport_config_write loc off width val) =
               fst (pci_ioport_config_read port_in loc off width)).
  { unfold pci_ioport_config_write, pci_ioport_config_read.
    destruct (negb (seg loc =? 0)); [reflexivity |].
    destruct ((256 <=? off)
              || negb (Z.land off (u32 (Z.shiftr width 3 - 1)) =? 0));
      [reflexivity |].
    destruct (width =? 8); [reflexivity |].
    destruct (width =? 16); [reflexivity |].
    destruct (width =? 32); reflexivity. }
  rewrite Hw.
  assert (Hrd :
    (bad /\ fst (pci_ioport_config_read port_in loc off width) = - EINVAL)
    \/ (~ bad /\ fst (pci_ioport_config_read port_in loc off width) = 0)).
  { subst bad. unfold pci_ioport_config_read.
    destruct (Z.eqb_spec (seg loc) 0) as [Hs | Hs]; cbn [negb];
      [| left; split; [left; exact Hs | reflexivity]].
    destruct (Z.leb_spec 256 off) as [Ho | Ho]; cbn [orb];
      [left; split; [right; left; exact Ho | reflexivity] |].
    assert (Hmask : forall n m,
              0 <= n -> m = Z.ones n ->
              (Z.land off m =? 0) = (off mod 2 ^ n =? 0))
      by (intros n m Hn ->; rewrite Z.land_ones by exact Hn; reflexivity).
    destruct (Z.eqb_spec width 8) as [-> | H8].
    { change (u32 (Z.shiftr 8 3 - 1)) with 0. rewrite Z.land_0_r.
      cbn [Z.eqb negb fst]. right. split; [| reflexivity].
      change (8 / 8) with 1. rewrite Z.mod_1_r. intuition lia. }
    destruct (Z.eqb_spec width 16) as [-> | H16].
    { change (u32 (Z.shiftr 16 3 - 1)) with 1.
      rewrite (Hmask 1 1) by (reflexivity || lia).
      change (16 / 8) with 2. change (2 ^ 1) with 2.
      destruct (Z.eqb_spec (off mod 2) 0) as [Hm | Hm]; cbn [negb fst].
      - right. split; [intuition lia | reflexivity].
      - left. split; [right; right; left; exact Hm | reflexivity]. }
    destruct (Z.eqb_spec width 32) as [-> | H32].
    { change (u32 (Z.shiftr 32 3 - 1)) with 3.
      rewrite (Hmask 2 3) by (reflexivity || lia).
      change (32 / 8) with 4. change (2 ^ 2) with 4.
      destruct (Z.eqb_spec (off mod 4) 0) as [Hm | Hm]; cbn [negb fst].
      - right. split; [intuition lia | reflexivity].
      - left. split; [right; right; left; exact Hm | reflexivity]. }
    left. split; [right; right; right; intuition lia |].
    destruct (negb (Z.land off (u32 (Z.shiftr width 3 - 1)) =? 0));
      reflexivity. }
  unfold EINVAL in *.
  destruct Hrd as [[Hb ->] | [Hb ->]]; cbn [fst];
    repeat split; intros H; try assumption; try reflexivity;
    try discriminate; contradiction.
Qed.



End Legacy.

(** A single host controller at 00:00.0: bus 0 alone is scanned and one
    device is reported. *)
Example single_controller_scan :
  exists st',
    init_pci single_hw 256 [] pci_boot_state = Ok st'
    /\ scanned (pci_log st') = [0]
    /\ marked (pci_log st') = []
    /\ reported (pci_log st') = [pci_make_loc 0 0 0 0]
    /\ take 2 (pci_buses st') = [BUS_VISITED; BUS_NOT_VISITED].
Proof.
  destruct (init_pci single_hw 256 [] pci_boot_state) as [st' | f] eqn:E.
  - exists st'. split; [reflexivity |].
    vm_compute in E. injection E as <-. vm_compute. repeat split.
  - vm_compute in E. discriminate.
Qed.

(** A root device at 00:00.0 and a PCI-to-PCI bridge at 00:02.0 whose
    secondary and subordinate buses are 1 and 3: the buses are scanned in
    the order 0, 1, 2, 3 and the bridge marks 1, 2 and 3. *)
Example bridge_scan_order :
  exists st',
    init_pci bridge_hw 256 [] pci_boot_state = Ok st'
    /\ rev (scanned (pci_log st')) = [0; 1; 2; 3]
    /\ rev (marked (pci_log st')) = [1; 2; 3]
    /\ take 5 (pci_buses st') =
         [BUS_VISITED; BUS_VISITED; BUS_VISITED; BUS_VISITED;
          BUS_NOT_VISITED].
Proof.
  destruct (init_pci bridge_hw 256 [] pci_boot_state) as [st' | f] eqn:E.
  - exists st'. split; [reflexivity |].
    vm_compute in E. injection E as <-. vm_compute. repeat split.
  - vm_compute in E. discriminate.
Qed.

(** With a table of segments that is not empty the backend is
    [pci_mmio_config_read], which stores nothing: the vendor id that
    [pci_device_get_info] then tests was never written. *)
Lemma init_pci_ecam_indeterminate (port_in : Z -> Z -> Z -> Z) (fuel : nat)
    (sg : pci_segment) (rest : list pci_segment) (st : pci_state) :
  init_pci port_in fuel (sg :: rest) st = Fault Indeterminate.
Proof. reflexivity. Qed.


End PciSpec.

(** ** The clock thread and the self-test *)

Module ClockThreadSpec.
Import Int IntFacts Clock ClockThread.

(** [round_up_at64 n a] is [n] plus the distance from [n] to the next
    multiple of [a]. *)
Lemma round_up_at64_gap (n a : Z) :
  0 < a -> 0 <= n -> n + a <= 2 ^ 64 ->
  round_up_at64 n a = n + (- n) mod a.
Proof.
  intros Ha Hn Hfit.
  assert (H64 : 2 ^ 64 = 18446744073709551616) by reflexivity.
  pose proof (Z.mod_pos_bound (- n) a Ha) as Hg.
  pose proof (Z.div_mod (- n) a ltac:(lia)) as Hdm.
  set (g := (- n) mod a) in *. set (k := - ((- n) / a)).
  assert (Hk : n + g = a * k) by (unfold k; lia).
  assert (Hq : (n + a - 1) / a = k).
  { symmetry. apply (Z.div_unique _ _ _ (a - 1 - g)); lia. }
  assert (Hk0 : 0 <= k) by nia.
  unfold round_up_at64.
  rewrite (u64_small (n + a - 1)) by lia.
  rewrite Hq. rewrite (u64_small k) by nia.
  rewrite u64_small by nia. lia.
Qed.

Section Knobs.

Variable TIMER_HZ : Z.
Variable TS_SCALE : Z.

Hypothesis TIMER_HZ_pos : 0 < TIMER_HZ.
Hypothesis tick_units : 10 * TIMER_HZ <= TS_SCALE.
Hypothesis TS_SCALE_max : TS_SCALE <= BILLION.

(** The boot alignment of [clock_drift_adj]: when [__time_ns] is not on a
    second boundary, the adjustment installed is a tenth of a tick, and the
    ticks it lasts make up the distance [gap] to the next boundary but for
    a rest smaller than one adjustment; they are fewer than ten seconds of
    ticks when a tenth of a tick is a whole number of units.  Nothing is
    installed when [__time_ns] is on a boundary. *)
Theorem clock_drift_adj_align_gap (st : time_state) :
  0 <= __time_ns st ->
  __time_ns st + TS_SCALE <= 2 ^ 64 ->
  let gap := (- __time_ns st) mod TS_SCALE in
  exists st',
    clock_drift_adj_align TIMER_HZ TS_SCALE st = Some st'
    /\ __time_ns st' = __time_ns st
    /\ __tick_duration st' = __tick_duration st
    /\ boot_timestamp st' = boot_timestamp st
    /\ (gap = 0 -> st' = st)
    /\ (gap <> 0 ->
        __tick_adj_val st' = TS_SCALE / TIMER_HZ / 10
        /\ 0 < __tick_adj_val st'
        /\ __tick_adj_ticks_rem st' = gap / __tick_adj_val st'
        /\ 0 <= gap - __tick_adj_val st' * __tick_adj_ticks_rem st'
             < __tick_adj_val st'
        /\ (TS_SCALE mod (10 * TIMER_HZ) = 0 ->
            __tick_adj_ticks_rem st' < 10 * TIMER_HZ)).
Proof.
  intros Hn Hfit gap.
  unfold BILLION in TS_SCALE_max.
  assert (H64 : 2 ^ 64 = 18446744073709551616) by reflexivity.
  pose proof (Z.mod_pos_bound (- __time_ns st) TS_SCALE ltac:(lia)) as Hg.
  fold gap in Hg.
  unfold clock_drift_adj_align.
  rewrite (u64_small TS_SCALE) by lia.
  rewrite round_up_at64_gap by lia. fold gap.
  destruct (Z.ltb_spec (__time_ns st) (__time_ns st + gap)) as [Hlt | Hge].
  - replace (__time_ns st + gap - __time_ns st) with gap by lia.
    rewrite (u64_small gap) by lia. rewrite (s32_small gap) by lia.
    assert (Hq1 : 10 <= TS_SCALE / TIMER_HZ)
      by (apply Z.div_le_lower_bound; lia).
    assert (Hq2 : TS_SCALE / TIMER_HZ <= TS_SCALE)
      by (apply Z.div_le_upper_bound; nia).
    rewrite (quot_div_pos TS_SCALE TIMER_HZ) by lia.
    rewrite (s32_small (TS_SCALE / TIMER_HZ)) by lia.
    rewrite (quot_div_pos (TS_SCALE / TIMER_HZ) 10) by lia.
    set (adj := TS_SCALE / TIMER_HZ / 10).
    assert (Hadj : 1 <= adj <= TS_SCALE).
    { unfold adj. split; [apply Z.div_le_lower_bound; lia |].
      apply Z.div_le_upper_bound; lia. }
    rewrite (s32_small adj) by lia.
    destruct (Z.eqb_spec adj 0) as [H0 | _]; [lia |].
    rewrite (quot_div_pos gap adj) by lia.
    assert (Hr : 0 <= gap / adj <= gap).
    { split; [apply Z.div_pos; lia | apply Z.div_le_upper_bound; nia]. }
    rewrite (s32_small (gap / adj)) by lia.
    eexists. split; [reflexivity |]. cbn.
    repeat split; try lia.
    + pose proof (Z.mul_div_le gap adj ltac:(lia)). lia.
    + pose proof (Z.mul_succ_div_gt gap adj ltac:(lia)). lia.
    + intros Hdiv. apply Z.div_lt_upper_bound; [lia |].
      apply Z.div_exact in Hdiv; [| lia].
      assert (Hexact : TS_SCALE / TIMER_HZ / 10 = TS_SCALE / (10 * TIMER_HZ)).
      { rewrite Z.div_div by lia. f_equal. lia. }
      unfold adj. rewrite Hexact. lia.
  - exists st. repeat split; try reflexivity; lia.
Qed.

End Knobs.

(** A second is 10^9 units and the timer runs at 100 Hz; the hardware
    clock changes second when [__time_ns] is 2.6 s. *)
Lemma clock_drift_adj_align_gap_witness :
  exists st',
    clock_drift_adj_align 100 1000000000
      (mk_time_state 2600000000 10000000 0 0 100) = Some st'
    /\ __time_ns st' = 2600000000
    /\ __tick_duration st' = 10000000
    /\ boot_timestamp st' = 100
    /\ (400000000 = 0 -> st' = mk_time_state 2600000000 10000000 0 0 100)
    /\ (400000000 <> 0 ->
        __tick_adj_val st' = 1000000
        /\ 0 < __tick_adj_val st'
        /\ __tick_adj_ticks_rem st' = 400000000 / __tick_adj_val st'
        /\ 0 <= 400000000 - __tick_adj_val st' * __tick_adj_ticks_rem st'
             < __tick_adj_val st'
        /\ (1000000000 mod (10 * 100) = 0 ->
            __tick_adj_ticks_rem st' < 10 * 100)).
Proof.
  apply (clock_drift_adj_align_gap 100 1000000000 ltac:(lia) ltac:(lia)
           ltac:(unfold BILLION; lia)
           (mk_time_state 2600000000 10000000 0 0 100));
    cbn; lia.
Defined.

(** [init_system_time] panics exactly on a negative hardware timestamp;
    otherwise the clock starts there: [__time_ns] is 0, [get_timestamp]
    returns the hardware timestamp and the check of the drift against the
    same timestamp passes, whatever the scale. *)
Theorem init_system_time_boot (TS_SCALE hw_ts : Z) (st : time_state) :
  - 2 ^ 63 <= hw_ts < 2 ^ 63 ->
  (hw_ts < 0 -> init_system_time hw_ts st = None)
  /\ (0 <= hw_ts ->
      exists st',
        init_system_time hw_ts st = Some st'
        /\ __time_ns st' = 0
        /\ boot_timestamp st' = hw_ts
        /\ get_timestamp TS_SCALE st' = hw_ts
        /\ clock_drift_adj_check TS_SCALE hw_ts st' = true).
Proof.
  intros Hr.
  assert (H63 : 2 ^ 63 = 9223372036854775808) by reflexivity.
  unfold init_system_time. rewrite (s64_small hw_ts) by lia.
  split; intros Hs.
  - destruct (Z.ltb_spec hw_ts 0); [reflexivity | lia].
  - destruct (Z.ltb_spec hw_ts 0); [lia |].
    eexists. split; [reflexivity |]. cbn [__time_ns boot_timestamp].
    assert (Hts : get_timestamp TS_SCALE
                    {| __time_ns := 0;
                       __tick_duration := __tick_duration st;
                       __tick_adj_val := __tick_adj_val st;
                       __tick_adj_ticks_rem := __tick_adj_ticks_rem st;
                       boot_timestamp := hw_ts |} = hw_ts).
    { unfold get_timestamp, get_sys_time. cbn [__time_ns boot_timestamp].
      rewrite Zdiv_0_l. change (u64 0) with 0. change (s64 0) with 0.
      rewrite Z.add_0_r. apply s64_small. lia. }
    repeat split; try exact Hts.
    unfold clock_drift_adj_check. rewrite Hts.
    unfold measured_drift. rewrite Z.sub_diag. reflexivity.
Qed.

Lemma init_system_time_boot_witness :
  (1700000000 < 0 ->
   init_system_time 1700000000 (mk_time_state 5 10000000 0 0 0) = None)
  /\ (0 <= 1700000000 ->
      exists st',
        init_system_time 1700000000 (mk_time_state 5 10000000 0 0 0) = Some st'
        /\ __time_ns st' = 0
        /\ boot_timestamp st' = 1700000000
        /\ get_timestamp 1000000000 st' = 1700000000
        /\ clock_drift_adj_check 1000000000 1700000000 st' = true).
Proof.
  apply (init_system_time_boot 1000000000 1700000000
           (mk_time_state 5 10000000 0 0 0)).
  vm_compute. split; [discriminate | reflexivity].
Defined.

(** What [selftest_time_manual] changes is [__tick_duration] alone, and it
    leaves it as it found it, however long the test runs: a state that the
    rest of the kernel does not touch meanwhile is unchanged at the end. *)
Theorem selftest_time_manual_restores (TIMER_HZ delay : Z) (n : nat)
    (tick : time_state -> time_state) (st : time_state) :
  (forall s, __tick_duration (tick s) = __tick_duration s) ->
  __tick_duration (selftest_time_manual TIMER_HZ tick delay n st)
  = __tick_duration st
  /\ ((forall s, tick s = s) ->
      selftest_time_manual TIMER_HZ tick delay n st = st).
Proof.
  intros Htick.
  assert (Hbody : forall art orig t s,
            selftest_body art orig t s = s
            \/ exists d, selftest_body art orig t s = set_tick_duration d s).
  { intros art orig t s. unfold selftest_body.
    destruct (negb (art =? 0) && (t =? 0)); [right; eexists; reflexivity |].
    destruct (negb (art =? 0) && ((t =? 60) || (t =? 180)));
      [right; eexists; reflexivity |].
    destruct (negb (art =? 0) && (t =? 120));
      [right; eexists; reflexivity | left; reflexivity]. }
  assert (Hloop : forall art orig m t s,
            (forall s', tick s' = s') ->
            selftest_loop tick art orig m t s = s
            \/ exists d, selftest_loop tick art orig m t s
                         = set_tick_duration d s).
  { intros art orig m. induction m as [| m IH]; intros t s Hid.
    - left. reflexivity.
    - cbn [selftest_loop]. rewrite Hid.
      destruct (Hbody art orig t s) as [-> | [d ->]].
      + apply IH, Hid.
      + destruct (IH (t + 1) (set_tick_duration d s) Hid) as [-> | [d' ->]];
          right; eexists; reflexivity. }
  unfold selftest_time_manual.
  set (art := art_drift_p TIMER_HZ delay).
  destruct (Z.eqb_spec art 0) as [Hart | Hart]; cbn [negb andb].
  - split.
    + clear Hloop. generalize 0 at 2 as t. revert st.
      induction n as [| n IH]; intros s t; [reflexivity |].
      cbn [selftest_loop]. rewrite IH, Htick.
      unfold selftest_body. rewrite Hart. reflexivity.
    + intros Hid.
      generalize 0 at 2 as t. revert st.
      induction n as [| n IH]; intros s t; [reflexivity |].
      cbn [selftest_loop]. rewrite IH, Hid.
      unfold selftest_body. rewrite Hart. reflexivity.
  - destruct (__tick_adj_ticks_rem st =? 0).
    + destruct (Z.eqb_spec (__tick_duration st) 0) as [_ | Hd].
      * split; [reflexivity | intros _; reflexivity].
      * split; [reflexivity |]. intros Hid.
        destruct (Hloop art (__tick_duration st) n 0 st Hid) as [-> | [d ->]];
          destruct st; reflexivity.
    + cbn [Z.eqb]. split; [reflexivity | intros _; reflexivity].
Qed.

Lemma selftest_time_manual_restores_witness :
  __tick_duration
    (selftest_time_manual 100 (fun s => s) 6000 200
       (mk_time_state 0 10000000 0 0 100)) = 10000000
  /\ ((forall s : time_state, (fun s => s) s = s) ->
      selftest_time_manual 100 (fun s => s) 6000 200
        (mk_time_state 0 10000000 0 0 100)
      = mk_time_state 0 10000000 0 0 100).
Proof.
  apply (selftest_time_manual_restores 100 6000 200 (fun s => s)
           (mk_time_state 0 10000000 0 0 100)).
  intros s. reflexivity.
Defined.

End ClockThreadSpec.

(** ** The time system calls *)

Module ClockSysSpec.
Import Int IntFacts ClockSys.
Import Select(user_ptr, UNull, UPtr, mk_timeval).

(** The rescale of a rest [m] of a division by [TS_SCALE] to nanoseconds,
    as [real_time_get_timespec] and [task_cpu_get_timespec] compute it. *)
Lemma nsec_rescale (TS_SCALE long_bits m : Z) :
  0 < TS_SCALE <= INT_MAX ->
  32 <= long_bits ->
  0 <= m < TS_SCALE ->
  let ns :=
    if TS_SCALE <=? Clock.BILLION
    then m * (Clock.BILLION / TS_SCALE)
    else m / (TS_SCALE / Clock.BILLION) in
  wrap_s long_bits
    (if TS_SCALE <=? Clock.BILLION
     then u64 (m * (Clock.BILLION ÷ TS_SCALE))
     else u64 (m / (TS_SCALE ÷ Clock.BILLION))) = ns
  /\ 0 <= ns < 2 ^ 31
  /\ (TS_SCALE <= Clock.BILLION -> ns < Clock.BILLION)
  /\ (Clock.BILLION mod TS_SCALE = 0 -> ns * TS_SCALE = m * Clock.BILLION).
Proof.
  intros HTS Hlong Hm ns. subst ns. unfold INT_MAX in HTS.
  assert (Hl : 2 ^ 31 <= 2 ^ (long_bits - 1)) by (apply pow2_le_mono; lia).
  assert (H31 : 2 ^ 31 = 2147483648) by reflexivity.
  unfold Clock.BILLION.
  destruct (Z.leb_spec TS_SCALE 1000000000) as [Hle | Hgt].
  - rewrite quot_div_pos by lia.
    assert (H1 : 1 <= 1000000000 / TS_SCALE)
      by (apply Z.div_le_lower_bound; lia).
    assert (H2 : TS_SCALE * (1000000000 / TS_SCALE) <= 1000000000)
      by (apply Z.mul_div_le; lia).
    assert (Hf : 0 <= m * (1000000000 / TS_SCALE) < 1000000000)
      by (split; nia).
    rewrite u64_small by lia.
    split; [apply wrap_s_small; lia |].
    split; [lia |]. split; [lia |].
    intros Hdiv. apply Z.div_exact in Hdiv; [| lia]. nia.
  - rewrite quot_div_pos by lia.
    assert (Hd : 1 <= TS_SCALE / 1000000000)
      by (apply Z.div_le_lower_bound; lia).
    assert (Hf : 0 <= m / (TS_SCALE / 1000000000) < 2147483648).
    { split; [apply Z.div_pos; lia |].
      apply Z.div_lt_upper_bound; [lia |]. nia. }
    rewrite u64_small by lia.
    split; [apply wrap_s_small; lia |].
    split; [lia |]. split; [lia |].
    intros Hdiv. apply Z.mod_divide in Hdiv; [| lia].
    apply Z.divide_pos_le in Hdiv; lia.
Qed.

Ltac by_cases :=
  repeat split; intros;
  repeat match goal with
         | H : _ \/ _ |- _ => destruct H
         | H : _ /\ _ |- _ => destruct H
         | H : exists _, _ |- _ => destruct H
         end;
  try discriminate; try congruence; eauto.

Section Knobs.

Variable TIMER_HZ : Z.
Variable TS_SCALE : Z.
Variable time_t_bits : Z.
Variable long_bits : Z.
Variable ticks_bits : Z.

(** [sys_clock_gettime] fails with [-EINVAL] exactly for a [NULL] pointer
    or an id that is not one of the seven, with [-EFAULT] exactly when a
    supported id meets memory that cannot be written, and then leaves the
    user memory as it was; otherwise it returns 0 and stores the time of
    the clock, which for the three monotonic ids is the wall-clock time of
    [CLOCK_REALTIME]. *)
Theorem sys_clock_gettime_status (total_ticks : Z) (st : Clock.time_state)
    (clk_id : clockid_t) (user_tp : user_ptr Clock.timespec) :
  let r :=
    sys_clock_gettime TS_SCALE time_t_bits long_bits ticks_bits total_ticks
      st clk_id user_tp in
  (fst r = - EINVAL <-> user_tp = UNull \/ supported clk_id = false)
  /\ (fst r = - EFAULT <->
      supported clk_id = true /\ exists rd old, user_tp = UPtr rd false old)
  /\ (fst r = 0 <->
      supported clk_id = true /\ exists rd old, user_tp = UPtr rd true old)
  /\ (fst r <> 0 -> snd r = user_tp)
  /\ (forall rd old,
        fst r = 0 -> user_tp = UPtr rd true old ->
        snd r = UPtr rd true
                  (clock_value TS_SCALE time_t_bits long_bits ticks_bits
                     total_ticks st clk_id)).
Proof.
  unfold sys_clock_gettime, EINVAL, EFAULT.
  destruct clk_id, user_tp as [| rd [|] old];
    cbn [fst snd Select.is_null Select.copy_to_user supported clock_value
         Clock.monotonic_time_get_timespec Z.opp];
    unfold Clock.monotonic_time_get_timespec;
    by_cases.
Qed.

(** [sys_clock_getres] reports one tick, [BILLION / TIMER_HZ] nanoseconds,
    for each of the seven ids and [-EINVAL] for any other; it does not
    test its pointer, so that a [NULL] pointer with a supported id is a
    failed copy, [-EFAULT], where [sys_clock_gettime] answers [-EINVAL]. *)
Theorem sys_clock_getres_tick (clk_id : clockid_t)
    (user_res : user_ptr Clock.timespec) :
  0 < TIMER_HZ <= Clock.BILLION ->
  32 <= long_bits ->
  let r := sys_clock_getres TIMER_HZ long_bits clk_id user_res in
  let res := Clock.BILLION / TIMER_HZ in
  res * TIMER_HZ <= Clock.BILLION < (res + 1) * TIMER_HZ
  /\ (supported clk_id = false -> r = (- EINVAL, user_res))
  /\ (supported clk_id = true ->
      match user_res with
      | UPtr rd true _ => r = (0, UPtr rd true (Clock.mk_timespec 0 res))
      | _ => r = (- EFAULT, user_res)
      end).
Proof.
  intros HZ Hlong r res. subst r res. unfold Clock.BILLION in *.
  assert (Hl : 2 ^ 31 <= 2 ^ (long_bits - 1)) by (apply pow2_le_mono; lia).
  assert (H31 : 2 ^ 31 = 2147483648) by reflexivity.
  assert (Hq : 1 <= 1000000000 / TIMER_HZ <= 1000000000).
  { split; [apply Z.div_le_lower_bound; lia |].
    apply Z.div_le_upper_bound; nia. }
  assert (Hv : wrap_s long_bits (s32 (1000000000 ÷ TIMER_HZ))
               = 1000000000 / TIMER_HZ).
  { rewrite quot_div_pos by lia. rewrite s32_small by lia.
    apply wrap_s_small; lia. }
  split; [| split].
  - pose proof (Z.mul_div_le 1000000000 TIMER_HZ ltac:(lia)).
    pose proof (Z.mul_succ_div_gt 1000000000 TIMER_HZ ltac:(lia)). lia.
  - destruct clk_id; cbn [supported]; intros H; try discriminate H.
    reflexivity.
  - unfold sys_clock_getres, Clock.BILLION. rewrite Hv.
    destruct clk_id; cbn [supported]; intros H; try discriminate H;
      destruct user_res as [| rd [|] old]; reflexivity.
Qed.

(** [sys_gettimeofday] stores the seconds of [get_timestamp] and the
    microseconds of the current second, a value below 10^6, and zeros for
    the time zone; a [NULL] pointer is skipped; the time zone is not
    written when the copy of the time fails. *)
Theorem sys_gettimeofday_value (st : Clock.time_state)
    (user_tv : user_ptr Select.timeval) (user_tz : user_ptr timezone) :
  0 < TS_SCALE <= Clock.BILLION ->
  0 <= Clock.__time_ns st < 2 ^ 64 ->
  0 <= Clock.boot_timestamp st ->
  0 < time_t_bits <= 64 ->
  32 <= long_bits ->
  Clock.boot_timestamp st + Clock.__time_ns st / TS_SCALE
    < 2 ^ (time_t_bits - 1) ->
  let secs := Clock.boot_timestamp st + Clock.__time_ns st / TS_SCALE in
  let usec :=
    (Clock.__time_ns st mod TS_SCALE) * (Clock.BILLION / TS_SCALE) / 1000 in
  let tv := mk_timeval secs usec in
  let r := sys_gettimeofday TS_SCALE time_t_bits long_bits st user_tv user_tz in
  secs = Clock.get_timestamp TS_SCALE st
  /\ 0 <= usec < 1000000
  /\ match user_tv with
     | UNull | UPtr _ true _ =>
         snd (fst r) =
           match user_tv with
           | UNull => UNull
           | UPtr rd w _ => UPtr rd w tv
           end
         /\ match user_tz with
            | UNull => r = (0, snd (fst r), UNull)
            | UPtr rd true _ =>
                r = (0, snd (fst r), UPtr rd true (mk_timezone 0 0))
            | UPtr _ false _ => r = (- EFAULT, snd (fst r), user_tz)
            end
     | UPtr _ false _ => r = (- EFAULT, user_tv, user_tz)
     end.
Proof.
  intros HTS Ht Hboot Hbits Hlong Hfit secs usec tv r.
  unfold Clock.BILLION in HTS.
  set (t := Clock.__time_ns st) in *. set (b := Clock.boot_timestamp st) in *.
  assert (Hq : 0 <= t / TS_SCALE < 2 ^ 64).
  { split; [apply Z.div_pos; lia |].
    apply Z.div_lt_upper_bound; [lia |]. nia. }
  assert (Hp : 2 ^ (time_t_bits - 1) <= 2 ^ 63) by (apply pow2_le_mono; lia).
  assert (Hp0 : 0 < 2 ^ (time_t_bits - 1)) by (apply Z.pow_pos_nonneg; lia).
  assert (H63 : 2 ^ 63 = 9223372036854775808) by reflexivity.
  assert (H64 : 2 ^ 64 = 18446744073709551616) by reflexivity.
  assert (Hl : 2 ^ 31 <= 2 ^ (long_bits - 1)) by (apply pow2_le_mono; lia).
  assert (H31 : 2 ^ 31 = 2147483648) by reflexivity.
  pose proof (Z.mod_pos_bound t TS_SCALE ltac:(lia)) as Hm.
  destruct (nsec_rescale TS_SCALE long_bits (t mod TS_SCALE)
              ltac:(unfold INT_MAX; lia) Hlong Hm) as (Hns & Hr & Hb & _).
  specialize (Hb ltac:(unfold Clock.BILLION; lia)).
  assert (Hleb : (TS_SCALE <=? Clock.BILLION) = true)
    by (apply Z.leb_le; unfold Clock.BILLION; lia).
  rewrite Hleb in Hns, Hr, Hb.
  set (ns := (t mod TS_SCALE) * (Clock.BILLION / TS_SCALE)) in *.
  unfold Clock.BILLION in Hb.
  assert (Hus : 0 <= ns / 1000 < 1000000).
  { split; [apply Z.div_pos; lia | apply Z.div_lt_upper_bound; lia]. }
  assert (Hsec : Clock.tv_sec
                   (Clock.real_time_get_timespec TS_SCALE time_t_bits
                      long_bits st) = secs).
  { unfold Clock.real_time_get_timespec, Clock.get_sys_time. fold t b.
    cbn [Clock.tv_sec]. rewrite u64_small by lia.
    rewrite (wrap_s_small time_t_bits b) by lia.
    rewrite (wrap_s_small time_t_bits (t / TS_SCALE)) by lia.
    apply wrap_s_small; subst secs; lia. }
  assert (Hnsec : Clock.tv_nsec
                    (Clock.real_time_get_timespec TS_SCALE time_t_bits
                       long_bits st) = ns).
  { unfold Clock.real_time_get_timespec, Clock.get_sys_time. fold t.
    cbn [Clock.tv_nsec]. rewrite Hleb. exact Hns. }
  assert (Htv : mk_timeval
                  (Clock.tv_sec
                     (Clock.real_time_get_timespec TS_SCALE time_t_bits
                        long_bits st))
                  (wrap_s long_bits
                     (Clock.tv_nsec
                        (Clock.real_time_get_timespec TS_SCALE time_t_bits
                           long_bits st) ÷ 1000)) = tv).
  { rewrite Hsec, Hnsec. rewrite quot_div_pos by lia.
    rewrite wrap_s_small by lia. reflexivity. }
  split; [| split; [exact Hus |]].
  - unfold Clock.get_timestamp, Clock.get_sys_time. fold t b.
    rewrite u64_small by lia. rewrite (s64_small (t / TS_SCALE)) by lia.
    symmetry. apply s64_small. subst secs. lia.
  - subst r. unfold sys_gettimeofday. rewrite Htv.
    destruct user_tv as [| rd [|] old], user_tz as [| rd' [|] old'];
      cbn; auto.
Qed.

(** [task_cpu_get_timespec]: the seconds are the whole seconds of
    [total_ticks * __tick_duration], the nanoseconds are below [BILLION],
    and the two together are that time exactly when [TS_SCALE] divides
    [BILLION]; this holds as long as the product fits the type of
    [total_ticks]. *)
Theorem task_cpu_get_timespec_exact (total_ticks : Z) (st : Clock.time_state) :
  0 < TS_SCALE <= Clock.BILLION ->
  0 < time_t_bits <= 64 ->
  32 <= long_bits ->
  32 <= ticks_bits <= 64 ->
  0 <= total_ticks ->
  0 <= Clock.__tick_duration st ->
  let tot := total_ticks * Clock.__tick_duration st in
  tot < 2 ^ ticks_bits ->
  tot / TS_SCALE < 2 ^ (time_t_bits - 1) ->
  let tp :=
    task_cpu_get_timespec TS_SCALE time_t_bits long_bits ticks_bits
      total_ticks st in
  Clock.tv_sec tp = tot / TS_SCALE
  /\ 0 <= Clock.tv_nsec tp < Clock.BILLION
  /\ (Clock.BILLION mod TS_SCALE = 0 ->
      Clock.tv_sec tp * Clock.BILLION + Clock.tv_nsec tp
      = tot * (Clock.BILLION / TS_SCALE)).
Proof.
  intros HTS Hbits Hlong Hticks Hn Hd tot Htot Hfit tp. subst tp.
  assert (Htot0 : 0 <= tot) by (subst tot; nia).
  assert (Hmax : Z.max ticks_bits 32 = ticks_bits) by lia.
  assert (Hp64 : 2 ^ ticks_bits <= 2 ^ 64) by (apply pow2_le_mono; lia).
  assert (H64 : 2 ^ 64 = 18446744073709551616) by reflexivity.
  assert (Hp : 2 ^ (time_t_bits - 1) <= 2 ^ 63) by (apply pow2_le_mono; lia).
  assert (Hp0 : 0 < 2 ^ (time_t_bits - 1)) by (apply Z.pow_pos_nonneg; lia).
  assert (H63 : 2 ^ 63 = 9223372036854775808) by reflexivity.
  pose proof (Z.mod_pos_bound tot TS_SCALE ltac:(lia)) as Hm.
  assert (Hq : 0 <= tot / TS_SCALE) by (apply Z.div_pos; lia).
  unfold task_cpu_get_timespec. fold tot. rewrite Hmax.
  rewrite (wrap_u_small ticks_bits tot) by lia.
  rewrite (u64_small tot) by lia.
  cbn [Clock.tv_sec Clock.tv_nsec].
  destruct (nsec_rescale TS_SCALE long_bits (tot mod TS_SCALE)
              ltac:(unfold INT_MAX, Clock.BILLION in *; lia) Hlong Hm)
    as (Hns & Hr & Hb & Hex).
  rewrite Hns.
  rewrite (u64_small (tot / TS_SCALE)) by lia.
  rewrite (wrap_s_small time_t_bits (tot / TS_SCALE)) by lia.
  destruct (Z.leb_spec TS_SCALE Clock.BILLION) as [_ | Hgt]; [| lia].
  split; [reflexivity |]. split; [lia |].
  intros Hdiv. specialize (Hex Hdiv).
  pose proof (Z.div_mod tot TS_SCALE ltac:(lia)) as Hdm.
  apply Z.div_exact in Hdiv; [| lia].
  set (k := Clock.BILLION / TS_SCALE) in *.
  set (ns := (tot mod TS_SCALE) * k) in *.
  assert (Hnsk : ns = (tot mod TS_SCALE) * k) by reflexivity.
  nia.
Qed.


End Knobs.

(** At 100 Hz the resolution is 10 ms. *)
Lemma sys_clock_getres_tick_witness :
  let r :=
    sys_clock_getres 100 32 CLOCK_MONOTONIC
      (UPtr true true (Clock.mk_timespec 7 7)) in
  let res := Clock.BILLION / 100 in
  res * 100 <= Clock.BILLION < (res + 1) * 100
  /\ (supported CLOCK_MONOTONIC = false ->
      r = (- EINVAL, UPtr true true (Clock.mk_timespec 7 7)))
  /\ (supported CLOCK_MONOTONIC = true ->
      r = (0, UPtr true true (Clock.mk_timespec 0 res))).
Proof.
  apply (sys_clock_getres_tick 100 32 CLOCK_MONOTONIC
           (UPtr true true (Clock.mk_timespec 7 7)));
    [unfold Clock.BILLION; lia | lia].
Defined.

(** 2.5 seconds after a boot at timestamp 100. *)
Lemma sys_gettimeofday_value_witness :
  let st := Clock.mk_time_state 2500000000 10000000 0 0 100 in
  let r :=
    sys_gettimeofday 1000000000 32 32 st
      (UPtr true true (mk_timeval 0 0)) UNull in
  102 = Clock.get_timestamp 1000000000 st
  /\ 0 <= 500000 < 1000000
  /\ snd (fst r) = UPtr true true (mk_timeval 102 500000)
  /\ r = (0, snd (fst r), UNull).
Proof.
  apply (sys_gettimeofday_value 1000000000 32 32
           (Clock.mk_time_state 2500000000 10000000 0 0 100)
           (UPtr true true (mk_timeval 0 0)) UNull);
    vm_compute; intuition congruence.
Defined.

(** 250 ticks of 10 ms. *)
Lemma task_cpu_get_timespec_exact_witness :
  let st := Clock.mk_time_state 0 10000000 0 0 100 in
  let tp := task_cpu_get_timespec 1000000000 32 32 64 250 st in
  Clock.tv_sec tp = 2500000000 / 1000000000
  /\ 0 <= Clock.tv_nsec tp < Clock.BILLION
  /\ (Clock.BILLION mod 1000000000 = 0 ->
      Clock.tv_sec tp * Clock.BILLION + Clock.tv_nsec tp
      = 2500000000 * (Clock.BILLION / 1000000000)).
Proof.
  apply (task_cpu_get_timespec_exact 1000000000 32 32 64 250
           (Clock.mk_time_state 0 10000000 0 0 100));
    vm_compute; intuition congruence.
Defined.

End ClockSysSpec.

(** ** PCI configuration accesses through the I/O ports *)

Module PciConfigSpec.
Import Int IntFacts Pci PciMore.

(** Bits that do not overlap: [lor] is a sum. *)
Lemma lor_add_disjoint (hi lo s : Z) :
  0 <= s -> 0 <= lo < 2 ^ s -> Z.lor (hi * 2 ^ s) lo = hi * 2 ^ s + lo.
Proof.
  intros Hs Hlo.
  assert (Hl : Z.land (hi * 2 ^ s) lo = 0).
  { apply Z.bits_inj'. intros n Hn. rewrite Z.land_spec, Z.bits_0.
    destruct (Z.lt_ge_cases n s) as [Hlt | Hge].
    - rewrite Z.mul_pow2_bits_low by lia. reflexivity.
    - destruct (Z.eq_dec lo 0) as [-> | Hnz].
      + rewrite Z.bits_0. apply andb_false_r.
      + rewrite (Z.bits_above_log2 lo n); [apply andb_false_r | lia |].
        apply Z.log2_lt_pow2; [lia |].
        apply Z.lt_le_trans with (2 ^ s); [lia |].
        apply Z.pow_le_mono_r; lia. }
  rewrite <- Z.lxor_lor by exact Hl. symmetry.
  apply Z.add_nocarry_lxor. exact Hl.
Qed.

Lemma land_low_mask (x k : Z) (m : Z) :
  0 <= k -> m = 2 ^ k - 1 -> Z.land x m = x mod 2 ^ k.
Proof.
  intros Hk ->. rewrite <- Z.land_ones by exact Hk.
  rewrite Z.ones_equiv. reflexivity.
Qed.

(** The offset once its two low bits are cleared. *)
Lemma aligned_offset (off : Z) :
  0 <= off < 2 ^ 32 -> Z.land off (u32 (Z.lnot 3)) = off - off mod 4.
Proof.
  intros Hoff. unfold u32, wrap_u.
  rewrite <- (Z.land_ones (Z.lnot 3) 32) by lia.
  rewrite (Z.land_comm (Z.lnot 3)), Z.land_assoc.
  rewrite (Z.land_ones off 32), Z.mod_small by lia.
  rewrite <- Z.ldiff_land. change 3 with (Z.ones 2).
  rewrite Z.ldiff_ones_r by lia.
  rewrite Z.shiftr_div_pow2, Z.shiftl_mul_pow2 by lia.
  change (2 ^ 2) with 4. pose proof (Z.div_mod off 4 ltac:(lia)). lia.
Qed.

(** The address latched for a location whose fields are in range is the
    sum of the enable bit and the four fields. *)
Lemma config_addr_sum (loc : pci_device_loc) (off : Z) :
  0 <= bus loc < 256 -> 0 <= dev loc < 32 -> 0 <= func loc < 8 ->
  0 <= off < 256 ->
  config_addr loc off =
    2 ^ 31 + bus loc * 2 ^ 16 + dev loc * 2 ^ 11 + func loc * 2 ^ 8
    + (off - off mod 4).
Proof.
  intros Hb Hd Hf Ho. unfold config_addr.
  assert (H32 : 2 ^ 32 = 4294967296) by reflexivity.
  rewrite aligned_offset by lia.
  rewrite !Z.shiftl_mul_pow2 by lia.
  pose proof (Z.mod_pos_bound off 4 ltac:(lia)) as Hm.
  pose proof (Z.mod_le off 4 ltac:(lia) ltac:(lia)) as Hle.
  change (2 ^ 31) with 2147483648. change (2 ^ 16) with 65536.
  change (2 ^ 11) with 2048. change (2 ^ 8) with 256.
  rewrite !u32_small by lia.
  replace (Z.lor 2147483648 (bus loc * 65536))
    with ((32768 + bus loc) * 2 ^ 16).
  2:{ change 2147483648 with (128 * 2 ^ 24).
      rewrite lor_add_disjoint by (change (2 ^ 24) with 16777216; lia).
      change (2 ^ 24) with 16777216. change (2 ^ 16) with 65536. lia. }
  rewrite lor_add_disjoint by (change (2 ^ 16) with 65536; lia).
  replace ((32768 + bus loc) * 2 ^ 16 + dev loc * 2048)
    with (((32768 + bus loc) * 32 + dev loc) * 2 ^ 11)
    by (change (2 ^ 16) with 65536; change (2 ^ 11) with 2048; lia).
  rewrite lor_add_disjoint by (change (2 ^ 11) with 2048; lia).
  replace (((32768 + bus loc) * 32 + dev loc) * 2 ^ 11 + func loc * 256)
    with ((((32768 + bus loc) * 32 + dev loc) * 8 + func loc) * 2 ^ 8)
    by (change (2 ^ 11) with 2048; change (2 ^ 8) with 256; lia).
  rewrite lor_add_disjoint by (change (2 ^ 8) with 256; lia).
  change (2 ^ 8) with 256. lia.
Qed.

(** The address that the I/O-port backend writes to [PCI_CONFIG_ADDRESS]
    for a location whose fields are in range and an offset below 256 has
    its enable bit set, and the bus, the device, the function and the
    offset of the 32-bit register are read back from their bit fields. *)
Theorem config_addr_fields (loc : pci_device_loc) (off : Z) :
  0 <= bus loc < 256 -> 0 <= dev loc < 32 -> 0 <= func loc < 8 ->
  0 <= off < 256 ->
  let addr := config_addr loc off in
  0 <= addr < 2 ^ 32
  /\ Z.testbit addr 31 = true
  /\ Z.land (Z.shiftr addr 16) 0xff = bus loc
  /\ Z.land (Z.shiftr addr 11) 0x1f = dev loc
  /\ Z.land (Z.shiftr addr 8) 0x7 = func loc
  /\ Z.land addr 0xff = off - off mod 4
  /\ Z.land addr 3 = 0.
Proof.
  intros Hb Hd Hf Ho addr. subst addr.
  rewrite config_addr_sum by assumption.
  pose proof (Z.mod_pos_bound off 4 ltac:(lia)) as Hm.
  pose proof (Z.div_mod off 4 ltac:(lia)) as Hdm.
  set (a := off - off mod 4) in *.
  change (2 ^ 31) with 2147483648. change (2 ^ 16) with 65536.
  change (2 ^ 11) with 2048. change (2 ^ 8) with 256.
  change (2 ^ 32) with 4294967296.
  set (addr := 2147483648 + bus loc * 65536 + dev loc * 2048
               + func loc * 256 + a).
  assert (Hr : 0 <= addr < 4294967296) by (subst addr; lia).
  rewrite !Z.shiftr_div_pow2 by lia.
  rewrite (land_low_mask _ 8 0xff) by (reflexivity || lia).
  rewrite (land_low_mask _ 5 0x1f) by (reflexivity || lia).
  rewrite (land_low_mask _ 3 0x7) by (reflexivity || lia).
  rewrite (land_low_mask addr 8 0xff) by (reflexivity || lia).
  rewrite (land_low_mask addr 2 3) by (reflexivity || lia).
  change (2 ^ 16) with 65536. change (2 ^ 11) with 2048.
  change (2 ^ 8) with 256. change (2 ^ 5) with 32.
  change (2 ^ 3) with 8. change (2 ^ 2) with 4.
  split; [exact Hr |]. split.
  - rewrite Z.testbit_true by lia. change (2 ^ 31) with 2147483648.
    subst addr. Z.div_mod_to_equations. lia.
  - subst addr a. repeat split; Z.div_mod_to_equations; lia.
Qed.

Lemma config_addr_fields_witness :
  let addr := config_addr (mk_loc 0 3 2 1) 0x19 in
  0 <= addr < 2 ^ 32
  /\ Z.testbit addr 31 = true
  /\ Z.land (Z.shiftr addr 16) 0xff = 3
  /\ Z.land (Z.shiftr addr 11) 0x1f = 2
  /\ Z.land (Z.shiftr addr 8) 0x7 = 1
  /\ Z.land addr 0xff = 0x19 - 0x19 mod 4
  /\ Z.land addr 3 = 0.
Proof.
  apply (config_addr_fields (mk_loc 0 3 2 1) 0x19); cbn; lia.
Defined.

Section Legacy.

Variable port_in : Z -> Z -> Z -> Z.

(** How an access through the I/O ports goes, for an offset that is a
    [u32]: it is refused before any port is touched; or the address is
    latched and the datum of 8, 16 or 32 bits is transferred at the data
    port of its byte lane; or the address is latched and the width is then
    found invalid. *)
Lemma ioport_access_cases (loc : pci_device_loc) (off width val : Z) :
  0 <= off < 2 ^ 32 ->
  let addr := config_addr loc off in
  (pci_ioport_config_read port_in loc off width = (- EINVAL, None)
   /\ pci_ioport_config_write loc off width val = (- EINVAL, [])
   /\ (seg loc <> 0 \/ 256 <= off
       \/ ((width = 16 \/ width = 32) /\ off mod (width / 8) <> 0)
       \/ ~ (width = 8 \/ width = 16 \/ width = 32)))
  \/ (pci_ioport_config_read port_in loc off width
      = (0, Some (wrap_u width (port_in addr (data_port off) width)))
      /\ pci_ioport_config_write loc off width val
         = (0, [Outl PCI_CONFIG_ADDRESS addr;
                data_write width (data_port off) val])
      /\ seg loc = 0 /\ off < 256
      /\ (width = 8 \/ width = 16 \/ width = 32)
      /\ off mod (width / 8) = 0)
  \/ (pci_ioport_config_read port_in loc off width = (- EINVAL, None)
      /\ pci_ioport_config_write loc off width val
         = (- EINVAL, [Outl PCI_CONFIG_ADDRESS addr])
      /\ seg loc = 0 /\ off < 256
      /\ ~ (width = 8 \/ width = 16 \/ width = 32)).
Proof.
  intros Hoff addr. subst addr.
  unfold pci_ioport_config_read, pci_ioport_config_write, data_write.
  destruct (Z.eqb_spec (seg loc) 0) as [Hs | Hs]; cbn [negb];
    [| left; repeat split; left; exact Hs].
  destruct (Z.leb_spec 256 off) as [Ho | Ho]; cbn [orb];
    [left; repeat split; right; left; exact Ho |].
  assert (Hmask : forall n m,
            0 <= n -> m = Z.ones n ->
            (Z.land off m =? 0) = (off mod 2 ^ n =? 0))
    by (intros n m Hn ->; rewrite Z.land_ones by exact Hn; reflexivity).
  destruct (Z.eqb_spec width 8) as [-> | H8].
  { change (u32 (Z.shiftr 8 3 - 1)) with 0. rewrite Z.land_0_r.
    cbn [Z.eqb negb]. right. left. change (8 / 8) with 1.
    rewrite Z.mod_1_r. repeat split; auto. }
  destruct (Z.eqb_spec width 16) as [-> | H16].
  { change (u32 (Z.shiftr 16 3 - 1)) with 1.
    rewrite (Hmask 1 1) by (reflexivity || lia).
    change (16 / 8) with 2. change (2 ^ 1) with 2.
    destruct (Z.eqb_spec (off mod 2) 0) as [Hm | Hm]; cbn [negb Z.eqb].
    - right. left. repeat split; auto.
    - left. repeat split. right. right. left. split; [left |]; auto. }
  destruct (Z.eqb_spec width 32) as [-> | H32].
  { change (u32 (Z.shiftr 32 3 - 1)) with 3.
    rewrite (Hmask 2 3) by (reflexivity || lia).
    change (32 / 8) with 4. change (2 ^ 2) with 4.
    destruct (Z.eqb_spec (off mod 4) 0) as [Hm | Hm]; cbn [negb Z.eqb].
    - right. left. repeat split; auto.
    - left. repeat split. right. right. left. split; [right |]; auto. }
  assert (Hw : ~ (width = 8 \/ width = 16 \/ width = 32)) by intuition lia.
  destruct (negb (Z.land off (u32 (Z.shiftr width 3 - 1)) =? 0)).
  - left. repeat split. right. right. right. exact Hw.
  - right. right. repeat split; auto.
Qed.

Lemma data_port_lane (off : Z) :
  0 <= off -> data_port off = PCI_CONFIG_DATA + off mod 4.
Proof.
  intros Hoff. unfold data_port, PCI_CONFIG_DATA.
  change 3 with (Z.ones 2). rewrite Z.land_ones by lia.
  change (2 ^ 2) with 4.
  pose proof (Z.mod_pos_bound off 4 ltac:(lia)).
  unfold u16. apply wrap_u_small; [lia |]. change (2 ^ 16) with 65536. lia.
Qed.

(** A datum of [width] bits at an offset that is a multiple of its size
    lies inside the four bytes of the data register. *)
Lemma lane_fits (off width : Z) :
  0 <= off ->
  width = 8 \/ width = 16 \/ width = 32 ->
  off mod (width / 8) = 0 ->
  off mod 4 + width / 8 <= 4.
Proof.
  intros Hoff [-> | [-> | ->]] Hm.
  - change (8 / 8) with 1. pose proof (Z.mod_pos_bound off 4 ltac:(lia)). lia.
  - change (16 / 8) with 2 in *. Z.div_mod_to_equations. lia.
  - change (32 / 8) with 4 in *. lia.
Qed.

(** A read through the I/O ports that succeeds returns what the hardware
    answers at the data port of the byte lane of the offset, truncated to
    the width asked; the datum does not cross the end of the data
    register.  A read that fails stores nothing. *)
Theorem ioport_read_value (loc : pci_device_loc) (off width : Z) :
  0 <= off < 2 ^ 32 ->
  let r := pci_ioport_config_read port_in loc off width in
  (fst r <> 0 -> snd r = None)
  /\ (fst r = 0 ->
      (width = 8 \/ width = 16 \/ width = 32)
      /\ data_port off = PCI_CONFIG_DATA + off mod 4
      /\ off mod 4 + width / 8 <= 4
      /\ snd r =
           Some (port_in (config_addr loc off) (data_port off) width
                 mod 2 ^ width)
      /\ exists v, snd r = Some v /\ 0 <= v < 2 ^ width).
Proof.
  intros Hoff r. subst r.
  destruct (ioport_access_cases loc off width 0 Hoff)
    as [(-> & _) | [(-> & _ & Hs & Ho & Hw & Hm) | (-> & _)]];
    cbn [fst snd]; unfold EINVAL.
  - split; [reflexivity | intros H; discriminate H].
  - split; [intros H; contradiction H; reflexivity | intros _].
    split; [exact Hw |]. split; [apply data_port_lane; lia |].
    split; [apply lane_fits; [lia | exact Hw | exact Hm] |].
    split; [reflexivity |]. eexists. split; [reflexivity |].
    apply wrap_u_range. destruct Hw as [-> | [-> | ->]]; lia.
  - split; [reflexivity | intros H; discriminate H].
Qed.

(** A write through the I/O ports that succeeds latches the address and
    then writes the value, truncated to the width, at the data port of the
    byte lane.  A write that fails never writes a datum, and touches no
    port at all when the segment or the offset is refused.  No access is
    made to a port outside [0xcf8 .. 0xcff]. *)
Theorem ioport_write_ports (loc : pci_device_loc) (off width val : Z) :
  0 <= off < 2 ^ 32 ->
  let r := pci_ioport_config_write loc off width val in
  let latch := Outl PCI_CONFIG_ADDRESS (config_addr loc off) in
  (fst r = 0 ->
   snd r = [latch; data_write width (PCI_CONFIG_DATA + off mod 4) val])
  /\ (fst r <> 0 -> snd r = [] \/ snd r = [latch])
  /\ (seg loc <> 0 \/ 256 <= off -> snd r = [])
  /\ Forall (fun w => Forall (fun p => 0xcf8 <= p <= 0xcff) (ports_of w))
        (snd r).
Proof.
  intros Hoff r latch. subst r latch.
  destruct (ioport_access_cases loc off width val Hoff)
    as [(_ & -> & _) | [(_ & -> & Hs & Ho & Hw & Hm) | (_ & -> & Hs & Ho & _)]];
    cbn [fst snd]; unfold EINVAL.
  - repeat split; auto. intros H; discriminate H.
  - pose proof (lane_fits off width ltac:(lia) Hw Hm) as Hfit.
    pose proof (Z.mod_pos_bound off 4 ltac:(lia)) as Hlane.
    rewrite data_port_lane by lia.
    split; [reflexivity |].
    split; [intros H; contradiction H; reflexivity |].
    split; [intros [H | H]; [contradiction | lia] |].
    unfold PCI_CONFIG_ADDRESS, PCI_CONFIG_DATA, data_write.
    destruct Hw as [-> | [-> | ->]]; cbn [Z.eqb Pos.eqb ports_of] in *;
      change (8 / 8) with 1 in *; change (16 / 8) with 2 in *;
      change (32 / 8) with 4 in *;
      repeat (constructor; try lia).
  - split; [intros H; discriminate H |].
    split; [right; reflexivity |].
    split; [intros [H | H]; [contradiction | lia] |].
    unfold PCI_CONFIG_ADDRESS. repeat (constructor; cbn; try lia).
Qed.

End Legacy.

(** The 16-bit device id of the host controller of [single_hw], read at
    offset 2: the upper half of the first register, at port [0xcfe]. *)
Lemma ioport_read_value_witness :
  let r := pci_ioport_config_read single_hw (mk_loc 0 0 0 0) 2 16 in
  (fst r <> 0 -> snd r = None)
  /\ (fst r = 0 ->
      (16 = 8 \/ 16 = 16 \/ 16 = 32)
      /\ data_port 2 = PCI_CONFIG_DATA + 2 mod 4
      /\ 2 mod 4 + 16 / 8 <= 4
      /\ snd r =
           Some (single_hw (config_addr (mk_loc 0 0 0 0) 2) (data_port 2) 16
                 mod 2 ^ 16)
      /\ exists v, snd r = Some v /\ 0 <= v < 2 ^ 16).
Proof.
  apply (ioport_read_value single_hw (mk_loc 0 0 0 0) 2 16). lia.
Defined.

(** A byte written at offset [0x3d] of 00:03.0 goes to port [0xcfd]. *)
Lemma ioport_write_ports_witness :
  let r := pci_ioport_config_write (mk_loc 0 0 3 0) 0x3d 8 0x0b in
  let latch := Outl PCI_CONFIG_ADDRESS (config_addr (mk_loc 0 0 3 0) 0x3d) in
  (fst r = 0 ->
   snd r = [latch; data_write 8 (PCI_CONFIG_DATA + 0x3d mod 4) 0x0b])
  /\ (fst r <> 0 -> snd r = [] \/ snd r = [latch])
  /\ (seg (mk_loc 0 0 3 0) <> 0 \/ 256 <= 0x3d -> snd r = [])
  /\ Forall (fun w => Forall (fun p => 0xcf8 <= p <= 0xcff) (ports_of w))
        (snd r).
Proof.
  apply (ioport_write_ports single_hw (mk_loc 0 0 3 0) 0x3d 8 0x0b). lia.
Defined.

End PciConfigSpec.

(** ** What the PCI enumeration probes and reports *)

Module PciScanSpec.
Import Int IntFacts Pci PciMore PciSpec.

Lemma probed_app (l1 l2 : list pci_event) :
  probed (l1 ++ l2) = probed l1 ++ probed l2.
Proof. apply flat_map_app. Qed.

Lemma reported_app (l1 l2 : list pci_event) :
  reported (l1 ++ l2) = reported l1 ++ reported l2.
Proof. apply flat_map_app. Qed.

(** What the bus array holds for a bus after [pci_mark_bus_to_visit]. *)
Lemma get_bus_mark (b m : Z) (st : pci_state) :
  0 <= b -> 0 <= m ->
  get_bus m (pci_mark_bus_to_visit b st) =
    if (m =? b)
    then match get_bus b st with
         | Some BUS_NOT_VISITED => Some BUS_TO_VISIT
         | s => s
         end
    else get_bus m st.
Proof.
  intros Hb Hm. unfold get_bus at 1. rewrite mark_bus_to_visit_buses.
  destruct (Z.eqb_spec m b) as [-> | Hne].
  - unfold get_bus.
    destruct (pci_buses st !! Z.to_nat b) as [[| |] |] eqn:E;
      try (rewrite E; reflexivity).
    apply list_lookup_insert_eq. apply lookup_lt_Some in E. exact E.
  - assert (Hn : Z.to_nat b <> Z.to_nat m) by lia.
    unfold get_bus.
    destruct (pci_buses st !! Z.to_nat b) as [[| |] |]; try reflexivity.
    apply list_lookup_insert_ne. exact Hn.
Qed.

(** The loop that marks the buses behind a bridge logs one call of
    [pci_mark_bus_to_visit] for each bus of the range, in increasing
    order, and promotes the buses of the range that were [BUS_NOT_VISITED]
    to [BUS_TO_VISIT]. *)
Lemma mark_loop_range (n : nat) :
  forall i st,
    0 <= i -> i + Z.of_nat n <= 256 ->
    pci_log (mark_loop n i st)
    = map EvMarked (rev (seqZ i (Z.of_nat n))) ++ pci_log st
    /\ forall m,
         0 <= m ->
         get_bus m (mark_loop n i st) =
           if (i <=? m) && (m <? i + Z.of_nat n)
           then match get_bus m st with
                | Some BUS_NOT_VISITED => Some BUS_TO_VISIT
                | s => s
                end
           else get_bus m st.
Proof.
  induction n as [| n IH]; intros i st Hi Hn.
  - split; [reflexivity |]. intros m Hm. cbn [mark_loop].
    destruct (Z.leb_spec i m), (Z.ltb_spec m (i + Z.of_nat 0));
      cbn [andb]; try reflexivity; lia.
  - cbn [mark_loop].
    assert (Hu : u8 i = i).
    { unfold u8. apply wrap_u_small; [lia |]. change (2 ^ 8) with 256. lia. }
    rewrite Hu.
    destruct (IH (i + 1) (pci_mark_bus_to_visit i st) ltac:(lia) ltac:(lia))
      as [Hlog Hbus].
    split.
    + rewrite Hlog.
      replace (Z.of_nat (S n)) with (Z.succ (Z.of_nat n)) by lia.
      rewrite (seqZ_cons i (Z.succ (Z.of_nat n))) by lia.
      rewrite Z.pred_succ. cbn [rev]. rewrite map_app. cbn [map].
      rewrite <- app_assoc. f_equal.
      unfold pci_mark_bus_to_visit.
      destruct (bus_is i BUS_NOT_VISITED (log_event (EvMarked i) st));
        reflexivity.
    + intros m Hm. rewrite (Hbus m Hm), get_bus_mark by lia.
      destruct (Z.eqb_spec m i) as [-> | Hne].
      * destruct (Z.leb_spec (i + 1) i); [lia |]. cbn [andb].
        destruct (Z.leb_spec i i); [| lia].
        destruct (Z.ltb_spec i (i + Z.of_nat (S n))); [| lia].
        reflexivity.
      * destruct (Z.leb_spec (i + 1) m), (Z.leb_spec i m),
          (Z.ltb_spec m (i + 1 + Z.of_nat n)),
          (Z.ltb_spec m (i + Z.of_nat (S n)));
          cbn [andb]; try reflexivity; lia.
Qed.

(** The buses behind a bridge: the range [secondary .. subordinate] read
    from its header is passed to [pci_mark_bus_to_visit] in increasing
    order; the buses of the range that were [BUS_NOT_VISITED] become
    [BUS_TO_VISIT], every other entry of [pci_buses] is left as it was, and
    an empty range ([subordinate < secondary]) changes nothing. *)
Theorem mark_range_buses (secondary_bus subordinate_bus : Z) (st : pci_state) :
  0 <= secondary_bus < 256 ->
  0 <= subordinate_bus < 256 ->
  exists st',
    mark_range secondary_bus subordinate_bus st = Ok st'
    /\ pci_log st'
       = map EvMarked
           (rev (seqZ secondary_bus (subordinate_bus + 1 - secondary_bus)))
         ++ pci_log st
    /\ (forall m,
          0 <= m ->
          get_bus m st' =
            if (secondary_bus <=? m) && (m <=? subordinate_bus)
            then match get_bus m st with
                 | Some BUS_NOT_VISITED => Some BUS_TO_VISIT
                 | s => s
                 end
            else get_bus m st)
    /\ (subordinate_bus < secondary_bus -> st' = st).
Proof.
  intros Hsec Hsub. unfold mark_range.
  destruct (Z.eqb_spec subordinate_bus UINT32_MAX) as [E | _];
    [unfold UINT32_MAX in E; lia |].
  eexists. split; [reflexivity |].
  set (n := Z.to_nat (subordinate_bus + 1 - secondary_bus)).
  destruct (mark_loop_range n secondary_bus st ltac:(lia) ltac:(lia))
    as [Hlog Hbus].
  split; [| split].
  - rewrite Hlog. unfold seqZ. subst n. rewrite Nat2Z.id. reflexivity.
  - intros m Hm. rewrite (Hbus m Hm).
    destruct (Z.leb_spec secondary_bus m),
      (Z.ltb_spec m (secondary_bus + Z.of_nat n)),
      (Z.leb_spec m subordinate_bus); cbn [andb]; try reflexivity; lia.
  - intros Hempty. subst n.
    replace (Z.to_nat (subordinate_bus + 1 - secondary_bus)) with O by lia.
    reflexivity.
Qed.

Lemma mark_range_buses_witness :
  exists st',
    mark_range 1 3 pci_boot_state = Ok st'
    /\ pci_log st'
       = map EvMarked (rev (seqZ 1 (3 + 1 - 1))) ++ pci_log pci_boot_state
    /\ (forall m,
          0 <= m ->
          get_bus m st' =
            if (1 <=? m) && (m <=? 3)
            then match get_bus m pci_boot_state with
                 | Some BUS_NOT_VISITED => Some BUS_TO_VISIT
                 | s => s
                 end
            else get_bus m pci_boot_state)
    /\ (3 < 1 -> st' = pci_boot_state).
Proof. apply (mark_range_buses 1 3 pci_boot_state); lia. Defined.

Section Legacy.

Variable port_in : Z -> Z -> Z -> Z.

(** A byte read through the I/O ports in segment 0 succeeds. *)
Lemma read_byte_ioport (loc : pci_device_loc) (off : Z) :
  seg loc = 0 -> 0 <= off < 256 ->
  read_value port_in IOPORT loc off 8
  = Ok (inr (u8 (port_in (config_addr loc off) (data_port off) 8))).
Proof.
  intros Hs Ho. unfold read_value, pci_config_read, pci_ioport_config_read.
  rewrite Hs. cbn [Z.eqb negb].
  destruct (Z.leb_spec 256 off); [lia |]. cbn [orb].
  change (u32 (Z.shiftr 8 3 - 1)) with 0. rewrite Z.land_0_r.
  reflexivity.
Qed.

(** What [pci_device_get_info] returns through the I/O ports: [-EINVAL]
    outside segment 0, [-ENOENT] when the vendor id answered is 0 or
    [0xffff], and otherwise the three registers. *)
Lemma get_info_ioport_eq (loc : pci_device_loc) :
  pci_device_get_info port_in IOPORT loc =
    if negb (seg loc =? 0) then Ok (inl (- EINVAL))
    else if (hw_vendor port_in loc =? 0xffff) || (hw_vendor port_in loc =? 0)
    then Ok (inl (- ENOENT))
    else
      Ok (inr {| __dev_vendr :=
                   u32 (port_in (config_addr loc PCI_DEV_BASE_INFO)
                          (data_port PCI_DEV_BASE_INFO) 32);
                 __class_info :=
                   u32 (port_in (config_addr loc PCI_CLASS_INFO_OFF)
                          (data_port PCI_CLASS_INFO_OFF) 32);
                 __header_type :=
                   Z.land
                     (u8 (port_in (config_addr loc PCI_HDR_TYPE_OFF)
                            (data_port PCI_HDR_TYPE_OFF) 8)) 0xff |}).
Proof.
  unfold pci_device_get_info, read_value, pci_config_read,
    pci_ioport_config_read, hw_vendor.
  destruct (Z.eqb_spec (seg loc) 0) as [Hs | Hs]; cbn [negb]; [| reflexivity].
  change (256 <=? PCI_DEV_BASE_INFO) with false.
  change (256 <=? PCI_CLASS_INFO_OFF) with false.
  change (256 <=? PCI_HDR_TYPE_OFF) with false.
  change (Z.land PCI_DEV_BASE_INFO (u32 (Z.shiftr 32 3 - 1)) =? 0) with true.
  change (Z.land PCI_CLASS_INFO_OFF (u32 (Z.shiftr 32 3 - 1)) =? 0) with true.
  change (Z.land PCI_HDR_TYPE_OFF (u32 (Z.shiftr 8 3 - 1)) =? 0) with true.
  cbn [orb negb Z.eqb Pos.eqb bind].
  destruct ((Z.land _ 65535 =? 65535) || (Z.land _ 65535 =? 0));
    reflexivity.
Qed.

Lemma present_seg (loc : pci_device_loc) :
  present port_in loc = true -> seg loc = 0.
Proof.
  unfold present. rewrite get_info_ioport_eq.
  destruct (Z.eqb_spec (seg loc) 0) as [Hs | Hs]; cbn [negb];
    [intros _; exact Hs | discriminate].
Qed.

(** [pci_device_get_info] through the I/O ports: outside segment 0 it
    fails with [-EINVAL]; in segment 0 it fails with [-ENOENT] exactly when
    the vendor id answered is 0 or [0xffff], and otherwise succeeds with
    that vendor id and with fields that fit their width. *)
Theorem pci_device_get_info_present (loc : pci_device_loc) :
  let r := pci_device_get_info port_in IOPORT loc in
  (seg loc <> 0 -> r = Ok (inl (- EINVAL)))
  /\ (seg loc = 0 ->
      (hw_vendor port_in loc = 0 \/ hw_vendor port_in loc = 0xffff
       <-> r = Ok (inl (- ENOENT)))
      /\ (hw_vendor port_in loc <> 0 /\ hw_vendor port_in loc <> 0xffff
          <-> exists nfo, r = Ok (inr nfo)))
  /\ (forall nfo,
        r = Ok (inr nfo) ->
        seg loc = 0
        /\ vendor_id nfo = hw_vendor port_in loc
        /\ 0 < vendor_id nfo < 0xffff
        /\ 0 <= device_id nfo < 2 ^ 16
        /\ 0 <= class_id nfo < 2 ^ 8
        /\ 0 <= subclass_id nfo < 2 ^ 8
        /\ 0 <= progif_id nfo < 2 ^ 8
        /\ 0 <= __header_type nfo < 2 ^ 8).
Proof.
  intros r. subst r. rewrite get_info_ioport_eq.
  assert (Hmask : forall x k m,
            0 <= k -> m = Z.ones k -> 0 <= Z.land x m < 2 ^ k).
  { intros x k m Hk ->. rewrite Z.land_ones by exact Hk.
    apply Z.mod_pos_bound. apply Z.pow_pos_nonneg; lia. }
  pose proof (Hmask (u32 (port_in (config_addr loc PCI_DEV_BASE_INFO)
                            (data_port PCI_DEV_BASE_INFO) 32)) 16 0xffff
                ltac:(lia) eq_refl) as Hv.
  fold (hw_vendor port_in loc) in Hv. change (2 ^ 16) with 65536 in Hv.
  destruct (Z.eqb_spec (seg loc) 0) as [Hs | Hs]; cbn [negb].
  2:{ split; [reflexivity |]. split; [contradiction |]. discriminate. }
  split; [contradiction |].
  destruct (Z.eqb_spec (hw_vendor port_in loc) 65535) as [Hf | Hf];
    cbn [orb].
  { split; [| discriminate]. intros _. split.
    - split; [reflexivity | intros _; right; exact Hf].
    - split; [lia | intros [nfo E]; discriminate E]. }
  destruct (Z.eqb_spec (hw_vendor port_in loc) 0) as [H0 | H0].
  { split; [| discriminate]. intros _. split.
    - split; [reflexivity | intros _; left; exact H0].
    - split; [lia | intros [nfo E]; discriminate E]. }
  split.
  - intros _. split.
    + split; [lia | discriminate].
    + split; [intros _; eexists; reflexivity | intros _; lia].
  - intros nfo E. injection E as <-.
    unfold vendor_id, device_id, class_id, subclass_id, progif_id.
    cbn [__dev_vendr __class_info __header_type].
    fold (hw_vendor port_in loc).
    split; [exact Hs |]. split; [reflexivity |]. split; [lia |].
    split; [apply (Hmask _ 16 65535); (lia || reflexivity) |].
    split; [apply (Hmask _ 8 255); (lia || reflexivity) |].
    split; [apply (Hmask _ 8 255); (lia || reflexivity) |].
    split; [apply (Hmask _ 8 255); (lia || reflexivity) |].
    apply (Hmask _ 8 255); (lia || reflexivity).
Qed.

(** Without a device at 00:00.0 the enumeration does nothing: [init_pci]
    without PCI Express segments returns with [pci_buses] and the log as
    they were; no bus is visited, bus 0 included. *)
Theorem init_pci_no_root (fuel : nat) (st : pci_state) :
  hw_vendor port_in (pci_make_loc 0 0 0 0) = 0
  \/ hw_vendor port_in (pci_make_loc 0 0 0 0) = 0xffff ->
  init_pci port_in fuel [] st = Ok st.
Proof.
  intros Hv. cbn [init_pci]. unfold pci_discover_segment.
  rewrite get_info_ioport_eq. change (seg (pci_make_loc 0 0 0 0)) with 0.
  cbn [Z.eqb negb].
  destruct Hv as [-> | ->]; reflexivity.
Qed.

Lemma emits_refl (st : pci_state) : emits st st [] [] [].
Proof. exists []. repeat split. Qed.

Lemma emits_trans (st st1 st2 : pci_state) (sc1 sc2 : list Z)
    (pr1 pr2 rp1 rp2 : list pci_device_loc) :
  emits st st1 sc1 pr1 rp1 -> emits st1 st2 sc2 pr2 rp2 ->
  emits st st2 (sc1 ++ sc2) (pr1 ++ pr2) (rp1 ++ rp2).
Proof.
  intros (n1 & L1 & S1 & P1 & R1) (n2 & L2 & S2 & P2 & R2).
  exists (n2 ++ n1). rewrite L2, L1, app_assoc.
  rewrite scanned_app, probed_app, reported_app, !rev_app_distr.
  subst. repeat split.
Qed.

Lemma emits_event (e : pci_event) (st : pci_state) :
  emits st (log_event e st) (scanned [e]) (probed [e]) (reported [e]).
Proof.
  exists [e]. split; [reflexivity |].
  destruct e; repeat split.
Qed.

Lemma emits_mark_range (secondary_bus subordinate_bus : Z) (st : pci_state) :
  0 <= secondary_bus < 256 -> 0 <= subordinate_bus < 256 ->
  exists st',
    mark_range secondary_bus subordinate_bus st = Ok st'
    /\ emits st st' [] [] [].
Proof.
  intros Hsec Hsub.
  unfold mark_range.
  destruct (Z.eqb_spec subordinate_bus UINT32_MAX) as [E | _];
    [unfold UINT32_MAX in E; lia |].
  eexists. split; [reflexivity |].
  set (n := Z.to_nat (subordinate_bus + 1 - secondary_bus)).
  destruct (mark_loop_range n secondary_bus st ltac:(lia) ltac:(lia))
    as [Hlog _].
  eexists. split; [exact Hlog |].
  generalize (rev (seqZ secondary_bus (Z.of_nat n))). intros l.
  induction l as [| m l IH]; [repeat split |].
  cbn [map scanned probed reported flat_map app]. exact IH.
Qed.

(** [pci_discover_device_func] reports the function when it answers, and
    nothing else; it probes no device and starts no scan. *)
Lemma discover_device_func_emits (loc : pci_device_loc)
    (dev_nfo : option pci_device_basic_info) (st : pci_state) :
  (func loc = 0 ->
   exists nfo,
     dev_nfo = Some nfo
     /\ pci_device_get_info port_in IOPORT loc = Ok (inr nfo)) ->
  exists st',
    pci_discover_device_func port_in IOPORT loc dev_nfo st
    = Ok (present port_in loc, st')
    /\ emits st st' [] []
         (if present port_in loc then [loc] else []).
Proof.
  intros Hnfo. unfold pci_discover_device_func.
  assert (Hr :
    (exists nfo,
       (if negb (func loc =? 0) then pci_device_get_info port_in IOPORT loc
        else match dev_nfo with
             | Some n => Ok (inr n)
             | None => Fault AssertFailed
             end) = Ok (inr nfo)
       /\ present port_in loc = true)
    \/ (exists rc,
          (if negb (func loc =? 0) then pci_device_get_info port_in IOPORT loc
           else match dev_nfo with
                | Some n => Ok (inr n)
                | None => Fault AssertFailed
                end) = Ok (inl rc)
          /\ present port_in loc = false)).
  { destruct (Z.eqb_spec (func loc) 0) as [H0 | H0]; cbn [negb].
    - destruct (Hnfo H0) as (nfo & -> & E). left. exists nfo.
      split; [reflexivity |]. unfold present. rewrite E. reflexivity.
    - unfold present.
      destruct (get_info_ioport port_in loc) as ([rc | nfo] & E); rewrite E;
        [right; exists rc | left; exists nfo]; split; reflexivity. }
  destruct Hr as [(nfo & -> & Hp) | (rc & -> & Hp)]; rewrite Hp; cbn [bind].
  2:{ exists st. split; [reflexivity | apply emits_refl]. }
  pose proof (present_seg loc Hp) as Hs.
  pose proof (emits_event (EvDump loc nfo) st) as Hdump.
  cbn [scanned probed reported flat_map app] in Hdump.
  destruct ((class_id nfo =? PCI_CLASS_BRIDGE)
            && (subclass_id nfo =? PCI_SUBCLASS_PCI_BRIDGE)).
  2:{ eexists. split; [reflexivity | exact Hdump]. }
  rewrite (read_byte_ioport loc PCI_HDR1_SECOND_BUS Hs)
    by (unfold PCI_HDR1_SECOND_BUS; lia).
  cbn [bind].
  rewrite (read_byte_ioport loc PCI_HDR1_SUBORD_BUS Hs)
    by (unfold PCI_HDR1_SUBORD_BUS; lia).
  cbn [bind].
  destruct (emits_mark_range
              (u8 (port_in (config_addr loc PCI_HDR1_SECOND_BUS)
                     (data_port PCI_HDR1_SECOND_BUS) 8))
              (u8 (port_in (config_addr loc PCI_HDR1_SUBORD_BUS)
                     (data_port PCI_HDR1_SUBORD_BUS) 8))
              (log_event (EvDump loc nfo) st))
    as (st' & -> & Hm); try apply u8_bus_number.
  cbn [bind]. exists st'. split; [reflexivity |].
  pose proof (emits_trans _ _ _ _ _ _ _ _ _ Hdump Hm) as Ht.
  cbn [app] in Ht. exact Ht.
Qed.

(** A [for] loop whose body emits, for each value, what [sc], [pr] and
    [rp] say, emits their concatenation. *)
Lemma for_each_emits {A : Type} (body : A -> pci_state -> res pci_state)
    (sc : A -> list Z) (pr rp : A -> list pci_device_loc) (l : list A) :
  (forall a st,
     In a l ->
     exists st', body a st = Ok st' /\ emits st st' (sc a) (pr a) (rp a)) ->
  forall st,
    exists st',
      for_each body l st = Ok st'
      /\ emits st st' (flat_map sc l) (flat_map pr l) (flat_map rp l).
Proof.
  induction l as [| a l IH]; intros Hbody st.
  - exists st. split; [reflexivity | apply emits_refl].
  - destruct (Hbody a st (or_introl eq_refl)) as (st1 & E1 & H1).
    destruct (IH (fun a' s Hin => Hbody a' s (or_intror Hin)) st1)
      as (st2 & E2 & H2).
    exists st2. cbn [for_each flat_map]. rewrite E1. cbn [bind].
    split; [exact E2 |]. eapply emits_trans; eassumption.
Qed.

Lemma set_func_func (loc : pci_device_loc) (f : Z) :
  0 <= f < 8 -> func (set_func loc f) = f.
Proof.
  intros Hf. cbn [set_func func]. apply wrap_u_small; [lia |].
  change (2 ^ 3) with 8. exact Hf.
Qed.

Lemma flat_map_filter {A : Type} (p : A -> bool) (l : list A) :
  flat_map (fun a => if p a then [a] else []) l = List.filter p l.
Proof.
  induction l as [| a l IH]; [reflexivity |].
  cbn [flat_map List.filter]. rewrite IH. destruct (p a); reflexivity.
Qed.

Lemma discover_device_emits (loc : pci_device_loc) (st : pci_state) :
  func loc = 0 ->
  exists st',
    pci_discover_device port_in IOPORT loc st
    = Ok (present port_in loc, st')
    /\ emits st st' [] [loc] (device_functions port_in loc)
    /\ (present port_in loc = false -> st' = log_event (EvProbe loc) st).
Proof.
  intros Hf. unfold pci_discover_device, device_functions.
  rewrite Hf. cbn [Z.eqb negb].
  pose proof (emits_event (EvProbe loc) st) as Hprobe.
  cbn [scanned probed reported flat_map app] in Hprobe.
  unfold present at 1 3.
  destruct (get_info_ioport port_in loc) as ([rc | nfo] & E); rewrite E;
    cbn [bind].
  { eexists. split; [reflexivity |]. split; [exact Hprobe | reflexivity]. }
  assert (Hp : present port_in loc = true)
    by (unfold present; rewrite E; reflexivity).
  destruct (discover_device_func_emits loc (Some nfo)
              (log_event (EvProbe loc) st)) as (st1 & E1 & H1).
  { intros _. exists nfo. split; [reflexivity | exact E]. }
  rewrite E1, Hp. cbn [bind]. rewrite Hp in H1.
  pose proof (emits_trans _ _ _ _ _ _ _ _ _ Hprobe H1) as H01.
  cbn [app] in H01.
  destruct (multi_func nfo).
  2:{ exists st1. split; [reflexivity |].
      split; [exact H01 | discriminate]. }
  destruct (for_each_emits
              (fun f s =>
                 do r <- pci_discover_device_func port_in IOPORT
                           (set_func loc f) None s ; Ok (snd r))
              (fun _ => [])
              (fun _ => [])
              (fun f => if present port_in (set_func loc f)
                        then [set_func loc f] else [])
              (seqZ 1 7)) with (st := st1) as (st2 & E2 & H2).
  { intros f s Hin. apply list_elem_of_In, elem_of_seqZ in Hin.
    destruct (discover_device_func_emits (set_func loc f) None s)
      as (s' & Es & Hs).
    - rewrite set_func_func by lia. lia.
    - rewrite Es. cbn [bind snd]. exists s'. split; [reflexivity | exact Hs]. }
  rewrite E2. cbn [bind]. exists st2. split; [reflexivity |].
  split; [| discriminate].
  pose proof (emits_trans _ _ _ _ _ _ _ _ _ H01 H2) as Ht.
  replace (flat_map (fun _ : Z => @nil Z) (seqZ 1 7)) with (@nil Z) in Ht
    by reflexivity.
  replace (flat_map (fun _ : Z => @nil pci_device_loc) (seqZ 1 7))
    with (@nil pci_device_loc) in Ht by reflexivity.
  cbn [app] in Ht.
  replace (List.filter (present port_in) (map (set_func loc) (seqZ 1 7)))
    with (flat_map
            (fun f => if present port_in (set_func loc f)
                      then [set_func loc f] else []) (seqZ 1 7)).
  - exact Ht.
  - rewrite <- flat_map_filter. generalize (seqZ 1 7). intros l.
    induction l as [| f l IH]; [reflexivity |].
    cbn [map flat_map]. rewrite IH. reflexivity.
Qed.

(** What [device_functions] lists are functions of the device of [loc]
    that answer. *)
Lemma device_functions_sound (loc l : pci_device_loc) :
  In l (device_functions port_in loc) ->
  present port_in l = true
  /\ seg l = seg loc /\ bus l = bus loc /\ dev l = dev loc.
Proof.
  unfold device_functions.
  destruct (pci_device_get_info port_in IOPORT loc) as [[rc | nfo] | flt]
    eqn:E; cbn [In]; try contradiction.
  intros [<- | Hin].
  - unfold present. rewrite E. repeat split.
  - destruct (multi_func nfo); [| contradiction].
    apply List.filter_In in Hin. destruct Hin as (Hmap & Hp).
    apply in_map_iff in Hmap. destruct Hmap as (f & <- & _).
    split; [exact Hp |]. repeat split.
Qed.

(** [pci_discover_device] probes its device once and reports the functions
    of [device_functions], in increasing order: function 0 when it answers,
    and the functions 1 to 7 that answer when the header of function 0 has
    the multi-function bit; the functions 1 to 7 of a device without that
    bit are not looked at.  It returns whether the device answers.  Every function reported answers
    and is a function of that device. *)
Theorem pci_discover_device_reports (loc : pci_device_loc) (st : pci_state) :
  func loc = 0 ->
  exists st',
    pci_discover_device port_in IOPORT loc st
    = Ok (present port_in loc, st')
    /\ emits st st' [] [loc] (device_functions port_in loc)
    /\ (present port_in loc = false -> st' = log_event (EvProbe loc) st)
    /\ (present port_in loc = true ->
        In loc (device_functions port_in loc))
    /\ (forall l,
          In l (device_functions port_in loc) ->
          present port_in l = true
          /\ seg l = seg loc /\ bus l = bus loc /\ dev l = dev loc).
Proof.
  intros Hf.
  destruct (discover_device_emits loc st Hf) as (st' & E & Hem & Habs).
  exists st'. split; [exact E |]. split; [exact Hem |].
  split; [exact Habs |]. split.
  - unfold present, device_functions.
    destruct (pci_device_get_info port_in IOPORT loc) as [[rc | nfo] | flt];
      [discriminate | intros _; left; reflexivity | discriminate].
  - intros l. apply device_functions_sound.
Qed.

Lemma flat_map_map {A B C : Type} (g : A -> B) (f : B -> list C)
    (l : list A) :
  flat_map f (map g l) = flat_map (fun a => f (g a)) l.
Proof.
  induction l as [| a l IH]; [reflexivity |].
  cbn [map flat_map]. rewrite IH. reflexivity.
Qed.

Lemma flat_map_single {A B : Type} (g : A -> B) (l : list A) :
  flat_map (fun a => [g a]) l = map g l.
Proof.
  induction l as [| a l IH]; [reflexivity |].
  cbn [map flat_map app]. rewrite IH. reflexivity.
Qed.

Lemma discover_bus_emits (sg : option pci_segment) (b : Z)
    (st : pci_state) :
  bus_number b ->
  exists st',
    pci_discover_bus port_in IOPORT sg b st = Ok st'
    /\ emits st st' [b] (bus_devices (seg_num_of sg) b)
         (bus_functions port_in (seg_num_of sg) b).
Proof.
  intros Hb. unfold pci_discover_bus. fold (seg_num_of sg).
  set (loc0 := pci_make_loc (seg_num_of sg) b 0 0).
  assert (Hvisit : emits st (pci_mark_bus_as_visited b st) [b] [] []).
  { exists [EvVisited b]. repeat split. }
  destruct (for_each_emits
              (fun d s =>
                 do r <- pci_discover_device port_in IOPORT (set_dev loc0 d) s ;
                 Ok (snd r))
              (fun _ => [])
              (fun d => [set_dev loc0 d])
              (fun d => device_functions port_in (set_dev loc0 d))
              (seqZ 0 32)) with (st := pci_mark_bus_as_visited b st)
    as (st2 & E2 & H2).
  { intros d s _.
    destruct (discover_device_emits (set_dev loc0 d) s)
      as (s' & Es & Hs & _); [reflexivity |].
    rewrite Es. cbn [bind snd]. exists s'. split; [reflexivity | exact Hs]. }
  exists st2. split; [exact E2 |].
  pose proof (emits_trans _ _ _ _ _ _ _ _ _ Hvisit H2) as Ht.
  replace (flat_map (fun _ : Z => @nil Z) (seqZ 0 32)) with (@nil Z) in Ht
    by reflexivity.
  rewrite flat_map_single in Ht. cbn [app] in Ht.
  unfold bus_functions, bus_devices. fold loc0.
  rewrite flat_map_map. exact Ht.
Qed.

(** [pci_discover_bus] starts the scan of its bus, probes its 32 devices in
    increasing order, and reports the functions that answer, device by
    device: every function reported is a function of that bus that answers,
    and function 0 of every device of the bus that answers is reported. *)
Theorem pci_discover_bus_reports (sg : option pci_segment) (b : Z)
    (st : pci_state) :
  bus_number b ->
  exists st',
    pci_discover_bus port_in IOPORT sg b st = Ok st'
    /\ emits st st' [b] (bus_devices (seg_num_of sg) b)
         (bus_functions port_in (seg_num_of sg) b)
    /\ (forall l,
          In l (bus_functions port_in (seg_num_of sg) b) ->
          present port_in l = true
          /\ seg l = u16 (seg_num_of sg) /\ bus l = b)
    /\ (forall d,
          0 <= d < 32 ->
          let l := set_dev (pci_make_loc (seg_num_of sg) b 0 0) d in
          present port_in l = true ->
          In l (bus_functions port_in (seg_num_of sg) b)).
Proof.
  intros Hb.
  destruct (discover_bus_emits sg b st Hb) as (st' & E & Hem).
  exists st'. split; [exact E |]. split; [exact Hem |].
  unfold bus_functions, bus_devices. split.
  - intros l Hin. apply in_flat_map in Hin.
    destruct Hin as (l0 & Hl0 & Hin).
    apply in_map_iff in Hl0. destruct Hl0 as (d & <- & _).
    destruct (device_functions_sound _ _ Hin) as (Hp & Hs & Hbus & _).
    split; [exact Hp |]. rewrite Hs, Hbus. cbn [set_dev pci_make_loc seg bus].
    split; [reflexivity |]. apply u8_of_bus_number. exact Hb.
  - intros d Hd Hp. apply in_flat_map.
    exists (set_dev (pci_make_loc (seg_num_of sg) b 0 0) d). split.
    + apply in_map. apply list_elem_of_In, elem_of_seqZ. lia.
    + revert Hp. unfold present, device_functions.
      destruct (pci_device_get_info port_in IOPORT
                  (set_dev (pci_make_loc (seg_num_of sg) b 0 0) d))
        as [[rc | nfo] | flt];
        [discriminate | intros _; left; reflexivity | discriminate].
Qed.

Lemma scans_reported_bus (sg : option pci_segment) (b : Z)
    (st0 st st' : pci_state) :
  bus_number b ->
  scans_reported port_in sg st0 st ->
  pci_discover_bus port_in IOPORT sg b st = Ok st' ->
  scans_reported port_in sg st0 st'.
Proof.
  intros Hb (sc & H) E.
  destruct (discover_bus_emits sg b st Hb) as (st1 & E1 & H1).
  rewrite E in E1. injection E1 as <-.
  exists (sc ++ [b]). rewrite !flat_map_app. cbn [flat_map].
  rewrite !app_nil_r. eapply emits_trans; eassumption.
Qed.

Lemma scans_reported_controllers (sg : option pci_segment)
    (st0 : pci_state) (funcs : list Z) :
  forall st st',
    scans_reported port_in sg st0 st ->
    discover_controllers port_in IOPORT sg funcs st = Ok st' ->
    scans_reported port_in sg st0 st'.
Proof.
  induction funcs as [| f rest IH]; intros st st' H E;
    cbn [discover_controllers] in E.
  - injection E as <-. exact H.
  - destruct (get_info_ioport port_in (pci_make_loc 0 0 0 f))
      as ([rc | nfo] & Ei); rewrite Ei in E; cbn [bind] in E.
    + injection E as <-. exact H.
    + destruct (pci_discover_bus port_in IOPORT sg (u8 f) st)
        as [st1 | flt] eqn:Eb; cbn [bind] in E; [| discriminate].
      eapply IH; [| exact E].
      eapply scans_reported_bus; [apply u8_bus_number | exact H | exact Eb].
Qed.

Lemma scans_reported_sweep_pass (sg : option pci_segment) (st0 : pci_state)
    (bs : list Z) :
  forall cnt st cnt' st',
    scans_reported port_in sg st0 st ->
    for_each (sweep_step port_in IOPORT sg) bs (cnt, st) = Ok (cnt', st') ->
    scans_reported port_in sg st0 st'.
Proof.
  induction bs as [| b rest IH]; intros cnt st cnt' st' H E;
    cbn [for_each] in E.
  - injection E as _ <-. exact H.
  - unfold sweep_step at 1 in E.
    destruct (bus_is b BUS_TO_VISIT st).
    + destruct (pci_discover_bus port_in IOPORT sg (u8 b) st)
        as [st1 | flt] eqn:Eb; cbn [bind] in E; [| discriminate].
      eapply IH; [| exact E].
      eapply scans_reported_bus; [apply u8_bus_number | exact H | exact Eb].
    + cbn [bind] in E. eapply IH; [exact H | exact E].
Qed.

Lemma scans_reported_sweep (sg : option pci_segment) (st0 : pci_state)
    (fuel : nat) :
  forall st st',
    scans_reported port_in sg st0 st ->
    sweep port_in fuel IOPORT sg st = Ok st' ->
    scans_reported port_in sg st0 st'.
Proof.
  induction fuel as [| fuel IH]; intros st st' H E; cbn [sweep] in E;
    [discriminate |].
  unfold sweep_pass in E.
  destruct (for_each (sweep_step port_in IOPORT sg) (seqZ 1 255) (0, st))
    as [[cnt st1] | flt] eqn:Ep; cbn [bind fst snd] in E; [| discriminate].
  apply scans_reported_sweep_pass with (st0 := st0) in Ep; [| exact H].
  destruct (0 <? cnt); [eapply IH; eassumption |].
  injection E as <-. exact Ep.
Qed.

(** The enumeration of a segment through the I/O ports ends, and what it
    probed and reported is, for the sequence of buses it scanned, the 32
    devices of each bus and the functions of each bus that answer: no
    function that answers on a scanned bus is left out, none is reported
    twice, and nothing else is reported. *)
Theorem pci_discover_segment_reports (sg : option pci_segment)
    (st : pci_state) :
  length (pci_buses st) = 256%nat ->
  exists st' sc,
    (forall fuel,
       (256 <= fuel)%nat ->
       pci_discover_segment port_in fuel IOPORT sg st = Ok st')
    /\ emits st st' sc
         (flat_map (bus_devices (seg_num_of sg)) sc)
         (flat_map (bus_functions port_in (seg_num_of sg)) sc)
    /\ List.NoDup sc.
Proof.
  intros Hlen.
  destruct (discover_segment_ioport port_in sg st Hlen)
    as (st' & new & Hrun & Hinv & _).
  assert (H0 : scans_reported port_in sg st st) by (exists []; apply emits_refl).
  assert (H : scans_reported port_in sg st st').
  { specialize (Hrun 256%nat ltac:(lia)).
    unfold pci_discover_segment in Hrun.
    destruct (get_info_ioport port_in (pci_make_loc 0 0 0 0))
      as ([rc | nfo] & Ei); rewrite Ei in Hrun; cbn [bind] in Hrun.
    - injection Hrun as <-. exact H0.
    - destruct (if negb (multi_func nfo)
                then pci_discover_bus port_in IOPORT sg 0 st
                else discover_controllers port_in IOPORT sg (seqZ 0 8) st)
        as [st1 | flt] eqn:E1; cbn [bind] in Hrun; [| discriminate].
      eapply scans_reported_sweep; [| exact Hrun].
      destruct (multi_func nfo); cbn [negb] in E1.
      + eapply scans_reported_controllers; eassumption.
      + eapply scans_reported_bus; [| exact H0 | exact E1].
        unfold bus_number. lia. }
  destruct H as (sc & Hem).
  exists st', sc. split; [exact Hrun |]. split; [exact Hem |].
  destruct Hem as (new' & Hlog & Hsc & _).
  destruct Hinv as ((Hlog' & _) & Hnd & _).
  rewrite Hlog in Hlog'. apply app_inv_tail in Hlog'. subst new'.
  rewrite <- Hsc. apply NoDup_rev. exact Hnd.
Qed.

End Legacy.

(** The device at 00:00.0 of the machine with a bridge. *)
Lemma pci_discover_device_reports_witness :
  exists st',
    pci_discover_device bridge_hw IOPORT (pci_make_loc 0 0 0 0)
      pci_boot_state
    = Ok (present bridge_hw (pci_make_loc 0 0 0 0), st')
    /\ emits pci_boot_state st' [] [pci_make_loc 0 0 0 0]
         (device_functions bridge_hw (pci_make_loc 0 0 0 0))
    /\ (present bridge_hw (pci_make_loc 0 0 0 0) = false ->
        st' = log_event (EvProbe (pci_make_loc 0 0 0 0)) pci_boot_state)
    /\ (present bridge_hw (pci_make_loc 0 0 0 0) = true ->
        In (pci_make_loc 0 0 0 0)
          (device_functions bridge_hw (pci_make_loc 0 0 0 0)))
    /\ (forall l,
          In l (device_functions bridge_hw (pci_make_loc 0 0 0 0)) ->
          present bridge_hw l = true
          /\ seg l = seg (pci_make_loc 0 0 0 0)
          /\ bus l = bus (pci_make_loc 0 0 0 0)
          /\ dev l = dev (pci_make_loc 0 0 0 0)).
Proof.
  apply (pci_discover_device_reports bridge_hw (pci_make_loc 0 0 0 0)
           pci_boot_state).
  reflexivity.
Defined.

Lemma pci_discover_bus_reports_witness :
  exists st',
    pci_discover_bus bridge_hw IOPORT None 0 pci_boot_state = Ok st'
    /\ emits pci_boot_state st' [0] (bus_devices (seg_num_of None) 0)
         (bus_functions bridge_hw (seg_num_of None) 0)
    /\ (forall l,
          In l (bus_functions bridge_hw (seg_num_of None) 0) ->
          present bridge_hw l = true
          /\ seg l = u16 (seg_num_of None) /\ bus l = 0)
    /\ (forall d,
          0 <= d < 32 ->
          let l := set_dev (pci_make_loc (seg_num_of None) 0 0 0) d in
          present bridge_hw l = true ->
          In l (bus_functions bridge_hw (seg_num_of None) 0)).
Proof.
  apply (pci_discover_bus_reports bridge_hw None 0 pci_boot_state).
  unfold bus_number. lia.
Defined.

Lemma pci_discover_segment_reports_witness :
  exists st' sc,
    (forall fuel,
       (256 <= fuel)%nat ->
       pci_discover_segment bridge_hw fuel IOPORT None pci_boot_state
       = Ok st')
    /\ emits pci_boot_state st' sc
         (flat_map (bus_devices (seg_num_of None)) sc)
         (flat_map (bus_functions bridge_hw (seg_num_of None)) sc)
    /\ List.NoDup sc.
Proof.
  apply (pci_discover_segment_reports bridge_hw None pci_boot_state).
  reflexivity.
Defined.

Lemma init_pci_no_root_witness :
  init_pci (fun _ _ _ => 0xffffffff) 0 [] pci_boot_state = Ok pci_boot_state.
Proof.
  apply (init_pci_no_root (fun _ _ _ => 0xffffffff) 0 pci_boot_state).
  right. reflexivity.
Defined.

End PciScanSpec.

(** ** PCI vendor and class names *)

Module PciNamesSpec.
Import PciNames.

Section Names.

Variable name : Type.

(** [pci_find_vendor_name] returns the name of the first element of the
    table with the id asked, and [NULL] when no element has it. *)
Theorem pci_find_vendor_name_first (tbl : list (pci_vendor name)) (id : Z) :
  (forall l1 v l2,
     tbl = l1 ++ v :: l2 ->
     Forall (fun x => vendor_id x <> id) l1 ->
     vendor_id v = id ->
     pci_find_vendor_name tbl id = vendor_name v)
  /\ (Forall (fun x => vendor_id x <> id) tbl ->
      pci_find_vendor_name tbl id = None)
  /\ (forall n,
        pci_find_vendor_name tbl id = Some n ->
        exists v, In v tbl /\ vendor_id v = id /\ vendor_name v = Some n).
Proof.
  split; [| split].
  - intros l1. revert tbl.
    induction l1 as [| x l1 IH]; intros tbl v l2 -> Hno Hv.
    + cbn. rewrite Hv, Z.eqb_refl. reflexivity.
    + apply Forall_cons_1 in Hno as [Hx Hno]. cbn.
      destruct (Z.eqb_spec (vendor_id x) id) as [E | _]; [contradiction |].
      apply (IH _ v l2 eq_refl Hno Hv).
  - induction tbl as [| x tbl IH]; intros Hno; [reflexivity |].
    apply Forall_cons_1 in Hno as [Hx Hno]. cbn.
    destruct (Z.eqb_spec (vendor_id x) id) as [E | _]; [contradiction |].
    apply IH, Hno.
  - induction tbl as [| x tbl IH]; intros n H; cbn in H; [discriminate |].
    destruct (Z.eqb_spec (vendor_id x) id) as [E | _].
    + exists x. split; [left; reflexivity | split; assumption].
    + destruct (IH n H) as (v & Hin & Hv). exists v.
      split; [right; exact Hin | exact Hv].
Qed.

(** The first loop stops at an element of the table whose class is the
    one asked. *)
Lemma seek_class_head (tbl : list (pci_device_class name)) (c : Z) (r : pci_device_class name) (rest : list (pci_device_class name)) :
  seek_class tbl c = r :: rest ->
  class_id r = c /\ incl (r :: rest) tbl.
Proof.
  induction tbl as [| x tbl IH]; cbn [seek_class]; [discriminate |].
  destruct (Z.eqb_spec (class_id x) c) as [E | _].
  - intros H. injection H as -> ->. split; [exact E | apply incl_refl].
  - intros H. destruct (IH H) as [Hc Hi].
    split; [exact Hc | apply incl_tl, Hi].
Qed.

Lemma seek_class_none (tbl : list (pci_device_class name)) (c : Z) :
  seek_class tbl c = [] -> Forall (fun x => class_id x <> c) tbl.
Proof.
  induction tbl as [| x tbl IH]; cbn [seek_class]; [constructor |].
  destruct (Z.eqb_spec (class_id x) c) as [E | Hne]; [discriminate |].
  intros H. constructor; [exact Hne | apply IH, H].
Qed.

Lemma seek_subclass_head (rows : list (pci_device_class name)) (c s : Z) (rows2 : list (pci_device_class name)) :
  seek_subclass rows c s = Some rows2 ->
  exists r rest,
    rows2 = r :: rest /\ class_id r = c /\ subclass_id r = s
    /\ incl rows2 rows.
Proof.
  induction rows as [| x rows IH]; cbn [seek_subclass]; [discriminate |].
  destruct (Z.eqb_spec (class_id x) c) as [Ec | _]; cbn [negb];
    [| discriminate].
  destruct (Z.eqb_spec (subclass_id x) s) as [Es | _].
  - intros H. injection H as <-. exists x, rows.
    repeat split; try assumption. apply incl_refl.
  - intros H. destruct (IH H) as (r & rest & -> & Hc & Hs & Hi).
    exists r, rest. repeat split; try assumption. apply incl_tl, Hi.
Qed.

Lemma seek_progif_head (rows : list (pci_device_class name)) (s p : Z) (rows3 : list (pci_device_class name)) :
  seek_progif rows s p = Some rows3 ->
  exists r rest,
    rows3 = r :: rest /\ subclass_id r = s /\ progif_id r = p
    /\ incl rows3 rows.
Proof.
  induction rows as [| x rows IH]; cbn [seek_progif]; [discriminate |].
  destruct (Z.eqb_spec (subclass_id x) s) as [Es | _]; cbn [negb];
    [| discriminate].
  destruct (Z.eqb_spec (progif_id x) p) as [Ep | _].
  - intros H. injection H as <-. exists x, rows.
    repeat split; try assumption. apply incl_refl.
  - intros H. destruct (IH H) as (r & rest & -> & Hs & Hp & Hi).
    exists r, rest. repeat split; try assumption. apply incl_tl, Hi.
Qed.

(** [pci_find_device_class_name] keeps the three ids.  A subclass name is
    found only with a class name, a programming-interface name only with a
    subclass name.  A name found is the name in an element of the table:
    of the class asked for a class name, of the class and the subclass
    asked for a subclass name, of the subclass and the programming
    interface asked for the third name (the third loop does not look at
    the class).  A class that the table does not have gives no name. *)
Theorem pci_find_device_class_name_sound (tbl : list (pci_device_class name)) (dc : pci_device_class name) :
  let r := pci_find_device_class_name tbl dc in
  (class_id r = class_id dc /\ subclass_id r = subclass_id dc
   /\ progif_id r = progif_id dc)
  /\ (subclass_name r <> None -> class_name r <> None)
  /\ (progif_name r <> None -> subclass_name r <> None)
  /\ (forall n,
        class_name r = Some n ->
        exists x, In x tbl /\ class_id x = class_id dc
                  /\ class_name x = Some n)
  /\ (forall n,
        subclass_name r = Some n ->
        exists x, In x tbl /\ class_id x = class_id dc
                  /\ subclass_id x = subclass_id dc
                  /\ subclass_name x = Some n)
  /\ (forall n,
        progif_name r = Some n ->
        exists x, In x tbl /\ subclass_id x = subclass_id dc
                  /\ progif_id x = progif_id dc
                  /\ progif_name x = Some n)
  /\ (Forall (fun x => class_id x <> class_id dc) tbl ->
      r = with_names dc None None None).
Proof.
  intros r. subst r. unfold pci_find_device_class_name.
  cbn [with_names class_id subclass_id progif_id class_name subclass_name].
  destruct (seek_class tbl (class_id dc)) as [| r1 rest1] eqn:E1.
  { cbn. repeat split; intros; try discriminate; auto. }
  destruct (seek_class_head _ _ _ _ E1) as [Hc1 Hi1].
  assert (Hlast : Forall (fun x => class_id x <> class_id dc) tbl -> False).
  { intros Hno. rewrite List.Forall_forall in Hno.
    apply (Hno r1); [apply Hi1; left; reflexivity | exact Hc1]. }
  destruct (class_name r1) as [cn |] eqn:Ecn.
  2:{ cbn. repeat split; intros; try discriminate; auto;
        exfalso; apply Hlast; assumption. }
  assert (Hclass : forall n,
            Some cn = Some n ->
            exists x, In x tbl /\ class_id x = class_id dc
                      /\ class_name x = Some n).
  { intros n E. injection E as <-. exists r1.
    split; [apply Hi1; left; reflexivity | split; assumption]. }
  destruct (seek_subclass (r1 :: rest1) (class_id dc) (subclass_id dc))
    as [rows2 |] eqn:E2.
  2:{ cbn. repeat split; intros; try discriminate; auto;
        exfalso; apply Hlast; assumption. }
  destruct (seek_subclass_head _ _ _ _ E2)
    as (r2 & rest2 & -> & Hc2 & Hs2 & Hi2).
  destruct (subclass_name r2) as [sn |] eqn:Esn.
  2:{ cbn. repeat split; intros; try discriminate; auto;
        exfalso; apply Hlast; assumption. }
  assert (Hsub : forall n,
            Some sn = Some n ->
            exists x, In x tbl /\ class_id x = class_id dc
                      /\ subclass_id x = subclass_id dc
                      /\ subclass_name x = Some n).
  { intros n E. injection E as <-. exists r2.
    split; [apply Hi1, Hi2; left; reflexivity |].
    repeat split; assumption. }
  destruct (seek_progif (r2 :: rest2) (subclass_id dc) (progif_id dc))
    as [rows3 |] eqn:E3.
  2:{ cbn. repeat split; intros; try discriminate; auto;
        exfalso; apply Hlast; assumption. }
  destruct (seek_progif_head _ _ _ _ E3)
    as (r3 & rest3 & -> & Hs3 & Hp3 & Hi3).
  assert (Hprog : forall n,
            progif_name r3 = Some n ->
            exists x, In x tbl /\ subclass_id x = subclass_id dc
                      /\ progif_id x = progif_id dc
                      /\ progif_name x = Some n).
  { intros n E. exists r3.
    split; [apply Hi1, Hi2, Hi3; left; reflexivity |].
    repeat split; assumption. }
  cbn. repeat split; intros; try discriminate; auto;
    exfalso; apply Hlast; assumption.
Qed.

Lemma grouped_tail {K : Type} (key : pci_device_class name -> K)
    (a : pci_device_class name) (l : list (pci_device_class name)) :
  grouped key (a :: l) -> grouped key l.
Proof.
  intros H l1 x l2 y l3 E Hk.
  apply (H (a :: l1) x l2 y l3); [rewrite E; reflexivity | exact Hk].
Qed.

(** In a grouped table, the element that follows one of a group is of
    that group when a later element is. *)
Lemma grouped_next {K : Type} (key : pci_device_class name -> K)
    (a b x : pci_device_class name) (l : list (pci_device_class name)) :
  grouped key (a :: b :: l) -> In x l -> key a = key x -> key b = key a.
Proof.
  intros H Hin Hk. apply in_split in Hin as (mid & tail & ->).
  specialize (H [] a (b :: mid) x tail eq_refl Hk).
  apply Forall_cons_1 in H as [Hb _]. exact Hb.
Qed.

Lemma seek_class_finds (tbl : list (pci_device_class name)) (c : Z)
    (row : pci_device_class name) :
  In row tbl -> class_id row = c ->
  exists r rest l1,
    seek_class tbl c = r :: rest /\ tbl = l1 ++ r :: rest
    /\ class_id r = c /\ In row (r :: rest).
Proof.
  induction tbl as [| x tbl IH]; intros Hin Hc; [contradiction |].
  cbn [seek_class].
  destruct (Z.eqb_spec (class_id x) c) as [E | Hne].
  - exists x, tbl, []. repeat split; assumption.
  - destruct Hin as [-> | Hin]; [contradiction |].
    destruct (IH Hin Hc) as (r & rest & l1 & E1 & -> & Hr & Hrow).
    exists r, rest, (x :: l1). split; [exact E1 |].
    split; [reflexivity |]. split; [exact Hr | exact Hrow].
Qed.

Lemma seek_subclass_finds (rows : list (pci_device_class name)) (c s : Z)
    (row : pci_device_class name) :
  forall r rest,
    rows = r :: rest ->
    grouped class_id rows ->
    class_id r = c ->
    In row rows -> class_id row = c -> subclass_id row = s ->
    exists r2 rest2 l,
      seek_subclass rows c s = Some (r2 :: rest2)
      /\ rows = l ++ r2 :: rest2
      /\ class_id r2 = c /\ subclass_id r2 = s /\ In row (r2 :: rest2).
Proof.
  induction rows as [| x rows IH]; intros r rest E Hg Hr Hin Hc Hs;
    [discriminate |].
  injection E as -> ->. cbn [seek_subclass].
  destruct (Z.eqb_spec (class_id r) c) as [_ | Hne]; [| contradiction].
  cbn [negb].
  destruct (Z.eqb_spec (subclass_id r) s) as [Es | Hns].
  - exists r, rest, []. repeat split; assumption.
  - destruct Hin as [-> | Hin]; [contradiction |].
    destruct rest as [| r' rest']; [contradiction |].
    assert (Hr' : class_id r' = c).
    { destruct Hin as [-> | Hin]; [exact Hc |].
      rewrite <- Hr. apply (grouped_next class_id r r' row rest' Hg Hin).
      congruence. }
    destruct (IH r' rest' eq_refl (grouped_tail _ _ _ Hg) Hr' Hin Hc Hs)
      as (r2 & rest2 & l & E2 & El & Hc2 & Hs2 & Hrow).
    exists r2, rest2, (r :: l). split; [exact E2 |].
    split; [cbn [app]; rewrite <- El; reflexivity |].
    split; [exact Hc2 |]. split; [exact Hs2 | exact Hrow].
Qed.

Lemma seek_progif_finds (rows : list (pci_device_class name)) (c s p : Z)
    (row : pci_device_class name) :
  forall r rest,
    rows = r :: rest ->
    grouped (fun x => (class_id x, subclass_id x)) rows ->
    class_id r = c -> subclass_id r = s ->
    In row rows ->
    class_id row = c -> subclass_id row = s -> progif_id row = p ->
    exists r3 rest3,
      seek_progif rows s p = Some (r3 :: rest3)
      /\ incl (r3 :: rest3) rows
      /\ class_id r3 = c /\ subclass_id r3 = s /\ progif_id r3 = p.
Proof.
  induction rows as [| x rows IH]; intros r rest E Hg Hrc Hrs Hin Hc Hs Hp;
    [discriminate |].
  injection E as -> ->. cbn [seek_progif].
  destruct (Z.eqb_spec (subclass_id r) s) as [_ | Hne]; [| contradiction].
  cbn [negb].
  destruct (Z.eqb_spec (progif_id r) p) as [Ep | Hnp].
  - exists r, rest. repeat split; try assumption. apply incl_refl.
  - destruct Hin as [-> | Hin]; [contradiction |].
    destruct rest as [| r' rest']; [contradiction |].
    assert (Hr' : class_id r' = c /\ subclass_id r' = s).
    { destruct Hin as [-> | Hin]; [split; assumption |].
      pose proof (grouped_next (fun x => (class_id x, subclass_id x))
                    r r' row rest' Hg Hin ltac:(cbn; congruence)) as Hk.
      cbn in Hk. injection Hk as H1 H2. split; congruence. }
    destruct Hr' as [Hc' Hs'].
    destruct (IH r' rest' eq_refl (grouped_tail _ _ _ Hg) Hc' Hs' Hin
                Hc Hs Hp) as (r3 & rest3 & E3 & Hi & H3).
    exists r3, rest3. split; [exact E3 |].
    split; [apply incl_tl, Hi | exact H3].
Qed.

Lemma grouped_suffix {K : Type} (key : pci_device_class name -> K)
    (l1 l2 : list (pci_device_class name)) :
  grouped key (l1 ++ l2) -> grouped key l2.
Proof.
  induction l1 as [| a l1 IH]; [intros H; exact H |].
  intros H. apply IH. apply (grouped_tail key a). exact H.
Qed.

(** On a table in class-major order whose names are those of the ids,
    [pci_find_device_class_name] finds the names of every triple of the
    table: for a device whose class is that of an element with a class
    name, it returns that class name; when the subclass is also that of
    the element, and has a name, the subclass name; and when the
    programming interface is also that of the element, its name. *)
Theorem pci_find_device_class_name_complete
    (tbl : list (pci_device_class name)) (dc row : pci_device_class name) :
  class_major tbl ->
  canonical tbl ->
  In row tbl ->
  class_id row = class_id dc ->
  class_name row <> None ->
  let r := pci_find_device_class_name tbl dc in
  class_name r = class_name row
  /\ (subclass_id row = subclass_id dc ->
      subclass_name row <> None ->
      subclass_name r = subclass_name row
      /\ (progif_id row = progif_id dc ->
          progif_name r = progif_name row)).
Proof.
  intros [Hg1 Hg2] Hcan Hin Hc Hcn r. subst r.
  unfold pci_find_device_class_name.
  cbn [with_names class_id subclass_id progif_id class_name subclass_name].
  destruct (seek_class_finds tbl (class_id dc) row Hin Hc)
    as (r1 & rest1 & l1 & -> & Etbl & Hc1 & Hin1).
  assert (Hi1 : incl (r1 :: rest1) tbl)
    by (rewrite Etbl; apply incl_appr, incl_refl).
  destruct (Hcan r1 row (Hi1 _ (or_introl eq_refl)) Hin ltac:(congruence))
    as [Hn1 _].
  rewrite Hn1.
  destruct (class_name row) as [cn |] eqn:Ecn; [| contradiction].
  clear Hcn.
  assert (Hg1' : grouped class_id (r1 :: rest1))
    by (apply (grouped_suffix _ l1); rewrite <- Etbl; exact Hg1).
  assert (Hg2' : grouped (fun x => (class_id x, subclass_id x))
                   (r1 :: rest1))
    by (apply (grouped_suffix _ l1); rewrite <- Etbl; exact Hg2).
  destruct (Z.eq_dec (subclass_id row) (subclass_id dc)) as [Hs | Hs].
  2:{ split; [| contradiction].
      destruct (seek_subclass (r1 :: rest1) (class_id dc) (subclass_id dc))
        as [[| r2 rows2] |]; try reflexivity.
      destruct (subclass_name r2); [| reflexivity].
      destruct (seek_progif (r2 :: rows2) (subclass_id dc) (progif_id dc))
        as [[| r3 rows3] |]; reflexivity. }
  destruct (seek_subclass_finds (r1 :: rest1) (class_id dc) (subclass_id dc)
              row r1 rest1 eq_refl Hg1' Hc1 Hin1 Hc Hs)
    as (r2 & rest2 & l2 & -> & E2 & Hc2 & Hs2 & Hin2).
  assert (Hi2 : incl (r2 :: rest2) (r1 :: rest1))
    by (rewrite E2; apply incl_appr, incl_refl).
  destruct (Hcan r2 row (Hi1 _ (Hi2 _ (or_introl eq_refl))) Hin
              ltac:(congruence)) as [_ Hn2].
  destruct (Hn2 ltac:(congruence)) as [Hn2' _]. rewrite Hn2'.
  destruct (subclass_name row) as [sn |] eqn:Esn.
  2:{ split; [reflexivity |]. intros _ H. contradiction. }
  assert (Hg3 : grouped (fun x => (class_id x, subclass_id x))
                  (r2 :: rest2))
    by (apply (grouped_suffix _ l2); rewrite <- E2; exact Hg2').
  destruct (Z.eq_dec (progif_id row) (progif_id dc)) as [Hp | Hp].
  2:{ destruct (seek_progif (r2 :: rest2) (subclass_id dc) (progif_id dc))
        as [[| r3 rows3] |]; cbn; (split; [reflexivity |]);
        intros _ _; (split; [reflexivity | contradiction]). }
  destruct (seek_progif_finds (r2 :: rest2) (class_id dc) (subclass_id dc)
              (progif_id dc) row r2 rest2 eq_refl Hg3 Hc2 Hs2 Hin2 Hc Hs Hp)
    as (r3 & rest3 & -> & Hi3 & Hc3 & Hs3 & Hp3).
  destruct (Hcan r3 row
              (Hi1 _ (Hi2 _ (Hi3 _ (or_introl eq_refl)))) Hin
              ltac:(congruence)) as [_ Hn3].
  destruct (Hn3 ltac:(congruence)) as [_ Hn3'].
  specialize (Hn3' ltac:(congruence)).
  cbn. split; [reflexivity |]. intros _ _.
  split; [reflexivity |]. intros _. exact Hn3'.
Qed.

End Names.

Lemma sample_classes_grouped {K : Type} (key : pci_device_class Z -> K) :
  key (mk_class 1 0 0 (Some 10) (Some 100) (Some 1000))
  <> key (mk_class 2 0 5 (Some 20) (Some 200) (Some 2005)) ->
  grouped key sample_classes.
Proof.
  intros Hne l1 a l2 b l3 E Hk. unfold sample_classes in E.
  destruct l1 as [| x1 [| x2 [| x3 [| x4 l1]]]];
    destruct l2 as [| y1 [| y2 [| y3 l2]]];
    cbn in E; try discriminate E;
    try (destruct l3; discriminate E);
    injection E; intros; subst; try constructor;
    try (destruct l3; discriminate);
    try (exfalso; apply Hne; exact Hk).
Qed.

Lemma pci_find_device_class_name_complete_witness :
  let r :=
    pci_find_device_class_name sample_classes
      (mk_class 1 0 1 None None None) in
  class_name r = Some 10
  /\ (0 = 0 -> Some 100 <> None ->
      subclass_name r = Some 100
      /\ (1 = 1 -> progif_name r = Some 1001)).
Proof.
  apply (pci_find_device_class_name_complete Z sample_classes
           (mk_class 1 0 1 None None None)
           (mk_class 1 0 1 (Some 10) (Some 100) (Some 1001))).
  - split; apply sample_classes_grouped; cbn; congruence.
  - intros a b Ha Hb.
    cbn in Ha, Hb.
    destruct Ha as [<- | [<- | [<- | []]]];
      destruct Hb as [<- | [<- | [<- | []]]];
      cbn; intros Hc; try discriminate Hc;
      (split; [reflexivity |]); intros Hs; (split; [reflexivity |]);
      intros Hp; try discriminate Hp; reflexivity.
  - cbn. auto.
  - reflexivity.
  - discriminate.
Defined.

(** The third loop follows the subclass id alone: where two classes that
    are neighbours in the table have the same subclass id, a programming
    interface of the second is found for a device of the first. *)
Example progif_of_next_class :
  pci_find_device_class_name sample_classes (mk_class 1 0 5 None None None)
  = mk_class 1 0 5 (Some 10) (Some 100) (Some 2005).
Proof. reflexivity. Qed.

End PciNamesSpec.

(** ** [sys_select]: return values, waiter and timeout *)

Module SelectMoreSpec.
Import Int IntFacts Select SelectMore SelectSpec.

Lemma readable_dec {A : Type} (p : user_ptr A) : {readable p} + {~ readable p}.
Proof.
  destruct p as [| [|] w v]; cbn; [left; exact I | left; reflexivity |].
  right. discriminate.
Qed.

(** [select_read_user_sets] fails exactly when one of the three pointers
    is not [NULL] and cannot be read. *)
Lemma read_user_sets_status (u : arr3 (user_ptr fd_set)) :
  let r := select_read_user_sets (mk_arr3 None None None) u in
  (fst r = - EFAULT /\ exists k, ~ readable (get3 k u))
  \/ (fst r = 0 /\ (forall k, readable (get3 k u))
      /\ forall k, copied (get3 k u) (get3 k (snd r))).
Proof.
  intros r. subst r.
  destruct (select_read_user_sets (mk_arr3 None None None) u) as [rc s] eqn:E.
  pose proof (read_user_sets_ok u rc s E) as [-> | [-> Hcop]]; cbn [fst snd].
  - left. split; [reflexivity |].
    destruct (readable_dec (get3 RD u)) as [Hr | Hr]; [| exists RD; exact Hr].
    destruct (readable_dec (get3 WR u)) as [Hw | Hw]; [| exists WR; exact Hw].
    destruct (readable_dec (get3 EX u)) as [He | He]; [| exists EX; exact He].
    exfalso.
    assert (H0 : fst (select_read_user_sets (mk_arr3 None None None) u) = 0).
    { apply read_user_sets_loop_readable. intros [] _; assumption. }
    rewrite E in H0. cbn in H0. unfold EFAULT in H0. lia.
  - right. split; [reflexivity |]. split; [| exact Hcop].
    intros k. specialize (Hcop k).
    destruct (get3 k u) as [| [|] w v]; cbn in *; auto.
Qed.

Lemma calls_cons (p : sched_event -> bool) (e : sched_event)
    (ev : list sched_event) :
  calls p (e :: ev) = ((if p e then 1 else 0) + calls p ev)%nat.
Proof. unfold calls. cbn [List.filter]. destruct (p e); reflexivity. Qed.

Lemma calls_app (p : sched_event -> bool) (e1 e2 : list sched_event) :
  calls p (e1 ++ e2) = (calls p e1 + calls p e2)%nat.
Proof. unfold calls. rewrite List.filter_app, length_app. reflexivity. Qed.



Section Loops.

Variable tbl : handle_table.
Variable k : rwe.

(** The loop of [select_count_cond_per_set] fails on a selected descriptor
    without handle; otherwise every selected descriptor has one and the
    counter grows by the number of conditions. *)
Lemma count_cond_loop_cases (set : fd_set) (n : nat) :
  forall i cnt,
    0 <= cnt -> cnt + Z.of_nat n < 2 ^ 32 ->
    let r := count_cond_loop tbl k set n i cnt in
    (fst r = - EBADF
     /\ exists fd,
          i <= fd < i + Z.of_nat n /\ FD_ISSET fd set = true
          /\ tbl fd = None)
    \/ (fst r = 0
        /\ (forall fd,
              i <= fd < i + Z.of_nat n -> FD_ISSET fd set = true ->
              tbl fd <> None)
        /\ snd r = cnt + conds_from tbl k set n i).
Proof.
  assert (H32 : 2 ^ 32 = 4294967296) by reflexivity.
  induction n as [| n IH]; intros i cnt Hc Hn; cbn [count_cond_loop].
  - right. cbn [fst snd]. split; [reflexivity |].
    split; [intros fd Hfd; lia |]. unfold conds_from. cbn. lia.
  - unfold conds_from. cbn [count_from]. fold (conds_from tbl k set n (i + 1)).
    unfold cond_at at 1.
    destruct (FD_ISSET i set) eqn:Hbit; cbn [negb andb].
    + destruct (tbl i) as [h |] eqn:Hh.
      * pose proof (count_from_range
                      (fun j => FD_ISSET j set && cond_at tbl k j) n (i + 1))
          as Hr. fold (conds_from tbl k set n (i + 1)) in Hr.
        assert (Hstep :
          exists d, (d = 0 \/ d = 1)
            /\ match h_cond h k with
               | Some _ => u32 (cnt + 1)
               | None => cnt
               end = cnt + d
            /\ (if match h_cond h k with
                   | Some _ => true
                   | None => false
                   end then 1 else 0) = d).
        { destruct (h_cond h k).
          - exists 1. rewrite u32_small by lia. auto.
          - exists 0. rewrite Z.add_0_r. auto. }
        destruct Hstep as (d & Hd & -> & ->).
        destruct (IH (i + 1) (cnt + d) ltac:(lia) ltac:(lia))
          as [(E & fd & Hfd & Hs & Ht) | (E & Hall & Hsum)].
        -- left. split; [exact E |]. exists fd. repeat split; try lia; auto.
        -- right. split; [exact E |]. split; [| lia].
           intros fd Hfd Hs. destruct (Z.eq_dec fd i) as [-> | Hne].
           ++ rewrite Hh. discriminate.
           ++ apply Hall; [lia | exact Hs].
      * left. cbn [fst]. split; [reflexivity |]. exists i.
        repeat split; try lia; auto.
    + destruct (IH (i + 1) cnt ltac:(lia) ltac:(lia))
        as [(E & fd & Hfd & Hs & Ht) | (E & Hall & Hsum)].
      * left. split; [exact E |]. exists fd. repeat split; try lia; auto.
      * right. split; [exact E |]. split; [| lia].
        intros fd Hfd Hs. destruct (Z.eq_dec fd i) as [-> | Hne].
        -- rewrite Hbit in Hs. discriminate.
        -- apply Hall; [lia | exact Hs].
Qed.



End Loops.

Lemma conds_of_range tbl c k :
  0 <= nfds c -> 0 <= conds_of tbl c k <= nfds c.
Proof.
  intros Hn. unfold conds_of, conds_from.
  destruct (get3 k (sets c)) as [s |]; [| lia].
  pose proof (count_from_range
                (fun j => FD_ISSET j s && cond_at tbl k j)
                (Z.to_nat (nfds c)) 0). lia.
Qed.

Lemma conds_total_range tbl c (ks : list rwe) :
  0 <= nfds c ->
  0 <= conds_total tbl c ks <= Z.of_nat (length ks) * nfds c.
Proof.
  intros Hn. induction ks as [| k ks IH]; cbn [conds_total fold_right length].
  - lia.
  - fold (conds_total tbl c ks). pose proof (conds_of_range tbl c k Hn). lia.
Qed.

Lemma conds_of_same tbl c c' k :
  same_request c c' -> conds_of tbl c' k = conds_of tbl c k.
Proof. intros (E1 & E2 & _). unfold conds_of. rewrite E1, E2. reflexivity. Qed.

Lemma conds_total_same tbl c c' (ks : list rwe) :
  same_request c c' -> conds_total tbl c' ks = conds_total tbl c ks.
Proof.
  intros Hs. induction ks as [| k ks IH]; [reflexivity |].
  cbn [conds_total fold_right]. fold (conds_total tbl c' ks).
  fold (conds_total tbl c ks). rewrite IH, (conds_of_same tbl c c' k Hs).
  reflexivity.
Qed.

(** The loop of [select_compute_cond_cnt] fails on a selected descriptor
    without handle, and otherwise counts the conditions of the three
    sets. *)
Lemma compute_cond_cnt_loop_cases tbl (ks : list rwe) :
  forall c,
    0 <= nfds c -> 0 <= cond_cnt c ->
    cond_cnt c + Z.of_nat (length ks) * nfds c < 2 ^ 32 ->
    let r := compute_cond_cnt_loop tbl ks c in
    (fst r = - EBADF /\ exists k fd, In k ks /\ bad_fd tbl c k fd)
    \/ (fst r = 0
        /\ (forall k fd, In k ks -> ~ bad_fd tbl c k fd)
        /\ cond_cnt (snd r) = cond_cnt c + conds_total tbl c ks).
Proof.
  induction ks as [| k ks IH]; intros c Hn Hc Hfit;
    cbn [compute_cond_cnt_loop].
  - right. cbn [fst snd conds_total fold_right].
    split; [reflexivity |]. split; [intros k fd [] | lia].
  - cbn [length] in Hfit.
    cbn [conds_total fold_right]. fold (conds_total tbl c ks).
    unfold select_count_cond_per_set, conds_of at 1.
    destruct (get3 k (sets c)) as [s |] eqn:Hs.
    + destruct (count_cond_loop_cases tbl k s (Z.to_nat (nfds c)) 0
                  (cond_cnt c) Hc ltac:(nia))
        as [(E & fd & Hfd & Hbit & Hnone) | (E & Hall & Hsum)];
        destruct (count_cond_loop tbl k s (Z.to_nat (nfds c)) 0 (cond_cnt c))
          as [rc cnt]; cbn [fst snd] in *; subst rc.
      * left. cbn. split; [reflexivity |]. exists k, fd.
        split; [left; reflexivity |]. exists s.
        repeat split; try lia; assumption.
      * cbn [Z.eqb negb].
        set (c1 := with_cond_cnt cnt c).
        assert (Hsame : same_request c c1) by (repeat split).
        pose proof (count_from_range
                      (fun j => FD_ISSET j s && cond_at tbl k j)
                      (Z.to_nat (nfds c)) 0) as Hr.
        fold (conds_from tbl k s (Z.to_nat (nfds c)) 0) in Hr.
        destruct (IH c1 Hn ltac:(subst c1 cnt; cbn; lia)
                    ltac:(subst c1 cnt; cbn; nia))
          as [(E & k' & fd & Hin & s' & Hs' & Hb) | (E & Hall' & Hsum')].
        -- left. split; [exact E |]. exists k', fd.
           split; [right; exact Hin |]. exists s'. exact (conj Hs' Hb).
        -- right. split; [exact E |]. split.
           ++ intros k' fd [<- | Hin] (s' & Hs' & Hfd & Hbit & Hnone).
              ** rewrite Hs in Hs'. injection Hs' as <-.
                 apply (Hall fd); [lia | exact Hbit | exact Hnone].
              ** apply (Hall' k' fd Hin). exists s'.
                 exact (conj Hs' (conj Hfd (conj Hbit Hnone))).
           ++ rewrite Hsum', (conds_total_same tbl c c1 ks Hsame).
              subst c1 cnt. cbn [cond_cnt with_cond_cnt]. lia.
    + cbn [Z.eqb negb].
      destruct (IH c Hn Hc ltac:(nia))
        as [(E & k' & fd & Hin & Hb) | (E & Hall' & Hsum')].
      * left. split; [exact E |]. exists k', fd.
        split; [right; exact Hin | exact Hb].
      * right. split; [exact E |]. split; [| lia].
        intros k' fd [<- | Hin] Hbad.
        -- destruct Hbad as (s' & Hs' & _). rewrite Hs in Hs'. discriminate.
        -- exact (Hall' k' fd Hin Hbad).
Qed.



Section Kernel.

Variable TIMER_HZ : Z.
Variable MAX_HANDLES : Z.

(** The phases of [sys_select] that follow the copies from user space,
    for a context whose counter is still 0: a selected descriptor without
    handle is found (only if the timeout is [NULL] or positive); or there
    are conditions to wait on; or there is none and the task sleeps for the
    timeout; or the report is made at once. *)
Lemma after_copy_cases tbl env c0 :
  0 <= nfds c0 -> 3 * nfds c0 < 2 ^ 32 -> cond_cnt c0 = 0 ->
  exists c1,
    same_request c0 c1 /\ tv c1 = tv c0
    /\ timeout_ticks c1 = timeout_ticks c0
    /\ (((tv c0 = None \/ 0 < timeout_ticks c0)
         /\ (exists k fd, bad_fd tbl c0 k fd)
         /\ select_after_copy TIMER_HZ tbl env c0 = returns (- EBADF) c1 [])
        \/ ((tv c0 = None \/ 0 < timeout_ticks c0)
            /\ (forall k fd, ~ bad_fd tbl c0 k fd)
            /\ cond_cnt c1 = conds_total tbl c0 kinds
            /\ 0 < cond_cnt c1
            /\ select_after_copy TIMER_HZ tbl env c0
               = after_wait (select_wait_on_cond TIMER_HZ tbl env c1))
        \/ (cond_cnt c1 = 0 /\ 0 < timeout_ticks c0
            /\ (forall k fd, ~ bad_fd tbl c0 k fd)
            /\ select_after_copy TIMER_HZ tbl env c0
               = report (after_sleep env) c1
                   [EvKernelSleep (timeout_ticks c0)])
        \/ (cond_cnt c1 = 0 /\ timeout_ticks c0 <= 0
            /\ select_after_copy TIMER_HZ tbl env c0 = report tbl c1 [])).
Proof.
  intros Hn Hfit Hc0. unfold select_after_copy.
  destruct (select_compute_cond_cnt tbl c0) as [rc c1] eqn:Hcnt.
  pose proof (compute_cond_cnt_ok tbl c0 rc c1 Hcnt)
    as (_ & Hsame & Htv & Htt).
  exists c1. split; [exact Hsame |]. split; [exact Htv |].
  split; [exact Htt |].
  assert (Hopen : tv c0 = None \/ 0 < timeout_ticks c0 ->
                  (rc, c1) = compute_cond_cnt_loop tbl kinds c0).
  { intros Hg. unfold select_compute_cond_cnt in Hcnt.
    destruct (tv c0) as [t |].
    - destruct Hg as [Hg | Hg]; [discriminate |].
      destruct (Z.ltb_spec 0 (timeout_ticks c0)); [| lia].
      symmetry. exact Hcnt.
    - symmetry. exact Hcnt. }
  assert (Hclosed : ~ (tv c0 = None \/ 0 < timeout_ticks c0) ->
                    rc = 0 /\ c1 = c0 /\ timeout_ticks c0 <= 0).
  { intros Hg. unfold select_compute_cond_cnt in Hcnt.
    destruct (tv c0) as [t |]; [| contradiction Hg; left; reflexivity].
    destruct (Z.ltb_spec 0 (timeout_ticks c0));
      [contradiction Hg; right; assumption |].
    injection Hcnt as <- <-. repeat split. lia. }
  assert (Hdec : (tv c0 = None \/ 0 < timeout_ticks c0)
                 \/ ~ (tv c0 = None \/ 0 < timeout_ticks c0)).
  { destruct (tv c0); [| left; left; reflexivity].
    destruct (Z.lt_ge_cases 0 (timeout_ticks c0));
      [left; right; assumption | right; intros [H' | H']; [discriminate | lia]]. }
  destruct Hdec as [Hg | Hg].
  - specialize (Hopen Hg).
    pose proof (compute_cond_cnt_loop_cases tbl kinds c0 Hn
                  ltac:(lia) ltac:(rewrite Hc0; cbn [kinds length]; lia))
      as Hcases.
    cbv zeta in Hcases. rewrite <- Hopen in Hcases. cbn [fst snd] in Hcases.
    destruct Hcases as [(-> & k & fd & _ & Hbad) | (-> & Hall & Hsum)].
    + left. split; [exact Hg |]. split; [exists k, fd; exact Hbad |].
      reflexivity.
    + cbn [Z.eqb negb]. rewrite Hc0 in Hsum. cbn [Z.add] in Hsum.
      assert (Hall' : forall k fd, ~ bad_fd tbl c0 k fd)
        by (intros k fd; apply Hall, In_kinds).
      destruct (Z.ltb_spec 0 (cond_cnt c1)) as [Hpos | Hzero].
      * right. left. split; [exact Hg |]. split; [exact Hall' |].
        split; [exact Hsum |]. split; [exact Hpos |].
        unfold after_wait.
        destruct (select_wait_on_cond TIMER_HZ tbl env c1) as [ev [| |]];
          reflexivity.
      * pose proof (conds_total_range tbl c0 kinds Hn) as Hr.
        rewrite Htt.
        destruct (Z.ltb_spec 0 (timeout_ticks c0)) as [Ht | Ht].
        -- right. right. left. split; [lia |]. split; [exact Ht |].
           split; [exact Hall' | reflexivity].
        -- right. right. right. split; [lia |]. split; [exact Ht |].
           reflexivity.
  - destruct (Hclosed Hg) as (-> & -> & Ht). cbn [Z.eqb negb].
    rewrite Hc0. cbn [Z.ltb Z.compare].
    destruct (Z.ltb_spec 0 (timeout_ticks c0)); [lia |].
    right. right. right. split; [reflexivity |]. split; [exact Ht |].
    reflexivity.
Qed.

(** How the wait loop ends: the task is never woken again; or the timer
    fired; or a condition woke it with at least one stream ready.  The
    log holds one [kernel_sleep_on_waiter] for each wakeup consumed, and
    the cancellation of the timer in the last case when there is a
    timeout. *)
Lemma wait_loop_cases (ws : list wakeup) :
  forall c,
    exists n,
      (1 <= n)%nat
      /\ ((wait_loop TIMER_HZ c ws
           = (replicate n EvSleepOnWaiter, WaitForever))
          \/ (exists w t0,
                In w ws /\ tv c = Some t0 /\ wk_timer w = true
                /\ wait_loop TIMER_HZ c ws
                   = (replicate n EvSleepOnWaiter,
                      WaitReturn 0 (with_tv (Some (mk_timeval 0 0)) c)
                        (wk_handles w)))
          \/ (exists w,
                In w ws
                /\ count_ready_streams (wk_handles w) (nfds c) (sets c) <> 0
                /\ wait_loop TIMER_HZ c ws
                   = match tv c with
                     | Some _ =>
                         (replicate n EvSleepOnWaiter ++ [EvCancelWakeupTimer],
                          WaitReturn 0
                            (with_tv (Some (remaining_time TIMER_HZ (wk_rem w)))
                               c)
                            (wk_handles w))
                     | None =>
                         (replicate n EvSleepOnWaiter,
                          WaitReturn 0 c (wk_handles w))
                     end)).
Proof.
  induction ws as [| w ws IH]; intros c; cbn [wait_loop].
  - exists 1%nat. split; [lia |]. left. reflexivity.
  - destruct (IH c) as (n & Hn & Hrest).
    assert (Hmore :
      exists n',
        (1 <= n')%nat
        /\ ((let (ev, r) := wait_loop TIMER_HZ c ws in
             (EvSleepOnWaiter :: ev, r))
            = (replicate n' EvSleepOnWaiter, WaitForever)
            \/ (exists w' t0,
                  In w' (w :: ws) /\ tv c = Some t0 /\ wk_timer w' = true
                  /\ (let (ev, r) := wait_loop TIMER_HZ c ws in
                      (EvSleepOnWaiter :: ev, r))
                     = (replicate n' EvSleepOnWaiter,
                        WaitReturn 0 (with_tv (Some (mk_timeval 0 0)) c)
                          (wk_handles w')))
            \/ (exists w',
                  In w' (w :: ws)
                  /\ count_ready_streams (wk_handles w') (nfds c) (sets c)
                     <> 0
                  /\ (let (ev, r) := wait_loop TIMER_HZ c ws in
                      (EvSleepOnWaiter :: ev, r))
                     = match tv c with
                       | Some _ =>
                           (replicate n' EvSleepOnWaiter
                              ++ [EvCancelWakeupTimer],
                            WaitReturn 0
                              (with_tv
                                 (Some (remaining_time TIMER_HZ (wk_rem w')))
                                 c)
                              (wk_handles w'))
                       | None =>
                           (replicate n' EvSleepOnWaiter,
                            WaitReturn 0 c (wk_handles w'))
                       end))).
    { exists (S n). split; [lia |].
      destruct Hrest as [-> | [(w' & t0 & Hin & Ht & Hw & ->)
                              | (w' & Hin & Hr & ->)]].
      - left. reflexivity.
      - right. left. exists w', t0.
        split; [right; exact Hin |]. repeat split; assumption.
      - right. right. exists w'. split; [right; exact Hin |].
        split; [exact Hr |]. destruct (tv c); reflexivity. }
    destruct (tv c) as [t0 |] eqn:Htv.
    + destruct (wk_timer w) eqn:Hw.
      * exists 1%nat. split; [lia |]. right. left. exists w, t0.
        split; [left; reflexivity |]. repeat split. exact Hw.
      * destruct (Z.eqb_spec
                    (count_ready_streams (wk_handles w) (nfds c) (sets c)) 0)
          as [_ | Hr]; [exact Hmore |].
        exists 1%nat. split; [lia |]. right. right. exists w.
        split; [left; reflexivity |]. split; [exact Hr | reflexivity].
    + destruct (Z.eqb_spec
                  (count_ready_streams (wk_handles w) (nfds c) (sets c)) 0)
        as [_ | Hr]; [exact Hmore |].
      exists 1%nat. split; [lia |]. right. right. exists w.
      split; [left; reflexivity |]. split; [exact Hr | reflexivity].
Qed.

(** How [select_wait_on_cond] goes, when the timeout is [NULL] or
    positive: the allocation fails; or an [ASSERT] of [select_set_kcond]
    fails; or a descriptor lost its handle; or the conditions are bound,
    the timer is set when there is a timeout, and the wait loop runs. *)
Lemma wait_on_cond_cases tbl env c :
  tv c = None \/ 0 < timeout_ticks c ->
  let alloc := EvAllocWaiter (cond_cnt c) in
  let timer :=
    match tv c with
    | Some _ => [EvSetWakeupTimer (timeout_ticks c)]
    | None => []
    end in
  let w := wait_loop TIMER_HZ c (wakeups env) in
  (alloc_ok env = false
   /\ select_wait_on_cond TIMER_HZ tbl env c
      = ([alloc], WaitReturn (- ENOMEM) c tbl))
  \/ (alloc_ok env = true /\ set_kconds tbl c kinds [] = None
      /\ select_wait_on_cond TIMER_HZ tbl env c = ([alloc], WaitPanic))
  \/ (alloc_ok env = true
      /\ (exists l, set_kconds tbl c kinds [] = Some (- EBADF, l))
      /\ select_wait_on_cond TIMER_HZ tbl env c
         = ([alloc; EvFreeWaiter], WaitReturn (- EBADF) c tbl))
  \/ (alloc_ok env = true
      /\ (exists l, set_kconds tbl c kinds [] = Some (0, l))
      /\ select_wait_on_cond TIMER_HZ tbl env c
         = (alloc :: timer ++ fst w ++ free_after (snd w), snd w)).
Proof.
  intros Hg alloc timer w. subst alloc timer w.
  unfold select_wait_on_cond.
  destruct (alloc_ok env); cbn [negb]; [| left; split; reflexivity].
  right.
  destruct (set_kconds tbl c kinds []) as [[rc l] |] eqn:Hk.
  2:{ left. repeat split. }
  right. destruct (set_kconds_status tbl c kinds [] rc l Hk) as [-> | ->].
  - right. split; [reflexivity |]. split; [exists l; reflexivity |].
    cbn [Z.eqb negb].
    destruct (tv c) as [t |].
    + destruct Hg as [Hg | Hg]; [discriminate |].
      destruct (Z.ltb_spec 0 (timeout_ticks c)); [| lia]. cbn [negb].
      destruct (wait_loop TIMER_HZ c (wakeups env)) as [ev r].
      reflexivity.
    + destruct (wait_loop TIMER_HZ c (wakeups env)) as [ev r].
      reflexivity.
  - left. split; [reflexivity |]. split; [exists l; reflexivity |].
    reflexivity.
Qed.

(** [sys_select] up to the end of the copies from user space. *)
Lemma sys_select_split tbl env user_nfds pr pw pe utv :
  MAX_HANDLES <= INT_MAX ->
  sys_select TIMER_HZ MAX_HANDLES tbl env user_nfds pr pw pe utv =
    let inp := mk_arr3 pr pw pe in
    if (user_nfds <? 0) || (MAX_HANDLES <? user_nfds)
    then mk_run (Returned (- EINVAL) inp utv) [] None
    else
      let r := select_read_user_sets (mk_arr3 None None None) inp in
      if negb (fst r =? 0) then mk_run (Returned (fst r) inp utv) [] None
      else
        match utv with
        | UNull =>
            select_after_copy TIMER_HZ tbl env
              (mk_ctx user_nfds (snd r) inp None utv 0 0)
        | UPtr true _ t =>
            select_after_copy TIMER_HZ tbl env
              (mk_ctx user_nfds (snd r) inp (Some t) utv 0
                 (timeval_to_ticks TIMER_HZ t))
        | UPtr false _ _ => mk_run (Returned (- EFAULT) inp utv) [] None
        end.
Proof.
  intros HM. unfold sys_select, select_after_copy. cbv zeta.
  destruct (Z.ltb_spec user_nfds 0) as [Hneg | Hpos]; cbn [orb];
    [reflexivity |].
  destruct (Z.ltb_spec MAX_HANDLES user_nfds) as [Hbig | Hsmall];
    [reflexivity |].
  unfold INT_MAX in HM. rewrite u32_small by lia.
  cbn [sets u_sets timeout_ticks].
  destruct (select_read_user_sets (mk_arr3 None None None)
              (mk_arr3 pr pw pe)) as [rc s].
  cbn [fst snd].
  destruct (negb (rc =? 0)); [reflexivity |].
  unfold select_read_user_tv.
  destruct utv as [| [|] w t]; cbn [is_null copy_from_user Z.eqb negb];
    reflexivity.
Qed.

(** Where [sys_select] stands once its arguments are checked and copied:
    it has returned [-EINVAL] or [-EFAULT] without doing anything else, or
    it goes on with a context that holds the request. *)
Lemma sys_select_entry tbl env user_nfds pr pw pe utv :
  MAX_HANDLES <= INT_MAX ->
  let run :=
    sys_select TIMER_HZ MAX_HANDLES tbl env user_nfds pr pw pe utv in
  let inp := mk_arr3 pr pw pe in
  ((user_nfds < 0 \/ MAX_HANDLES < user_nfds)
   /\ run = mk_run (Returned (- EINVAL) inp utv) [] None)
  \/ (0 <= user_nfds <= MAX_HANDLES
      /\ ((exists k, ~ readable (get3 k inp)) \/ ~ readable utv)
      /\ run = mk_run (Returned (- EFAULT) inp utv) [] None)
  \/ (0 <= user_nfds <= MAX_HANDLES
      /\ (forall k, readable (get3 k inp)) /\ readable utv
      /\ exists c0,
           run = select_after_copy TIMER_HZ tbl env c0
           /\ nfds c0 = user_nfds /\ u_sets c0 = inp
           /\ (forall k, copied (get3 k inp) (get3 k (sets c0)))
           /\ user_tv c0 = utv /\ cond_cnt c0 = 0
           /\ match utv with
              | UNull => tv c0 = None /\ timeout_ticks c0 = 0
              | UPtr _ _ t =>
                  tv c0 = Some t
                  /\ timeout_ticks c0 = timeval_to_ticks TIMER_HZ t
              end).
Proof.
  intros HM run inp. subst run inp. rewrite sys_select_split by exact HM.
  cbv zeta.
  destruct (Z.ltb_spec user_nfds 0) as [Hneg | Hpos]; cbn [orb].
  { left. split; [left; exact Hneg | reflexivity]. }
  destruct (Z.ltb_spec MAX_HANDLES user_nfds) as [Hbig | Hsmall].
  { left. split; [right; exact Hbig | reflexivity]. }
  right.
  destruct (read_user_sets_status (mk_arr3 pr pw pe))
    as [[-> Hk] | [-> [Hall Hcop]]].
  { left. split; [lia |]. split; [left; exact Hk | reflexivity]. }
  cbn [Z.eqb negb].
  destruct utv as [| [|] w t].
  - right. split; [lia |]. split; [exact Hall |]. split; [exact I |].
    eexists. split; [reflexivity |]. cbn. repeat split. exact Hcop.
  - right. split; [lia |]. split; [exact Hall |]. split; [reflexivity |].
    eexists. split; [reflexivity |]. cbn. repeat split. exact Hcop.
  - left. split; [lia |]. split; [right; cbn; discriminate | reflexivity].
Qed.

(** What [select_write_user_sets] returns and writes, for sets that hold
    the copies of the user sets. *)
Lemma write_user_sets_full tbl c :
  (forall k, copied (get3 k (u_sets c)) (get3 k (sets c))) ->
  0 <= nfds c -> 3 * nfds c <= INT_MAX ->
  let r := select_write_user_sets tbl c in
  fst r = - EFAULT
  \/ (fst r = ready_count tbl (nfds c) RD (get3 RD (u_sets c))
              + ready_count tbl (nfds c) WR (get3 WR (u_sets c))
              + ready_count tbl (nfds c) EX (get3 EX (u_sets c))
      /\ 0 <= fst r <= 3 * nfds c
      /\ (forall k,
            get3 k (u_sets (snd r))
            = ready_set tbl (nfds c) k (get3 k (u_sets c)))
      /\ match tv c with
         | Some t => copy_to_user (user_tv c) t = Some (user_tv (snd r))
         | None => user_tv (snd r) = user_tv c
         end).
Proof.
  intros Hcop Hn0 Hn3 r. subst r.
  assert (Hr : forall k u, 0 <= ready_count tbl (nfds c) k u <= nfds c)
    by (intros; apply ready_count_range; unfold INT_MAX in *; lia).
  pose proof (Hr RD (get3 RD (u_sets c))) as H0.
  pose proof (Hr WR (get3 WR (u_sets c))) as H1.
  pose proof (Hr EX (get3 EX (u_sets c))) as H2.
  set (r0 := ready_count tbl (nfds c) RD (get3 RD (u_sets c))) in *.
  set (r1 := ready_count tbl (nfds c) WR (get3 WR (u_sets c))) in *.
  set (r2 := ready_count tbl (nfds c) EX (get3 EX (u_sets c))) in *.
  unfold select_write_user_sets.
  destruct (write_user_sets_loop tbl kinds c 0) as [[rc0 tot] c0] eqn:Hloop.
  apply write_user_sets_loop_ok in Hloop;
    [| apply NoDup_kinds | intros k _; apply Hcop].
  destruct Hloop as [(-> & _) | (-> & Hn & Ht & Hut & Htot & Hin & _)].
  { left. reflexivity. }
  cbn [Z.eqb negb].
  assert (Hsum : tot = r0 + r1 + r2).
  { rewrite Htot. unfold sum_counts, kinds. cbn [fold_left].
    fold r0 r1 r2. unfold INT_MAX in *.
    rewrite (s32_small (0 + r0)) by lia.
    rewrite (s32_small (0 + r0 + r1)) by lia.
    rewrite s32_small by lia. lia. }
  rewrite Ht, Hut. destruct (tv c) as [t |].
  - destruct (copy_to_user (user_tv c) t) as [p |] eqn:Hcp; cbn [fst snd].
    + right. split; [exact Hsum |]. split; [lia |].
      split; [| reflexivity]. intros k. cbn [with_user_tv u_sets].
      apply Hin, In_kinds.
    + left. reflexivity.
  - cbn [fst snd]. right. split; [exact Hsum |]. split; [lia |].
    split; [| exact Hut]. intros k. apply Hin, In_kinds.
Qed.


(** [sys_select] checks its arguments in this order: an [nfds] that is
    negative or above [MAX_HANDLES] gives [-EINVAL]; then a set that
    cannot be read gives [-EFAULT], and then a timeout that cannot be
    read; in these three cases nothing has been asked of the scheduler,
    no descriptor has been looked at and the user memory is as it was. *)
Theorem select_bad_arguments tbl env user_nfds pr pw pe utv :
  MAX_HANDLES <= INT_MAX ->
  let run :=
    sys_select TIMER_HZ MAX_HANDLES tbl env user_nfds pr pw pe utv in
  let inp := mk_arr3 pr pw pe in
  (user_nfds < 0 \/ MAX_HANDLES < user_nfds ->
   run = mk_run (Returned (- EINVAL) inp utv) [] None)
  /\ (0 <= user_nfds <= MAX_HANDLES ->
      (exists k, ~ readable (get3 k inp)) ->
      run = mk_run (Returned (- EFAULT) inp utv) [] None)
  /\ (0 <= user_nfds <= MAX_HANDLES ->
      ~ readable utv ->
      run = mk_run (Returned (- EFAULT) inp utv) [] None).
Proof.
  intros HM run inp. subst run inp. rewrite sys_select_split by exact HM.
  cbv zeta. split; [| split].
  - intros [H | H].
    + destruct (Z.ltb_spec user_nfds 0); [reflexivity | lia].
    + destruct (Z.ltb_spec MAX_HANDLES user_nfds); [| lia].
      rewrite orb_true_r. reflexivity.
  - intros Hr [k Hk].
    destruct (Z.ltb_spec user_nfds 0); [lia |].
    destruct (Z.ltb_spec MAX_HANDLES user_nfds); [lia |]. cbn [orb].
    destruct (read_user_sets_status (mk_arr3 pr pw pe))
      as [[-> _] | [_ [Hall _]]]; [reflexivity |].
    contradiction (Hk (Hall k)).
  - intros Hr Hu.
    destruct (Z.ltb_spec user_nfds 0); [lia |].
    destruct (Z.ltb_spec MAX_HANDLES user_nfds); [lia |]. cbn [orb].
    destruct (read_user_sets_status (mk_arr3 pr pw pe))
      as [[-> _] | [-> _]]; [reflexivity |].
    cbn [Z.eqb negb].
    destruct utv as [| [|] w t]; cbn in Hu; try reflexivity;
      contradiction Hu; auto.
Qed.






Lemma calls_sleeps (p : sched_event -> bool) (n : nat) :
  p EvSleepOnWaiter = false -> calls p (replicate n EvSleepOnWaiter) = O.
Proof.
  intros Hp. induction n as [| n IH]; [reflexivity |].
  cbn [replicate]. rewrite calls_cons, Hp, IH. reflexivity.
Qed.

(** The wait loop allocates and frees nothing and sets no timer; it
    cancels the timer at most once, and only when there is a timeout. *)
Lemma wait_loop_calls (ws : list wakeup) (c : select_ctx) :
  let ev := fst (wait_loop TIMER_HZ c ws) in
  calls is_alloc ev = O /\ calls is_free ev = O
  /\ calls is_set_timer ev = O
  /\ (calls is_cancel_timer ev
      <= match tv c with Some _ => 1 | None => 0 end)%nat.
Proof.
  destruct (wait_loop_cases ws c)
    as (n & _ & [-> | [(w & t0 & _ & Ht & _ & ->) | (w & _ & _ & ->)]]);
    cbn [fst]; try rewrite Ht.
  - rewrite !calls_sleeps by reflexivity. repeat split; lia.
  - rewrite !calls_sleeps by reflexivity. repeat split; lia.
  - destruct (tv c); cbn [fst];
      rewrite ?calls_app, !calls_sleeps by reflexivity;
      cbn; repeat split; lia.
Qed.

(** The calls that a run of [sys_select] makes to the allocator and the
    scheduler, with the way it ends. *)
Lemma sys_select_shape tbl env user_nfds pr pw pe utv :
  0 <= MAX_HANDLES -> 3 * MAX_HANDLES <= INT_MAX ->
  let run :=
    sys_select TIMER_HZ MAX_HANDLES tbl env user_nfds pr pw pe utv in
  (exists rc o t,
     r_events run = [] /\ r_outcome run = Returned rc o t
     /\ rc <> - ENOMEM)
  \/ (exists tk rc o t,
        r_events run = [EvKernelSleep tk] /\ r_outcome run = Returned rc o t
        /\ rc <> - ENOMEM)
  \/ (exists n o t,
        r_events run = [EvAllocWaiter n] /\ alloc_ok env = false
        /\ r_outcome run = Returned (- ENOMEM) o t)
  \/ (exists n,
        r_events run = [EvAllocWaiter n] /\ alloc_ok env = true
        /\ r_outcome run = Panic)
  \/ (exists n o t,
        r_events run = [EvAllocWaiter n; EvFreeWaiter]
        /\ alloc_ok env = true
        /\ r_outcome run = Returned (- EBADF) o t)
  \/ (exists n timer m,
        r_events run
        = EvAllocWaiter n :: timer ++ replicate m EvSleepOnWaiter
        /\ alloc_ok env = true /\ r_outcome run = Blocked
        /\ ((timer = [] /\ utv = UNull)
            \/ (exists tk, timer = [EvSetWakeupTimer tk] /\ utv <> UNull)))
  \/ (exists n timer m cancel rc o t,
        r_events run
        = EvAllocWaiter n :: timer ++ (replicate m EvSleepOnWaiter ++ cancel)
          ++ [EvFreeWaiter]
        /\ alloc_ok env = true /\ r_outcome run = Returned rc o t
        /\ rc <> - ENOMEM
        /\ ((timer = [] /\ cancel = [] /\ utv = UNull)
            \/ (exists tk,
                  timer = [EvSetWakeupTimer tk] /\ utv <> UNull
                  /\ (cancel = [] \/ cancel = [EvCancelWakeupTimer])))).
Proof.
  intros HM0 HM3 run. subst run. unfold INT_MAX in HM3.
  destruct (sys_select_entry tbl env user_nfds pr pw pe utv
              ltac:(unfold INT_MAX; lia))
    as [(Hr & ->) | [(Hr & _ & ->)
                    | (Hr & Hall & Hutv & c0 & -> & Hn & Hu & Hcop & Hut
                       & Hc0 & Htv)]].
  { left. eexists _, _, _. repeat split. discriminate. }
  { left. eexists _, _, _. repeat split. discriminate. }
  assert (Hrep : forall tbl' c ev,
            same_request c0 c ->
            exists rc o t,
              report tbl' c ev = mk_run (Returned rc o t) ev (Some (tbl', c))
              /\ rc <> - ENOMEM).
  { intros tbl' c ev (E1 & E2 & E3 & E4). rewrite report_eq.
    eexists _, _, _. split; [reflexivity |].
    assert (Hc : forall k, copied (get3 k (u_sets c)) (get3 k (sets c)))
      by (intros k; rewrite E2, E3, Hu; apply Hcop).
    pose proof (write_user_sets_full tbl' c Hc ltac:(rewrite E1, Hn; lia)
                  ltac:(rewrite E1, Hn; unfold INT_MAX; lia)) as Hw.
    cbv zeta in Hw. unfold EFAULT, ENOMEM in *.
    destruct Hw as [-> | (_ & Hrg & _)]; lia. }
  destruct (after_copy_cases tbl env c0 ltac:(lia) ltac:(rewrite Hn; lia) Hc0)
    as (c1 & Hsame & Htv1 & Htt1 & Hcases).
  destruct Hcases as [(_ & _ & ->)
                     | [(Hg & Hnobad & Hcnt & Hpos & ->)
                       | [(_ & _ & _ & ->) | (_ & _ & ->)]]].
  - left. eexists _, _, _. repeat split. discriminate.
  - destruct (wait_on_cond_cases tbl env c1
                ltac:(rewrite Htv1, Htt1; exact Hg))
      as [(Ha & ->) | [(Ha & _ & ->) | [(Ha & _ & ->) | (Ha & _ & ->)]]];
      cbn [after_wait].
    + right. right. left. eexists _, _, _. repeat split. exact Ha.
    + right. right. right. left. eexists. repeat split. exact Ha.
    + right. right. right. right. left. eexists _, _, _.
      repeat split. exact Ha.
    + assert (Htimer :
        (match tv c1 with
         | Some _ => [EvSetWakeupTimer (timeout_ticks c1)]
         | None => []
         end = [] /\ tv c1 = None /\ utv = UNull)
        \/ (exists tk,
              match tv c1 with
              | Some _ => [EvSetWakeupTimer (timeout_ticks c1)]
              | None => []
              end = [EvSetWakeupTimer tk]
              /\ tv c1 <> None /\ utv <> UNull)).
      { rewrite Htv1. destruct utv as [| r w t0]; destruct Htv as [-> _].
        - left. repeat split.
        - right. eexists. repeat split; discriminate. }
      destruct (wait_loop_cases (wakeups env) c1)
        as (m & _ & [Hl | [(w & t0 & _ & Ht & _ & Hl) | (w & _ & _ & Hl)]]);
        rewrite Hl; cbn [fst snd free_after].
      * right. right. right. right. right. left.
        eexists _, _, m. rewrite app_nil_r.
        split; [reflexivity |]. split; [exact Ha |].
        split; [reflexivity |].
        destruct Htimer as [(-> & _ & Hu0) | (tk & -> & _ & Hu0)];
          [left; split; [reflexivity | exact Hu0]
          | right; exists tk; split; [reflexivity | exact Hu0]].
      * cbn [Z.eqb negb].
        destruct (Hrep (wk_handles w) (with_tv (Some (mk_timeval 0 0)) c1)
                    (EvAllocWaiter (cond_cnt c1)
                       :: match tv c1 with
                          | Some _ => [EvSetWakeupTimer (timeout_ticks c1)]
                          | None => []
                          end ++ replicate m EvSleepOnWaiter ++ [EvFreeWaiter]))
          as (rc & o & t & -> & Hne).
        { destruct Hsame as (S1 & S2 & S3 & S4). repeat split; assumption. }
        repeat right. exists (cond_cnt c1).
        eexists _, m, [], rc, o, t. rewrite app_nil_r.
        split; [reflexivity |]. split; [exact Ha |].
        split; [reflexivity |]. split; [exact Hne |].
        destruct Htimer as [(_ & Hnone & _) | (tk & -> & _ & Hu0)];
          [rewrite Ht in Hnone; discriminate |].
        right. exists tk. split; [reflexivity |].
        split; [exact Hu0 | left; reflexivity].
      * destruct (tv c1) as [t1 |] eqn:Et1; cbn [fst snd free_after Z.eqb negb].
        -- destruct (Hrep (wk_handles w)
                       (with_tv (Some (remaining_time TIMER_HZ (wk_rem w))) c1)
                       (EvAllocWaiter (cond_cnt c1)
                          :: [EvSetWakeupTimer (timeout_ticks c1)]
                          ++ (replicate m EvSleepOnWaiter
                                ++ [EvCancelWakeupTimer])
                          ++ [EvFreeWaiter]))
             as (rc & o & t & -> & Hne).
           { destruct Hsame as (S1 & S2 & S3 & S4). repeat split; assumption. }
           repeat right. exists (cond_cnt c1).
           eexists _, m, [EvCancelWakeupTimer], rc, o, t.
           split; [reflexivity |]. split; [exact Ha |].
           split; [reflexivity |]. split; [exact Hne |].
           destruct Htimer as [(Hx & _) | (tk & Hx & _ & Hu0)];
             [discriminate Hx |].
           right. exists (timeout_ticks c1). split; [reflexivity |].
           split; [exact Hu0 | right; reflexivity].
        -- destruct (Hrep (wk_handles w) c1
                       (EvAllocWaiter (cond_cnt c1)
                          :: [] ++ replicate m EvSleepOnWaiter
                          ++ [EvFreeWaiter]))
             as (rc & o & t & -> & Hne); [exact Hsame |].
           repeat right. exists (cond_cnt c1).
           eexists [], m, [], rc, o, t. rewrite app_nil_r.
           split; [reflexivity |]. split; [exact Ha |].
           split; [reflexivity |]. split; [exact Hne |].
           destruct Htimer as [(_ & _ & Hu0) | (tk & Hx & _)];
             [| discriminate Hx].
           left. repeat split. exact Hu0.
  - destruct (Hrep (after_sleep env) c1 [EvKernelSleep (timeout_ticks c0)]
                Hsame) as (rc & o & t & -> & Hne).
    right. left. eexists _, rc, o, t. repeat split. exact Hne.
  - destruct (Hrep tbl c1 [] Hsame) as (rc & o & t & -> & Hne).
    left. exists rc, o, t. repeat split. exact Hne.
Qed.

Ltac count_calls :=
  cbn [r_events r_outcome];
  rewrite ?calls_cons, ?calls_app, ?calls_sleeps by reflexivity;
  cbn [calls List.filter length is_alloc is_free is_set_timer
       is_cancel_timer Nat.add];
  repeat split; intros;
  repeat match goal with
         | H : _ \/ _ |- _ => destruct H
         | H : _ /\ _ |- _ => destruct H
         end;
  unfold EBADF, ENOMEM in *;
  repeat match goal with
         | H : Returned _ _ _ = Returned _ _ _ |- _ =>
             injection H as ? ? ?
         end;
  try discriminate; try congruence; try lia.

(** The waiter of a call: [sys_select] allocates at most one waiter, sets
    a wakeup timer only after the allocation and only when there is a
    timeout, and cancels it at most once; a call that returns has freed
    the waiter that it allocated, and the one that returns [-ENOMEM] had
    none; a task that is never woken, or that stops on an [ASSERT], holds
    the waiter. *)
Theorem select_waiter_balance tbl env user_nfds pr pw pe utv :
  0 <= MAX_HANDLES -> 3 * MAX_HANDLES <= INT_MAX ->
  let run :=
    sys_select TIMER_HZ MAX_HANDLES tbl env user_nfds pr pw pe utv in
  let ev := r_events run in
  (calls is_alloc ev <= 1)%nat
  /\ (calls is_free ev <= calls is_alloc ev)%nat
  /\ (calls is_set_timer ev <= calls is_alloc ev)%nat
  /\ (calls is_cancel_timer ev <= calls is_set_timer ev)%nat
  /\ (calls is_set_timer ev = 1%nat -> utv <> UNull)
  /\ (forall rc o t,
        r_outcome run = Returned rc o t ->
        (alloc_ok env = true -> calls is_free ev = calls is_alloc ev)
        /\ (alloc_ok env = false -> calls is_free ev = O)
        /\ (rc = - ENOMEM <->
            alloc_ok env = false /\ calls is_alloc ev = 1%nat))
  /\ (r_outcome run = Blocked \/ r_outcome run = Panic ->
      calls is_alloc ev = 1%nat /\ calls is_free ev = O).
Proof.
  intros HM0 HM3 run ev. subst run ev.
  destruct (sys_select_shape tbl env user_nfds pr pw pe utv HM0 HM3)
    as [(rc & o & t & -> & -> & Hne)
       | [(tk & rc & o & t & -> & -> & Hne)
         | [(n & o & t & -> & Ha & ->)
           | [(n & -> & Ha & ->)
             | [(n & o & t & -> & Ha & ->)
               | [(n & timer & m & -> & Ha & -> & Htimer)
                 | (n & timer & m & cancel & rc & o & t & -> & Ha & ->
                    & Hne & Htimer)]]]]]].
  - count_calls.
  - count_calls.
  - count_calls.
  - count_calls.
  - count_calls.
  - destruct Htimer as [(-> & Hu) | (tk & -> & Hu)]; count_calls.
  - destruct Htimer as [(-> & -> & Hu) | (tk & -> & Hu & [-> | ->])];
      count_calls.
Qed.






End Kernel.

(** A second pass of [select_set_ready] over the set that a first pass
    left, on the same handles, clears nothing more and counts the same
    descriptors: the sets that [sys_select] returns are a fixed point of
    the report. *)
Theorem select_set_ready_idempotent tbl nfds (set : option fd_set) k :
  0 <= nfds <= INT_MAX ->
  let r := select_set_ready tbl nfds set k in
  select_set_ready tbl nfds (snd r) k = r.
Proof.
  intros Hn r. subst r. unfold INT_MAX in Hn.
  rewrite !select_set_ready_eq. destruct set as [s |]; cbn [fst snd];
    [| reflexivity].
  set (n := Z.to_nat nfds).
  set (s' := snd (set_ready_loop tbl k n 0 s 0)).
  assert (Hbits : forall j,
            Z.testbit s' j
            = Z.testbit s j
              && (if (0 <=? j) && (j <? 0 + Z.of_nat n) then ready_at tbl k j
                  else true))
    by (intros j; apply set_ready_loop_bits; lia).
  assert (Hs : snd (set_ready_loop tbl k n 0 s' 0) = s').
  { apply Z.bits_inj'. intros j _.
    rewrite set_ready_loop_bits by lia. fold s'. rewrite (Hbits j).
    destruct (Z.testbit s j); cbn [andb]; [| reflexivity].
    destruct ((0 <=? j) && (j <? 0 + Z.of_nat n)); [| reflexivity].
    destruct (ready_at tbl k j); reflexivity. }
  rewrite Hs. f_equal.
  rewrite !set_ready_loop_tot by (unfold INT_MAX; lia).
  f_equal. apply count_from_ext. intros j Hj. unfold FD_ISSET.
  rewrite (Hbits j).
  destruct (Z.leb_spec 0 j), (Z.ltb_spec j (0 + Z.of_nat n)); try lia.
  cbn [andb]. destruct (Z.testbit s j), (ready_at tbl k j); reflexivity.
Qed.

(** [select(17, ...)] with 16 handles at most, [select(-1, ...)], and a set
    or a timeout that cannot be read. *)
Lemma select_bad_arguments_witness :
  let run nfds pr utv :=
    sys_select 100 16 two_handles (quiet two_handles) nfds pr UNull UNull utv
  in
  run 17 (UPtr true true 24) UNull
  = mk_run (Returned (- EINVAL) (mk_arr3 (UPtr true true 24) UNull UNull)
              UNull) [] None
  /\ run 5 (UPtr false true 24) UNull
     = mk_run (Returned (- EFAULT) (mk_arr3 (UPtr false true 24) UNull UNull)
                 UNull) [] None
  /\ run 5 (UPtr true true 24) (UPtr false true (mk_timeval 1 0))
     = mk_run (Returned (- EFAULT) (mk_arr3 (UPtr true true 24) UNull UNull)
                 (UPtr false true (mk_timeval 1 0))) [] None.
Proof.
  assert (H16 : 16 <= INT_MAX) by (unfold INT_MAX; lia).
  split; [| split].
  - apply (proj1 (select_bad_arguments 100 16 two_handles
                    (quiet two_handles) 17 (UPtr true true 24) UNull UNull
                    UNull H16)).
    lia.
  - apply (proj1 (proj2 (select_bad_arguments 100 16 two_handles
                           (quiet two_handles) 5 (UPtr false true 24) UNull
                           UNull UNull H16))); [lia |].
    exists RD. cbn. discriminate.
  - apply (proj2 (proj2 (select_bad_arguments 100 16 two_handles
                           (quiet two_handles) 5 (UPtr true true 24) UNull
                           UNull (UPtr false true (mk_timeval 1 0)) H16)));
      [lia |].
    cbn. discriminate.
Defined.




(** A wait on descriptor 4 with a timeout of 10 s, ended by its condition:
    one waiter, one timer, both released. *)
Lemma select_waiter_balance_witness :
  let run :=
    sys_select 100 16 idle_4 (woken_by_4 800) 5 (UPtr true true 16) UNull
      UNull (UPtr true true (mk_timeval 10 0)) in
  let ev := r_events run in
  (calls is_alloc ev <= 1)%nat
  /\ (calls is_free ev <= calls is_alloc ev)%nat
  /\ (calls is_set_timer ev <= calls is_alloc ev)%nat
  /\ (calls is_cancel_timer ev <= calls is_set_timer ev)%nat
  /\ (calls is_set_timer ev = 1%nat ->
      UPtr true true (mk_timeval 10 0) <> UNull)
  /\ (forall rc o t,
        r_outcome run = Returned rc o t ->
        (alloc_ok (woken_by_4 800) = true ->
         calls is_free ev = calls is_alloc ev)
        /\ (alloc_ok (woken_by_4 800) = false -> calls is_free ev = O)
        /\ (rc = - ENOMEM <->
            alloc_ok (woken_by_4 800) = false
            /\ calls is_alloc ev = 1%nat))
  /\ (r_outcome run = Blocked \/ r_outcome run = Panic ->
      calls is_alloc ev = 1%nat /\ calls is_free ev = O).
Proof.
  apply (select_waiter_balance 100 16 idle_4 (woken_by_4 800) 5
           (UPtr true true 16) UNull UNull
           (UPtr true true (mk_timeval 10 0)));
    [lia | unfold INT_MAX; lia].
Defined.



Lemma select_set_ready_idempotent_witness :
  select_set_ready two_handles 5
    (snd (select_set_ready two_handles 5 (Some 24) RD)) RD
  = select_set_ready two_handles 5 (Some 24) RD.
Proof.
  apply (select_set_ready_idempotent two_handles 5 (Some 24) RD).
  unfold INT_MAX. lia.
Defined.

(** Descriptor 3 has a condition and descriptor 4, selected too, has none:
    the waiter has one element, and the assertion of [select_set_kcond]
    fails at descriptor 4, before the waiter is freed. *)
Example select_assert_after_last_cond :
  let run :=
    sys_select 100 16 cond_then_plain (quiet cond_then_plain) 5
      (UPtr true true 24) UNull UNull UNull in
  r_outcome run = Panic /\ r_events run = [EvAllocWaiter 1].
Proof. vm_compute. split; reflexivity. Qed.

End SelectMoreSpec.
